(** * The field mutation engine of the block editor (hook [useField])

    A shallow embedding of [useField] (the mapping-based implementation with
    [uniqueId], [parent] and [sub_fields]) and of the helpers it calls.

    JavaScript values are embedded as a small JSON-like datatype.  Objects are
    association lists in insertion order, which is the order [Object.values]
    and the object spread enumerate string keys in.  Code that may raise a
    [TypeError] (a property read or write on [undefined] or [null], a write
    on a primitive in module code, which is strict) lives in the [outcome]
    monad.

    Scope of the embedding, fixed once and for all:
    - property names are neither canonical array indices (which JavaScript
      enumerates before the other keys) nor names inherited from
      [Object.prototype];
    - numbers are integers ([order] values and counters);
    - objects have no identity: [===] on two objects is [false];
    - whatever falls outside (named properties on arrays, arrays with holes,
      behaviour of a helper the specification is silent about) is the
      outcome [Unmodelled], never a made-up value;
    - the effect of an operation is the block it hands to [editBlock] or
      [changeBlock], as an object, before it is serialized. *)

From Stdlib Require Import List String Ascii ZArith Bool Lia Arith.
From Stdlib Require Import Permutation Sorted FinFun DecimalString DecimalNat.
Import ListNotations.
Local Open Scope string_scope.
Local Open Scope list_scope.

Set Implicit Arguments.
Set Warnings "-register-all".

(** ** Values *)

Inductive value : Type :=
| VUndef
| VNull
| VBool (b : bool)
| VNum (n : Z)
| VStr (s : string)
| VArr (elems : list value)
| VObj (props : list (string * value)).

(** The own enumerable properties of an object, in insertion order. *)
Definition obj := list (string * value).

(** ** Outcomes of a JavaScript computation *)

Inductive outcome (A : Type) : Type :=
| Ok (a : A)
| TypeError
| Unmodelled.

Arguments Ok {A} a.
Arguments TypeError {A}.
Arguments Unmodelled {A}.

Definition bind {A B : Type} (m : outcome A) (k : A -> outcome B) : outcome B :=
  match m with
  | Ok a => k a
  | TypeError => TypeError
  | Unmodelled => Unmodelled
  end.

Declare Scope js_scope.
Delimit Scope js_scope with js.
Notation "x <- m ;; k" := (bind m (fun x => k))
  (at level 61, m at next level, right associativity) : js_scope.
Local Open Scope js_scope.

Fixpoint mapM {A B : Type} (f : A -> outcome B) (l : list A) : outcome (list B) :=
  match l with
  | [] => Ok []
  | a :: r => b <- f a ;; bs <- mapM f r ;; Ok (b :: bs)
  end.

(** [Array.prototype.filter] with a callback that may throw. *)
Fixpoint filterM {A : Type} (f : A -> outcome bool) (l : list A) : outcome (list A) :=
  match l with
  | [] => Ok []
  | a :: r => b <- f a ;; bs <- filterM f r ;; Ok (if b then a :: bs else bs)
  end.

(** ** Objects as ordered association lists *)

Module Obj.

Fixpoint get (k : string) (o : obj) : value :=
  match o with
  | [] => VUndef
  | (k', v) :: r => if String.eqb k k' then v else get k r
  end.

Definition has (k : string) (o : obj) : bool :=
  existsb (fun p => String.eqb k (fst p)) o.

(** [o[k] = v]: an existing key keeps its place, a new key goes last. *)
Fixpoint set (k : string) (v : value) (o : obj) : obj :=
  match o with
  | [] => [(k, v)]
  | (k', v') :: r =>
      if String.eqb k k' then (k, v) :: r else (k', v') :: set k v r
  end.

(** [delete o[k]]. *)
Fixpoint del (k : string) (o : obj) : obj :=
  match o with
  | [] => []
  | (k', v') :: r =>
      if String.eqb k k' then r else (k', v') :: del k r
  end.

Definition keys (o : obj) : list string := map fst o.
Definition values (o : obj) : list value := map snd o.

(** [{ ...o, k1: v1, ..., kn: vn }] and [{ ...o, ...o' }]: the entries of
    the second operand are assigned from left to right. *)
Definition assign (o o' : obj) : obj :=
  fold_left (fun acc p => set (fst p) (snd p) acc) o' o.

End Obj.

(** ** Primitive operations of the language *)

(** ToBoolean. *)
Definition truthy (v : value) : bool :=
  match v with
  | VUndef | VNull => false
  | VBool b => b
  | VNum n => negb (Z.eqb n 0)
  | VStr s => negb (String.eqb s "")
  | VArr _ | VObj _ => true
  end.

(** [a === b].  Two objects are never identical in this embedding. *)
Definition strict_eq (a b : value) : bool :=
  match a, b with
  | VUndef, VUndef => true
  | VNull, VNull => true
  | VBool x, VBool y => Bool.eqb x y
  | VNum x, VNum y => Z.eqb x y
  | VStr x, VStr y => String.eqb x y
  | _, _ => false
  end.

Definition str_of_nat (n : nat) : string :=
  NilEmpty.string_of_uint (Nat.to_uint n).

(** ToString, as applied to a property key [o[v]] and inside a template
    literal. *)
Definition to_str (v : value) : outcome string :=
  match v with
  | VStr s => Ok s
  | VUndef => Ok "undefined"
  | VNull => Ok "null"
  | VBool true => Ok "true"
  | VBool false => Ok "false"
  | VObj _ => Ok "[object Object]"
  | VNum _ | VArr _ => Unmodelled
  end.

(** [v[k]] (property read). *)
Definition get (v : value) (k : string) : outcome value :=
  match v with
  | VUndef | VNull => TypeError
  | VObj o => Ok (Obj.get k o)
  | VArr l => Ok (if String.eqb k "length" then VNum (Z.of_nat (List.length l)) else VUndef)
  | VStr s => Ok (if String.eqb k "length" then VNum (Z.of_nat (String.length s)) else VUndef)
  | VNum _ | VBool _ => Ok VUndef
  end.

(** [v[k] = x] in strict code; the result is the updated [v]. *)
Definition put (v : value) (k : string) (x : value) : outcome value :=
  match v with
  | VObj o => Ok (VObj (Obj.set k x o))
  | VArr _ => Unmodelled
  | _ => TypeError
  end.

(** [delete v[k]] in strict code; the result is the updated [v]. *)
Definition delete (v : value) (k : string) : outcome value :=
  match v with
  | VUndef | VNull => TypeError
  | VObj o => Ok (VObj (Obj.del k o))
  | VArr _ | VStr _ => if String.eqb k "length" then TypeError else Ok v
  | VNum _ | VBool _ => Ok v
  end.

(** [v.hasOwnProperty( k )]. *)
Definition hasOwnProperty (v : value) (k : string) : outcome bool :=
  match v with
  | VUndef | VNull => TypeError
  | VObj o => Ok (Obj.has k o)
  | VArr _ | VStr _ => Ok (String.eqb k "length")
  | VNum _ | VBool _ => Ok false
  end.

(** [{ ...v }]: the own enumerable properties. *)
Definition spread (v : value) : outcome obj :=
  match v with
  | VObj o => Ok o
  | VUndef | VNull | VBool _ | VNum _ => Ok []
  | VStr s => if String.eqb s "" then Ok [] else Unmodelled
  | VArr l => match l with [] => Ok [] | _ => Unmodelled end
  end.

(** [Object.values( v )]. *)
Definition object_values (v : value) : outcome (list value) :=
  match v with
  | VUndef | VNull => TypeError
  | VObj o => Ok (Obj.values o)
  | VArr l => Ok l
  | VStr s => if String.eqb s "" then Ok [] else Unmodelled
  | VBool _ | VNum _ => Ok []
  end.

(** [a[i] = x] on an array: inside the array, or one past its end. *)
Fixpoint array_set (l : list value) (i : nat) (x : value) : outcome (list value) :=
  match l, i with
  | [], O => Ok [x]
  | [], S _ => Unmodelled
  | _ :: r, O => Ok (x :: r)
  | y :: r, S j => r' <- array_set r j x ;; Ok (y :: r')
  end.

(** [a[i]]: [undefined] outside the array. *)
Definition array_get (l : list value) (i : nat) : value := nth i l VUndef.

(** ** Helpers imported by the hook

    The hook imports these from [../helpers], [../../common/helpers] and
    [../constants]; their files are not part of the sources at hand. *)

(** Modelled from the spec: the constant [DEFAULT_LOCATION] of
    [../constants] is missing.  The default bucket is the primary editing
    surface: fields without a location are reordered under ["editor"], as the
    superseded hook spells out ([! field.location || 'editor' === field.location]). *)
Definition DEFAULT_LOCATION : string := "editor".

Definition order_of (f : value) : option Z :=
  match f with
  | VObj o => match Obj.get "order" o with VNum n => Some n | _ => None end
  | _ => None
  end.

Definition rank (f : value) : Z :=
  match order_of f with Some n => n | None => 0%Z end.

Fixpoint insert_by_order (f : value) (l : list value) : list value :=
  match l with
  | [] => [f]
  | g :: r => if (rank f <=? rank g)%Z then f :: g :: r else g :: insert_by_order f r
  end.

Fixpoint sort_by_order (l : list value) : list value :=
  match l with
  | [] => []
  | f :: r => insert_by_order f (sort_by_order r)
  end.

Definition has_order (f : value) : bool :=
  match order_of f with Some _ => true | None => false end.

(** Modelled from the spec: the helper [getFieldsAsArray] is missing.
    "toSequence(mapping) -> ordered sequence of Field: flattens keys away,
    sequence order follows each Field's order attribute (not mapping
    iteration order)".  Fields of equal order keep their mapping order.  The
    specification is silent about an argument that is not a mapping and about
    a field without a numeric order. *)
Definition getFieldsAsArray (fields : value) : outcome (list value) :=
  match fields with
  | VObj o =>
      if forallb has_order (Obj.values o)
      then Ok (sort_by_order (Obj.values o))
      else Unmodelled
  | _ => Unmodelled
  end.

(** The identifier a field is keyed by: its [uniqueId], else its [name]. *)
Definition ident (f : value) : option string :=
  match f with
  | VObj o =>
      match Obj.get "uniqueId" o with
      | VStr s => Some s
      | _ => match Obj.get "name" o with VStr s => Some s | _ => None end
      end
  | _ => None
  end.

(** Modelled from the spec: the helper [getFieldsAsObject] is missing.
    "toMapping(sequence) -> mapping: keys the result by each Field's uniqueId
    (falling back to name if absent).  Fails silently (drops) on Fields
    lacking any identifier, never throws." *)
Definition getFieldsAsObject (l : list value) : obj :=
  fold_left
    (fun acc f => match ident f with Some k => Obj.set k f acc | None => acc end)
    l [].

Fixpoint set_orders (i : nat) (l : list value) : outcome (list value) :=
  match l with
  | [] => Ok []
  | VObj o :: r =>
      r' <- set_orders (S i) r ;;
      Ok (VObj (Obj.set "order" (VNum (Z.of_nat i)) o) :: r')
  | _ :: _ => Unmodelled
  end.

(** Modelled from the spec: the helper [setCorrectOrderForFields] is missing.
    "normalize(sequence) -> sequence: returns a new sequence with each
    Field's order set to its index".  The specification is silent about an
    element that is not a field object. *)
Definition setCorrectOrderForFields (l : list value) : outcome (list value) :=
  set_orders 0 l.

Definition suffixed (base : string) (n : nat) : string :=
  base ++ "-" ++ str_of_nat n.

(** Modelled from the spec: the helper [getNewFieldNumber] is missing.
    "nextIdentifier(existingCollection, baseName?) -> integer|falsy: scans
    existing identifiers for the pattern {baseName}-{n} (or {baseName}
    itself), returns the smallest integer >= 2 not already used, or a falsy
    sentinel if baseName (unsuffixed) is itself free"; an omitted base is
    "new-field".  [None] is the falsy sentinel, whose exact value the
    specification leaves open, as it does the case of a collection that is
    not a mapping. *)
Definition getNewFieldNumber (fields : value) (baseName : option string)
  : outcome (option nat) :=
  let base := match baseName with Some b => b | None => "new-field" end in
  match fields with
  | VObj o =>
      if Obj.has base o
      then match find (fun n => negb (Obj.has (suffixed base n) o))
                      (seq 2 (S (List.length o))) with
           | Some n => Ok (Some n)
           | None => Unmodelled
           end
      else Ok None
  | _ => Unmodelled
  end.

(** Modelled from the spec: the helper [getOtherLocation] is missing.
    "otherLocation(location) -> location: returns the complementary location
    in a two-location system (editor <-> inspector); undefined behavior if
    more than two locations are supported." *)
Definition getOtherLocation (location : value) : outcome value :=
  match location with
  | VStr s =>
      if String.eqb s "editor" then Ok (VStr "inspector")
      else if String.eqb s "inspector" then Ok (VStr "editor")
      else Unmodelled
  | _ => Unmodelled
  end.

(** Modelled from the spec: the helper [getSettingsDefaults] is missing.
    "defaultsFor(controlName, controlRegistry) -> settings mapping: looks up
    the control descriptor and returns whatever default settings it declares
    (empty mapping if the control is unknown)"; a descriptor is
    "{ name, type, defaultSettings? }". *)
Definition getSettingsDefaults (controlName : value) (controls : value) : obj :=
  match controlName, controls with
  | VStr n, VObj c =>
      match Obj.get n c with
      | VObj d => match Obj.get "defaultSettings" d with VObj s => s | _ => [] end
      | _ => []
      end
  | _, _ => []
  end.

(** ** The hook

    Every operation reads the block of the current render and hands at most
    one new block to the host: [editBlock] ([editPost] with the serialized
    block) or, for a block without a name, [changeBlock]. *)

Inductive effect : Type :=
| NoEffect
| EditBlock (newBlock : value)
| ChangeBlock (newBlock : value).

(** [const block = fullBlock[ blockNameWithNameSpace ] || {};] *)
Definition currentBlock (entry : value) : value :=
  if truthy entry then entry else VObj [].

(** The array behind a value that is used as one ([.length], [.filter],
    [...v] in an array literal). *)
Definition as_array (v : value) : outcome (list value) :=
  match v with
  | VArr l => Ok l
  | VUndef | VNull => TypeError
  | _ => Unmodelled
  end.

(** The base name handed to [getNewFieldNumber]: [undefined] selects the
    default parameter. *)
Definition base_name (v : value) : outcome (option string) :=
  match v with
  | VStr s => Ok (Some s)
  | VUndef => Ok None
  | _ => Unmodelled
  end.

Section UseField.

(** [const { controls } = gcbEditor;] and the block derived from the edited
    post content. *)
Variable controls : value.
Variable block : value.

(** Objects reached through [block] are mutated in place by the source.
    Here the updated object is written back along the path it was read
    from, which gives the same new block. *)

Definition addNewField (location : value) (parentField : option string)
  : outcome (effect * string) :=
  f0 <- get block "fields" ;;
  let fields :=
    match f0 with
    | VUndef => VObj []
    | VArr _ => VObj []
    | _ => f0
    end in
  fields <-
    match parentField with
    | Some p =>
        fp <- get fields p ;;
        if truthy fp then
          sf <- get fp "sub_fields" ;;
          if truthy sf then Ok fields
          else fp' <- put fp "sub_fields" (VObj []) ;; put fields p fp'
        else Ok fields
    | None => Ok fields
    end ;;
  currentFields <-
    match parentField with
    | Some p => fp <- get fields p ;; get fp "sub_fields"
    | None => Ok fields
    end ;;
  newFieldNumber <- getNewFieldNumber currentFields None ;;
  let newFieldName :=
    match newFieldNumber with
    | Some n => ("new-field-" ++ str_of_nat n)%string
    | None => "new-field"
    end in
  let label :=
    match newFieldNumber with
    | Some n => ("New Field " ++ str_of_nat n)%string
    | None => "New Field"
    end in
  siblings <- object_values currentFields ;;
  let newField :=
    Obj.assign (getSettingsDefaults (VStr "text") controls)
      [ ("name", VStr newFieldName);
        ("location", location);
        ("label", VStr label);
        ("control", VStr "text");
        ("type", VStr "string");
        ("order", VNum (Z.of_nat (List.length siblings))) ] in
  fields <-
    match parentField with
    | Some p =>
        fp <- get fields p ;;
        sf <- get fp "sub_fields" ;;
        sf' <- put sf newFieldName (VObj (Obj.set "parent" (VStr p) newField)) ;;
        fp' <- put fp "sub_fields" sf' ;;
        put fields p fp'
    | None => put fields newFieldName (VObj newField)
    end ;;
  b <- spread block ;;
  let newBlock := Obj.set "fields" fields b in
  Ok (if truthy (Obj.get "name" newBlock)
      then EditBlock (VObj newBlock)
      else ChangeBlock (VObj newBlock),
      newFieldName).

Definition changeControl (fieldToChange : value) (newControlName : string)
  : outcome effect :=
  newControl <- get controls newControlName ;;
  if negb (truthy newControl) then Ok NoEffect else
  name <- get fieldToChange "name" ;;
  if negb (truthy name) then Ok NoEffect else
  hasParent <- hasOwnProperty fieldToChange "parent" ;;
  bf <- get block "fields" ;;
  previousField <-
    (if hasParent then
       parent <- get fieldToChange "parent" ;;
       pk <- to_str parent ;;
       pf <- get bf pk ;;
       sf <- get pf "sub_fields" ;;
       nk <- to_str name ;;
       get sf nk
     else
       nk <- to_str name ;;
       get bf nk) ;;
  b <- spread block ;;
  controlName <- get newControl "name" ;;
  pname <- get previousField "name" ;;
  plabel <- get previousField "label" ;;
  plocation <- get previousField "location" ;;
  porder <- get previousField "order" ;;
  controlType <- get newControl "type" ;;
  let newField :=
    Obj.assign (getSettingsDefaults controlName controls)
      [ ("name", pname);
        ("label", plabel);
        ("location", plocation);
        ("order", porder);
        ("control", controlName);
        ("type", controlType) ] in
  let fs := Obj.get "fields" b in
  nk <- to_str name ;;
  if hasParent then
    parent <- get fieldToChange "parent" ;;
    pk <- to_str parent ;;
    pf <- get fs pk ;;
    sf <- get pf "sub_fields" ;;
    sf' <- put sf nk (VObj (Obj.set "parent" parent newField)) ;;
    pf' <- put pf "sub_fields" sf' ;;
    fs' <- put fs pk pf' ;;
    Ok (EditBlock (VObj (Obj.set "fields" fs' b)))
  else
    fs' <- put fs nk (VObj newField) ;;
    Ok (EditBlock (VObj (Obj.set "fields" fs' b))).

Definition changeFieldName (fields previousUniqueId newName : value)
  : outcome value :=
  newFields <- spread fields ;;
  base <- base_name newName ;;
  newFieldNumber <- getNewFieldNumber fields base ;;
  newFieldUniqueId <-
    match newFieldNumber with
    | Some n => s <- to_str newName ;; Ok (VStr (suffixed s n))
    | None => Ok newName
    end ;;
  pk <- to_str previousUniqueId ;;
  let fieldToRename := Obj.get pk newFields in
  hasSubFields <-
    (if truthy fieldToRename
     then hasOwnProperty fieldToRename "sub_fields"
     else Ok false) ;;
  fieldToRename <-
    (if hasSubFields then
       sf <- get fieldToRename "sub_fields" ;;
       subFields <- object_values sf ;;
       mapped <- mapM (fun subField =>
                         s <- spread subField ;;
                         Ok (VObj (Obj.set "parent" newName s)))
                      subFields ;;
       put fieldToRename "sub_fields" (VObj (getFieldsAsObject mapped))
     else Ok fieldToRename) ;;
  r <- spread fieldToRename ;;
  idk <- to_str newFieldUniqueId ;;
  let renamed :=
    Obj.assign r [ ("name", newName); ("uniqueId", newFieldUniqueId) ] in
  Ok (VObj (Obj.del pk (Obj.set idk (VObj renamed) newFields))).

Definition in_location (location field : value) : outcome bool :=
  fl <- get field "location" ;;
  Ok (strict_eq location fl
      || (negb (truthy fl) && strict_eq (VStr DEFAULT_LOCATION) location)).

Definition getFieldsForLocation (location : value) (parentField : option string)
  : outcome value :=
  if negb (truthy block) then Ok VNull else
  bf <- get block "fields" ;;
  if negb (truthy bf) then Ok VNull else
  fields <-
    match parentField with
    | None => Ok bf
    | Some p => pf <- get bf p ;; get pf "sub_fields"
    end ;;
  if negb (truthy fields) then Ok VNull else
  all <- getFieldsAsArray fields ;;
  here <- filterM (in_location location) all ;;
  Ok (VArr here).

Definition changeFieldLocation (fields selectedField newLocation : value)
  : outcome value :=
  name <- get selectedField "name" ;;
  nk <- to_str name ;;
  fieldToMove <- get fields nk ;;
  previousLocation <- get fieldToMove "location" ;;
  r <- getFieldsForLocation previousLocation None ;;
  previousLocationFields <- as_array r ;;
  fieldsWithoutMovedField <-
    filterM (fun field => n <- get field "name" ;; Ok (negb (strict_eq n name)))
            previousLocationFields ;;
  r' <- getFieldsForLocation newLocation None ;;
  newLocationFields <- as_array r' ;;
  let newLocationFields := newLocationFields ++ [fieldToMove] in
  a <- setCorrectOrderForFields fieldsWithoutMovedField ;;
  b <- setCorrectOrderForFields newLocationFields ;;
  Ok (VObj (getFieldsAsObject (a ++ b))).

Definition changeFieldSettings (fieldToChange newSettings : value)
  : outcome effect :=
  b <- spread block ;;
  hasLocation <- hasOwnProperty newSettings "location" ;;
  b <-
    (if hasLocation then
       location <- get newSettings "location" ;;
       fs <- changeFieldLocation (Obj.get "fields" b) fieldToChange location ;;
       Ok (Obj.set "fields" fs b)
     else Ok b) ;;
  let fs := Obj.get "fields" b in
  hasParent <- hasOwnProperty fieldToChange "parent" ;;
  if hasParent then
    parent <- get fieldToChange "parent" ;;
    pk <- to_str parent ;;
    pf <- get fs pk ;;
    sf <- get pf "sub_fields" ;;
    uniqueId <- get fieldToChange "uniqueId" ;;
    uk <- to_str uniqueId ;;
    currentField <- get sf uk ;;
    c <- spread currentField ;;
    settings <- spread newSettings ;;
    sf <- put sf uk (VObj (Obj.assign c settings)) ;;
    hasName <- hasOwnProperty newSettings "name" ;;
    sf <-
      (if hasName then
         newName <- get newSettings "name" ;;
         changeFieldName sf uniqueId newName
       else Ok sf) ;;
    pf' <- put pf "sub_fields" sf ;;
    fs' <- put fs pk pf' ;;
    Ok (EditBlock (VObj (Obj.set "fields" fs' b)))
  else
    uniqueId <- get fieldToChange "uniqueId" ;;
    uk <- to_str uniqueId ;;
    currentField <- get fs uk ;;
    c <- spread currentField ;;
    settings <- spread newSettings ;;
    fs <- put fs uk (VObj (Obj.assign c settings)) ;;
    hasName <- hasOwnProperty newSettings "name" ;;
    fs <-
      (if hasName then
         newName <- get newSettings "name" ;;
         changeFieldName fs uniqueId newName
       else Ok fs) ;;
    Ok (EditBlock (VObj (Obj.set "fields" fs b))).

Definition deleteField (selectedField : value) : outcome effect :=
  b <- spread block ;;
  let fs := Obj.get "fields" b in
  hasParent <- hasOwnProperty selectedField "parent" ;;
  nested <-
    (if hasParent then
       parent <- get selectedField "parent" ;;
       pk <- to_str parent ;;
       pf <- get fs pk ;;
       if truthy pf then sf <- get pf "sub_fields" ;; Ok (truthy sf)
       else Ok false
     else Ok false) ;;
  name <- get selectedField "name" ;;
  nk <- to_str name ;;
  fs' <-
    (if nested : bool then
       parent <- get selectedField "parent" ;;
       pk <- to_str parent ;;
       pf <- get fs pk ;;
       sf <- get pf "sub_fields" ;;
       sf' <- delete sf nk ;;
       pf' <- put pf "sub_fields" sf' ;;
       put fs pk pf'
     else delete fs nk) ;;
  Ok (EditBlock (VObj (Obj.set "fields" fs' b))).

Definition getField (selectedField : value) : outcome value :=
  if negb (truthy selectedField) then Ok (VObj []) else
  uniqueId <- get selectedField "uniqueId" ;;
  if negb (truthy uniqueId) then Ok (VObj []) else
  bf <- get block "fields" ;;
  if negb (truthy bf) then Ok (VObj []) else
  parent <- get selectedField "parent" ;;
  currentFields <-
    (if truthy parent
     then pk <- to_str parent ;; pf <- get bf pk ;; get pf "sub_fields"
     else Ok bf) ;;
  uk <- to_str uniqueId ;;
  get currentFields uk.

Definition duplicateField (selectedField : value) : outcome effect :=
  f0 <- get block "fields" ;;
  let fields := match f0 with VUndef => VObj [] | _ => f0 end in
  currentField <- getField selectedField ;;
  hasParent <- hasOwnProperty selectedField "parent" ;;
  parent <- get selectedField "parent" ;;
  currentFields <-
    (if hasParent
     then pk <- to_str parent ;; pf <- get fields pk ;; get pf "sub_fields"
     else Ok fields) ;;
  name <- get selectedField "name" ;;
  base <- base_name name ;;
  newFieldNumber <- getNewFieldNumber currentFields base ;;
  nameStr <- to_str name ;;
  numberStr <-
    match newFieldNumber with
    | Some n => Ok (str_of_nat n)
    | None => Unmodelled
    end ;;
  let newFieldName := (nameStr ++ "-" ++ numberStr)%string in
  c <- spread currentField ;;
  topLevel <- object_values fields ;;
  let clone :=
    Obj.assign c [ ("name", VStr newFieldName);
                   ("order", VNum (Z.of_nat (List.length topLevel))) ] in
  currentFields <- put currentFields newFieldName (VObj clone) ;;
  b <- spread block ;;
  if hasParent then
    pk <- to_str parent ;;
    pf <- get fields pk ;;
    pf' <- put pf "sub_fields" currentFields ;;
    fs' <- put fields pk pf' ;;
    Ok (EditBlock (VObj (Obj.set "fields" fs' b)))
  else
    Ok (EditBlock (VObj (Obj.set "fields" currentFields b))).

Definition reorderFields (moveFrom moveTo : nat) (currentLocation : value)
           (parentField : option string) : outcome effect :=
  r <- getFieldsForLocation currentLocation parentField ;;
  fieldsToReorder <- as_array r ;;
  if Nat.eqb (List.length fieldsToReorder) 0 then Ok NoEffect else
  let atTo := array_get fieldsToReorder moveTo in
  let atFrom := array_get fieldsToReorder moveFrom in
  newFields <- array_set fieldsToReorder moveFrom atTo ;;
  newFields <- array_set newFields moveTo atFrom ;;
  b <- spread block ;;
  let fs := Obj.get "fields" b in
  match parentField with
  | Some p =>
      pf <- get fs p ;;
      ordered <- setCorrectOrderForFields newFields ;;
      pf' <- put pf "sub_fields" (VObj (getFieldsAsObject ordered)) ;;
      fs' <- put fs p pf' ;;
      Ok (EditBlock (VObj (Obj.set "fields" fs' b)))
  | None =>
      ordered <- setCorrectOrderForFields newFields ;;
      other <- getOtherLocation currentLocation ;;
      r' <- getFieldsForLocation other None ;;
      others <- as_array r' ;;
      Ok (EditBlock
            (VObj (Obj.set "fields" (VObj (getFieldsAsObject (ordered ++ others))) b)))
  end.

End UseField.

(** * The hook keyed by field name

    [js/src/edit-block/hooks/useField.js]: the hook whose operations take
    the name of a top-level field.  It reads the block as the first entry of
    the full block, updates the full block in place and hands the whole of it
    to [editPost], serialized.  Here the updated objects are written back
    along the path they were read from.  The helpers it imports are the ones
    above. *)

Module ByName.

Inductive effect : Type :=
| NoEffect
| EditPost (fullBlock : value).

(** [Object.keys( v )[ 0 ]], as a property key. *)
Definition first_key (v : value) : outcome string :=
  match v with
  | VObj ((k, _) :: _) => Ok k
  | VObj [] => Ok "undefined"
  | VUndef | VNull => TypeError
  | _ => Unmodelled
  end.

Section UseField.

Variable controls : value.
Variable fullBlock : value.

(** [const blockNameWithNameSpace = Object.keys( fullBlock )[ 0 ];] *)
Definition blockNameWithNameSpace : outcome string := first_key fullBlock.

(** [fullBlock[ blockNameWithNameSpace ].fields = fields], then
    [editPost( { content: JSON.stringify( fullBlock ) } )]. *)
Definition editPost (ns : string) (blk fields : value) : outcome effect :=
  blk' <- put blk "fields" fields ;;
  fb' <- put fullBlock ns blk' ;;
  Ok (EditPost fb').

Definition changeFieldName (fields previousName newName : value)
  : outcome value :=
  pk <- to_str previousName ;;
  prev <- get fields pk ;;
  o <- spread prev ;;
  let renamedField := VObj (Obj.set "name" newName o) in
  nk <- to_str newName ;;
  fields <- put fields nk renamedField ;;
  delete fields pk.

Definition addNewField (location : value) : outcome effect :=
  ns <- blockNameWithNameSpace ;;
  blk <- get fullBlock ns ;;
  f0 <- get blk "fields" ;;
  let fields := match f0 with VUndef => VObj [] | _ => f0 end in
  newFieldNumber <- getNewFieldNumber fields None ;;
  let newFieldName :=
    match newFieldNumber with
    | Some n => ("new-field-" ++ str_of_nat n)%string
    | None => "new-field"
    end in
  let label :=
    match newFieldNumber with
    | Some n => ("New Field " ++ str_of_nat n)%string
    | None => "New Field"
    end in
  existing <- object_values fields ;;
  let newField :=
    VObj [ ("name", VStr newFieldName);
           ("location", location);
           ("label", VStr label);
           ("control", VStr "text");
           ("type", VStr "string");
           ("order", VNum (Z.of_nat (List.length existing))) ] in
  fields <- put fields newFieldName newField ;;
  editPost ns blk fields.

Definition changeControl (fieldName : value) (newControlName : string)
  : outcome effect :=
  ns <- blockNameWithNameSpace ;;
  newControl <- get controls newControlName ;;
  if negb (truthy newControl) || negb (truthy fieldName) then Ok NoEffect else
  blk <- get fullBlock ns ;;
  f0 <- get blk "fields" ;;
  let fields := if truthy f0 then f0 else VArr [] in
  nk <- to_str fieldName ;;
  previousField <- get fields nk ;;
  pname <- get previousField "name" ;;
  plabel <- get previousField "label" ;;
  controlName <- get newControl "name" ;;
  controlType <- get newControl "type" ;;
  let newField :=
    VObj [ ("name", pname);
           ("label", plabel);
           ("control", controlName);
           ("type", controlType) ] in
  fields <- put fields nk newField ;;
  editPost ns blk fields.

Definition getField (fieldName : value) : outcome value :=
  ns <- blockNameWithNameSpace ;;
  blk <- get fullBlock ns ;;
  if truthy fieldName then
    bf <- get blk "fields" ;;
    nk <- to_str fieldName ;;
    get bf nk
  else Ok (VObj []).

Definition in_location (location field : value) : outcome bool :=
  if strict_eq (VStr "editor") location then
    fl <- get field "location" ;;
    Ok (negb (truthy fl) || strict_eq (VStr "editor") fl)
  else
    fl <- get field "location" ;;
    Ok (strict_eq fl (VStr "inspector")).

Definition getFieldsForLocation (location : value) : outcome value :=
  ns <- blockNameWithNameSpace ;;
  blk <- get fullBlock ns ;;
  if negb (truthy blk) then Ok VNull else
  bf <- get blk "fields" ;;
  if negb (truthy bf) then Ok VNull else
  all <- getFieldsAsArray bf ;;
  here <- filterM (in_location location) all ;;
  Ok (VArr here).

Definition changeFieldLocation (fields fieldName newLocation : value)
  : outcome value :=
  nk <- to_str fieldName ;;
  fieldToMove <- get fields nk ;;
  previousLocation <- get fieldToMove "location" ;;
  r <- getFieldsForLocation previousLocation ;;
  previousLocationFields <- as_array r ;;
  fieldsWithoutMovedField <-
    filterM (fun field => n <- get field "name" ;; Ok (negb (strict_eq n fieldName)))
            previousLocationFields ;;
  r' <- getFieldsForLocation newLocation ;;
  newLocationFields <- as_array r' ;;
  let newLocationFields := newLocationFields ++ [fieldToMove] in
  a <- setCorrectOrderForFields fieldsWithoutMovedField ;;
  b <- setCorrectOrderForFields newLocationFields ;;
  Ok (VObj (getFieldsAsObject (a ++ b))).

Definition changeFieldSettings (fieldName newSettings : value)
  : outcome effect :=
  ns <- blockNameWithNameSpace ;;
  blk <- get fullBlock ns ;;
  location <- get newSettings "location" ;;
  blk <-
    (if truthy location then
       fs <- get blk "fields" ;;
       fs <- changeFieldLocation fs fieldName location ;;
       put blk "fields" fs
     else Ok blk) ;;
  name <- get newSettings "name" ;;
  blk <-
    (if truthy name then
       fs <- get blk "fields" ;;
       fs <- changeFieldName fs fieldName name ;;
       put blk "fields" fs
     else Ok blk) ;;
  fs <- get blk "fields" ;;
  nk <- to_str fieldName ;;
  field <- get fs nk ;;
  c <- spread field ;;
  settings <- spread newSettings ;;
  fs <- put fs nk (VObj (Obj.assign c settings)) ;;
  editPost ns blk fs.

Definition reorderFields (moveFrom moveTo : nat) (currentLocation : value)
  : outcome effect :=
  r <- getFieldsForLocation currentLocation ;;
  fieldsToReorder <- as_array r ;;
  if Nat.eqb (List.length fieldsToReorder) 0 then Ok NoEffect else
  let atTo := array_get fieldsToReorder moveTo in
  let atFrom := array_get fieldsToReorder moveFrom in
  newFields <- array_set fieldsToReorder moveFrom atTo ;;
  newFields <- array_set newFields moveTo atFrom ;;
  ordered <- setCorrectOrderForFields newFields ;;
  other <- getOtherLocation currentLocation ;;
  r' <- getFieldsForLocation other ;;
  others <- as_array r' ;;
  ns <- blockNameWithNameSpace ;;
  blk <- get fullBlock ns ;;
  editPost ns blk (VObj (getFieldsAsObject (ordered ++ others))).

Definition deleteField (fieldName : value) : outcome effect :=
  ns <- blockNameWithNameSpace ;;
  blk <- get fullBlock ns ;;
  fs <- get blk "fields" ;;
  nk <- to_str fieldName ;;
  fs <- delete fs nk ;;
  editPost ns blk fs.

End UseField.

End ByName.

(** * Definitions used in the statements *)

(** The order [getFieldsAsArray] sorts by. *)
Definition le_rank (a b : value) : Prop := (rank a <= rank b)%Z.

(** [f[k]] for a field that is known to be an object. *)
Definition prop (f : value) (k : string) : value :=
  match f with
  | VObj o => Obj.get k o
  | _ => VUndef
  end.

(** A value that is an object, as every stored field is. *)
Definition is_object (f : value) : bool :=
  match f with
  | VObj _ => true
  | _ => false
  end.

(** The callback of [getFieldsForLocation] without its failure case. *)
Definition in_loc (location field : value) : bool :=
  let fl := prop field "location" in
  strict_eq location fl
  || (negb (truthy fl) && strict_eq (VStr DEFAULT_LOCATION) location).

(** [{ ...f, order: i }] for a field that is an object. *)
Definition set_order (i : nat) (f : value) : value :=
  match f with
  | VObj o => VObj (Obj.set "order" (VNum (Z.of_nat i)) o)
  | _ => f
  end.

(** [setCorrectOrderForFields] on a sequence of objects, counting from [i]. *)
Fixpoint renumber (i : nat) (l : list value) : list value :=
  match l with
  | [] => []
  | f :: r => set_order i f :: renumber (S i) r
  end.

(** The key [getFieldsAsObject] files a field under. *)
Definition key_of (f : value) : string :=
  match ident f with
  | Some k => k
  | None => ""
  end.

(** [getFieldsAsObject] on a sequence of fields with distinct identifiers. *)
Definition keyed (l : list value) : obj := map (fun f => (key_of f, f)) l.

(** The fields of a collection that [getFieldsForLocation] lists under a
    location. *)
Definition group (F : obj) (location : value) : list value :=
  filter (in_loc location) (sort_by_order (Obj.values F)).



(** [a[i] = x] for an index inside the array. *)
Fixpoint replace_nth (l : list value) (i : nat) (x : value) : list value :=
  match l, i with
  | [], _ => []
  | _ :: r, O => x :: r
  | y :: r, S j => y :: replace_nth r j x
  end.

(** [[ a[i], a[j] ] = [ a[j], a[i] ]] for indices inside the array. *)
Definition swapped (l : list value) (i j : nat) : list value :=
  replace_nth (replace_nth l i (array_get l j)) j (array_get l i).

(** The position the element at position [k] comes from when [i] and [j] are
    exchanged. *)
Definition transpose (i j k : nat) : nat :=
  if Nat.eqb k j then i else if Nat.eqb k i then j else k.

(** A collection whose fields are objects with a numeric order and pairwise
    distinct identifiers. *)
Record wf_fields (F : obj) : Prop := {
  wf_order : Forall (fun f => has_order f = true) (Obj.values F);
  wf_ident : Forall (fun f => ident f <> None) (Obj.values F);
  wf_distinct : NoDup (map key_of (Obj.values F))
}.

(** The collection [reorderFields] persists at the top level. *)
Definition reordered (F : obj) (loc other : value) (from to : nat) : obj :=
  keyed (renumber 0 (swapped (group F loc) from to) ++ group F other).

(** The callback of [changeFieldLocation] that drops the moved field. *)
Definition other_name (n : string) (f : value) : bool :=
  negb (strict_eq (prop f "name") (VStr n)).

(** The moved field as [changeFieldSettings] stores it: renumbered to the end
    of the new location, then merged with the new settings. *)
Definition moved_field (mo s : obj) (k : nat) : value :=
  VObj (Obj.assign (Obj.set "order" (VNum (Z.of_nat k)) mo) s).

(** The collection [changeFieldSettings] persists after a location move. *)
Definition relocated (F mo s : obj) (n u p q : string) : obj :=
  keyed (renumber 0 (filter (other_name n) (group F (VStr p)))
         ++ renumber 0 (group F (VStr q)))
  ++ [(u, moved_field mo s (List.length (group F (VStr q))))].

(** [G] is [E] with the elements at [from] and [to] exchanged, and every
    [order] set to the position. *)
Definition exchanged (E G : list value) (from to : nat) : Prop :=
  List.length G = List.length E /\
  forall i, i < List.length E ->
            nth i G VUndef = set_order i (nth (transpose from to i) E VUndef).

(** The collection [{a: {name: "a", order: 0}, b: {name: "b", order: 1}}]. *)
Definition scenario1 : value :=
  VObj [("fields",
         VObj [("a", VObj [("name", VStr "a"); ("order", VNum 0)]);
               ("b", VObj [("name", VStr "b"); ("order", VNum 1)])])].

(** The sibling collection [addNewField] starts from at the top level: an
    absent collection and the legacy array both count as empty. *)
Definition collection_of (bf : value) : option obj :=
  match bf with
  | VUndef | VArr _ => Some []
  | VObj F => Some F
  | _ => None
  end.

(** The name and the label [addNewField] derives from the allocator's answer. *)
Definition new_field_name (num : option nat) : string :=
  match num with
  | Some n => ("new-field-" ++ str_of_nat n)%string
  | None => "new-field"
  end.

Definition new_field_label (num : option nat) : string :=
  match num with
  | Some n => ("New Field " ++ str_of_nat n)%string
  | None => "New Field"
  end.

(** [addNewField] hands a block without a name to [changeBlock]. *)
Definition persisted (newBlock : obj) : effect :=
  if truthy (Obj.get "name" newBlock)
  then EditBlock (VObj newBlock)
  else ChangeBlock (VObj newBlock).

(** The clone [duplicateField] stores. *)
Definition clone_of (c : obj) (name : string) (count : nat) : value :=
  VObj (Obj.assign c [ ("name", VStr name); ("order", VNum (Z.of_nat count)) ]).

(** Sample fields, selectors and blocks. *)
Definition field (name location : string) (order : Z) : value :=
  VObj [("name", VStr name); ("location", VStr location); ("order", VNum order)].

Definition selector (name : string) : value :=
  VObj [("name", VStr name); ("uniqueId", VStr name)].


Definition two_editor_fields : value :=
  VObj [("name", VStr "ns/block");
        ("fields", VObj [("a", field "a" "editor" 0);
                         ("b", field "b" "editor" 1)])].

(** The field [changeControl] builds from the previous field and the new
    control's descriptor. *)
Definition carried_over (prev d : obj) : obj :=
  [ ("name", Obj.get "name" prev);
    ("label", Obj.get "label" prev);
    ("location", Obj.get "location" prev);
    ("order", Obj.get "order" prev);
    ("control", Obj.get "name" d);
    ("type", Obj.get "type" d) ].

(** The field [changeControl] stores: the resolver defaults of the new
    control, overwritten by the six attributes above. *)
Definition replacement (controls : value) (prev d : obj) : obj :=
  Obj.assign (getSettingsDefaults (Obj.get "name" d) controls) (carried_over prev d).

(** The attributes [changeControl] and [addNewField] set themselves. *)
Definition carried_keys : list string :=
  ["name"; "label"; "location"; "order"; "control"; "type"].

Definition seeded_keys : list string :=
  ["name"; "location"; "label"; "control"; "type"; "order"].

Definition sub_field (name parent : string) (order : Z) : value :=
  VObj [("name", VStr name); ("parent", VStr parent); ("order", VNum order)].

(** A repeater with the sub-fields [x] and [x-2], next to two more top-level
    fields. *)
Definition repeater_block : value :=
  VObj [("name", VStr "ns/block");
        ("fields",
         VObj [("rep",
                VObj [("name", VStr "rep"); ("control", VStr "repeater");
                      ("order", VNum 0);
                      ("sub_fields",
                       VObj [("x", sub_field "x" "rep" 0);
                             ("x-2", sub_field "x-2" "rep" 1)])]);
               ("a", field "a" "editor" 1);
               ("b", field "b" "editor" 2)])].

Definition nested_selector (name parent : string) : value :=
  VObj [("name", VStr name); ("uniqueId", VStr name); ("parent", VStr parent)].

(** The identifier [changeFieldName] stores the renamed field under. *)
Definition renamed_id (newName : string) (num : option nat) : string :=
  match num with
  | Some k => suffixed newName k
  | None => newName
  end.

(** The callback of [changeFieldName] on a sub-field that is an object. *)
Definition with_parent (newName : string) (sub : value) : value :=
  match sub with
  | VObj o => VObj (Obj.set "parent" (VStr newName) o)
  | _ => sub
  end.

(** A control registry with two controls, and a stored repeater field. *)
Definition registry : value :=
  VObj [("text",
         VObj [("name", VStr "text"); ("type", VStr "string");
               ("defaultSettings", VObj [("placeholder", VStr "")])]);
        ("image",
         VObj [("name", VStr "image"); ("type", VStr "integer")])].

Definition stored_repeater : obj :=
  [("name", VStr "rep"); ("label", VStr "Rep"); ("control", VStr "repeater");
   ("type", VStr "object"); ("location", VStr "editor"); ("order", VNum 0);
   ("uniqueId", VStr "rep");
   ("sub_fields", VObj [("x", sub_field "x" "rep" 0);
                        ("x-2", sub_field "x-2" "rep" 1)])].

(** A collection with one field in each of the two locations and one in a
    third one. *)
Definition three_locations : obj :=
  [("a", field "a" "editor" 0);
   ("b", field "b" "inspector" 0);
   ("c", field "c" "sidebar" 0)].

(** The fields of the sequence are objects whose orders are 0, 1, 2, ... in
    this sequence. *)
Definition dense_sequence (E : list value) : Prop :=
  Forall (fun f => is_object f = true) E
  /\ map order_of E = map (fun n => Some (Z.of_nat n)) (seq 0 (List.length E)).

(** * Properties *)

#[local] Arguments String.eqb : simpl never.

(** ** Association lists *)

Module ObjFacts.

Lemma has_false_iff k (o : obj) : Obj.has k o = false <-> ~ In k (Obj.keys o).
Proof.
  unfold Obj.has, Obj.keys. induction o as [|[k' v] o IH]; simpl.
  - tauto.
  - destruct (String.eqb_spec k k') as [->|Hne]; simpl.
    + split; [discriminate | intros H; exfalso; apply H; now left].
    + rewrite IH. split; [intros H [E|I]; [congruence | tauto] | tauto].
Qed.

Lemma has_true_iff k (o : obj) : Obj.has k o = true <-> In k (Obj.keys o).
Proof.
  destruct (Obj.has k o) eqn:E.
  - split; [intros _ | reflexivity].
    destruct (in_dec string_dec k (Obj.keys o)) as [I|N]; [exact I|].
    apply has_false_iff in N. congruence.
  - apply has_false_iff in E. split; [discriminate | tauto].
Qed.

Lemma get_set_same k v o : Obj.get k (Obj.set k v o) = v.
Proof.
  induction o as [|[k' v'] o IH]; simpl.
  - now rewrite String.eqb_refl.
  - destruct (String.eqb_spec k k') as [->|Hne]; simpl.
    + now rewrite String.eqb_refl.
    + destruct (String.eqb_spec k k'); [congruence | exact IH].
Qed.

Lemma get_set_other k k' v o : k <> k' -> Obj.get k (Obj.set k' v o) = Obj.get k o.
Proof.
  intros Hne. induction o as [|[k2 v2] o IH]; simpl.
  - destruct (String.eqb_spec k k'); [congruence | reflexivity].
  - destruct (String.eqb_spec k' k2) as [->|Hne2]; simpl.
    + destruct (String.eqb_spec k k2); [congruence | reflexivity].
    + destruct (String.eqb_spec k k2); [reflexivity | exact IH].
Qed.

Lemma has_set k k' v o :
  Obj.has k (Obj.set k' v o) = (String.eqb k k' || Obj.has k o)%bool.
Proof.
  unfold Obj.has. induction o as [|[k2 v2] o IH]; simpl.
  - reflexivity.
  - destruct (String.eqb_spec k' k2) as [->|Hne2]; simpl.
    + destruct (String.eqb k k2); reflexivity.
    + rewrite IH. destruct (String.eqb k k'), (String.eqb k k2); reflexivity.
Qed.

Lemma set_fresh k v o : Obj.has k o = false -> Obj.set k v o = o ++ [(k, v)].
Proof.
  unfold Obj.has. induction o as [|[k' v'] o IH]; simpl; intros H.
  - reflexivity.
  - apply orb_false_iff in H as [H1 H2]. rewrite H1, IH by exact H2. reflexivity.
Qed.

Lemma set_last k v x o :
  Obj.has k o = false -> Obj.set k v (o ++ [(k, x)]) = o ++ [(k, v)].
Proof.
  unfold Obj.has. induction o as [|[k' v'] o IH]; simpl; intros H.
  - now rewrite String.eqb_refl.
  - apply orb_false_iff in H as [H1 H2]. rewrite H1, IH by exact H2. reflexivity.
Qed.

Lemma get_last k x o : Obj.has k o = false -> Obj.get k (o ++ [(k, x)]) = x.
Proof.
  unfold Obj.has. induction o as [|[k' v'] o IH]; simpl; intros H.
  - now rewrite String.eqb_refl.
  - apply orb_false_iff in H as [H1 H2]. rewrite H1. now apply IH.
Qed.

Lemma get_absent k o : Obj.has k o = false -> Obj.get k o = VUndef.
Proof.
  unfold Obj.has. induction o as [|[k' v'] o IH]; simpl; intros H.
  - reflexivity.
  - apply orb_false_iff in H as [H1 H2]. rewrite H1. now apply IH.
Qed.

Lemma set_same_value k o : Obj.has k o = true -> Obj.set k (Obj.get k o) o = o.
Proof.
  unfold Obj.has. induction o as [|[k' v'] o IH]; simpl; intros H.
  - discriminate.
  - destruct (String.eqb_spec k k') as [->|Hne]; [reflexivity|].
    simpl in H. now rewrite IH.
Qed.


Lemma has_del_same k o : NoDup (Obj.keys o) -> Obj.has k (Obj.del k o) = false.
Proof.
  unfold Obj.keys. induction o as [|[k' v'] o IH]; simpl; intros H.
  - reflexivity.
  - inversion H as [|? ? Hn Hd]; subst.
    destruct (String.eqb_spec k k') as [->|Hne].
    + now apply has_false_iff.
    + unfold Obj.has in *. simpl.
      destruct (String.eqb_spec k k'); [congruence|]. now apply IH.
Qed.

Lemma has_del_other k k' o : k <> k' -> Obj.has k (Obj.del k' o) = Obj.has k o.
Proof.
  intros Hne. unfold Obj.has. induction o as [|[k2 v2] o IH]; simpl.
  - reflexivity.
  - destruct (String.eqb_spec k' k2) as [->|Hne2]; simpl.
    + destruct (String.eqb_spec k k2); [congruence | reflexivity].
    + now rewrite IH.
Qed.

Lemma get_del_other k k' o : k <> k' -> Obj.get k (Obj.del k' o) = Obj.get k o.
Proof.
  intros Hne. induction o as [|[k2 v2] o IH]; simpl.
  - reflexivity.
  - destruct (String.eqb_spec k' k2) as [->|Hne2]; simpl.
    + destruct (String.eqb_spec k k2); [congruence | reflexivity].
    + now rewrite IH.
Qed.

Lemma get_in k o : Obj.has k o = true -> In (Obj.get k o) (Obj.values o).
Proof.
  unfold Obj.has, Obj.values. induction o as [|[k' v'] o IH]; simpl; intros H.
  - discriminate.
  - destruct (String.eqb_spec k k'); [now left | right; now apply IH].
Qed.

Lemma get_assign_other k o o' :
  Obj.has k o' = false -> Obj.get k (Obj.assign o o') = Obj.get k o.
Proof.
  unfold Obj.assign. revert o.
  induction o' as [|[k' v'] o' IH]; simpl; intros o H.
  - reflexivity.
  - unfold Obj.has in H. simpl in H. apply orb_false_iff in H as [H1 H2].
    rewrite IH by exact H2. apply get_set_other.
    now apply String.eqb_neq.
Qed.

Lemma get_assign_in k o o' :
  NoDup (Obj.keys o') -> Obj.has k o' = true ->
  Obj.get k (Obj.assign o o') = Obj.get k o'.
Proof.
  revert o. induction o' as [|[k' v'] o' IH]; simpl; intros o Hnd H.
  - discriminate.
  - inversion Hnd as [|? ? Hn Hd]; subst.
    change (Obj.assign o ((k', v') :: o')) with (Obj.assign (Obj.set k' v' o) o').
    destruct (String.eqb_spec k k') as [->|Hne].
    + rewrite get_assign_other by now apply has_false_iff.
      apply get_set_same.
    + apply IH; [exact Hd|].
      unfold Obj.has in H. simpl in H.
      destruct (String.eqb_spec k k'); [congruence | exact H].
Qed.

Lemma has_assign k o o' :
  Obj.has k (Obj.assign o o') = (Obj.has k o || Obj.has k o')%bool.
Proof.
  unfold Obj.assign. revert o.
  induction o' as [|[k' v'] o' IH]; simpl; intros o.
  - now rewrite orb_false_r.
  - rewrite IH, has_set. unfold Obj.has at 4. simpl.
    destruct (String.eqb k k'), (Obj.has k o); reflexivity.
Qed.

End ObjFacts.

(** ** The field collection codec: sorting by [order] *)

Lemma insert_by_order_perm f l : Permutation (insert_by_order f l) (f :: l).
Proof.
  induction l as [|g r IH]; simpl.
  - reflexivity.
  - destruct (rank f <=? rank g)%Z.
    + reflexivity.
    + rewrite IH. apply perm_swap.
Qed.

Lemma sort_by_order_perm l : Permutation (sort_by_order l) l.
Proof.
  induction l as [|f r IH]; simpl.
  - reflexivity.
  - rewrite insert_by_order_perm. now constructor.
Qed.

Lemma insert_by_order_sorted f l :
  StronglySorted le_rank l -> StronglySorted le_rank (insert_by_order f l).
Proof.
  induction 1 as [|g r Hs IH Hall]; simpl.
  - repeat constructor.
  - destruct (Z.leb_spec (rank f) (rank g)) as [Hle|Hgt].
    + constructor; [now constructor|].
      constructor; [exact Hle|].
      eapply Forall_impl; [|exact Hall].
      unfold le_rank. intros; lia.
    + constructor; [exact IH|].
      eapply Permutation_Forall; [symmetry; apply insert_by_order_perm|].
      constructor; [unfold le_rank; lia | exact Hall].
Qed.

Lemma sort_by_order_sorted l : StronglySorted le_rank (sort_by_order l).
Proof.
  induction l; simpl; [constructor | now apply insert_by_order_sorted].
Qed.

Lemma sort_by_order_fixed l : StronglySorted le_rank l -> sort_by_order l = l.
Proof.
  induction 1 as [|g r Hs IH Hall]; simpl.
  - reflexivity.
  - rewrite IH. destruct r as [|h r]; simpl; [reflexivity|].
    inversion Hall as [|? ? Hgh _]; subst.
    unfold le_rank in Hgh. apply Z.leb_le in Hgh. now rewrite Hgh.
Qed.

Lemma sorted_filter (p : value -> bool) l :
  StronglySorted le_rank l -> StronglySorted le_rank (filter p l).
Proof.
  induction 1 as [|g r Hs IH Hall]; simpl.
  - constructor.
  - destruct (p g); [|exact IH].
    constructor; [exact IH|].
    apply Forall_forall. intros x Hx. apply filter_In in Hx as [Hx _].
    rewrite Forall_forall in Hall. now apply Hall.
Qed.

Lemma filter_insert_by_order (p : value -> bool) f l :
  StronglySorted le_rank l ->
  filter p (insert_by_order f l) =
  if p f then insert_by_order f (filter p l) else filter p l.
Proof.
  induction 1 as [|g r Hs IH Hall]; simpl.
  - destruct (p f); reflexivity.
  - destruct (Z.leb_spec (rank f) (rank g)) as [Hle|Hgt]; simpl.
    + destruct (p f) eqn:Hpf, (p g) eqn:Hpg; simpl; try reflexivity.
      * apply Z.leb_le in Hle. now rewrite Hle.
      * assert (Hsf : StronglySorted le_rank (filter p r)) by now apply sorted_filter.
        destruct (filter p r) as [|h t] eqn:Hf; simpl; [reflexivity|].
        assert (Hin : In h r).
        { assert (In h (filter p r)) by (rewrite Hf; now left).
          now apply filter_In in H. }
        rewrite Forall_forall in Hall. specialize (Hall h Hin).
        unfold le_rank in Hall.
        assert (Hfh : (rank f <=? rank h)%Z = true) by (apply Z.leb_le; lia).
        now rewrite Hfh.
    + rewrite IH. destruct (p f) eqn:Hpf, (p g) eqn:Hpg; simpl; try reflexivity.
      assert (Hfg : (rank f <=? rank g)%Z = false) by (apply Z.leb_gt; lia).
      now rewrite Hfg.
Qed.

Lemma filter_sort_by_order (p : value -> bool) l :
  filter p (sort_by_order l) = sort_by_order (filter p l).
Proof.
  induction l as [|f r IH]; simpl.
  - reflexivity.
  - rewrite filter_insert_by_order by apply sort_by_order_sorted.
    destruct (p f); simpl; now rewrite IH.
Qed.

(** ** Pure views of the operations on well-formed data *)

Lemma has_order_object f : has_order f = true -> is_object f = true.
Proof. destruct f; simpl; try discriminate; reflexivity. Qed.

Lemma filterM_pure (A : Type) (f : A -> outcome bool) (p : A -> bool) l :
  Forall (fun x => f x = Ok (p x)) l -> filterM f l = Ok (filter p l).
Proof.
  induction 1 as [|x r Hx Hr IH]; simpl.
  - reflexivity.
  - rewrite Hx, IH. simpl. reflexivity.
Qed.

Lemma filterM_in_location loc l :
  Forall (fun f => is_object f = true) l ->
  filterM (in_location loc) l = Ok (filter (in_loc loc) l).
Proof.
  intros H. apply filterM_pure. eapply Forall_impl; [|exact H].
  intros [] Hf; simpl in Hf; try discriminate. reflexivity.
Qed.

Lemma set_orders_objects l : forall i,
  Forall (fun f => is_object f = true) l -> set_orders i l = Ok (renumber i l).
Proof.
  induction l as [|f r IH]; intros i H; simpl.
  - reflexivity.
  - inversion H as [|? ? Hf Hr]; subst.
    destruct f; simpl in Hf; try discriminate.
    rewrite IH by exact Hr. reflexivity.
Qed.

Lemma prop_set_order i f k : k <> "order" -> prop (set_order i f) k = prop f k.
Proof.
  intros Hk. destruct f; simpl; try reflexivity.
  now apply ObjFacts.get_set_other.
Qed.

Lemma ident_set_order i f : ident (set_order i f) = ident f.
Proof.
  destruct f; simpl; try reflexivity.
  rewrite !ObjFacts.get_set_other by discriminate. reflexivity.
Qed.

Lemma key_of_set_order i f : key_of (set_order i f) = key_of f.
Proof. unfold key_of. now rewrite ident_set_order. Qed.

Lemma in_loc_set_order loc i f : in_loc loc (set_order i f) = in_loc loc f.
Proof. unfold in_loc. now rewrite prop_set_order by discriminate. Qed.

Lemma order_of_set_order i f :
  is_object f = true -> order_of (set_order i f) = Some (Z.of_nat i).
Proof.
  destruct f; simpl; try discriminate. intros _.
  now rewrite ObjFacts.get_set_same.
Qed.

Lemma is_object_set_order i f : is_object (set_order i f) = is_object f.
Proof. destruct f; reflexivity. Qed.

Lemma renumber_length l : forall i, List.length (renumber i l) = List.length l.
Proof. induction l; intros; simpl; [reflexivity | now rewrite IHl]. Qed.

Lemma renumber_app l x : forall i,
  renumber i (l ++ [x]) = renumber i l ++ [set_order (i + List.length l) x].
Proof.
  induction l as [|f r IH]; intros i; simpl.
  - now rewrite Nat.add_0_r.
  - rewrite IH. now rewrite Nat.add_succ_comm.
Qed.

Lemma renumber_nth l : forall i j,
  j < List.length l ->
  nth j (renumber i l) VUndef = set_order (i + j) (nth j l VUndef).
Proof.
  induction l as [|f r IH]; intros i j Hj; simpl in *.
  - lia.
  - destruct j as [|j].
    + now rewrite Nat.add_0_r.
    + rewrite IH by lia. now rewrite Nat.add_succ_comm.
Qed.

Lemma renumber_map (B : Type) (g : value -> B) l :
  (forall i f, g (set_order i f) = g f) ->
  forall i, map g (renumber i l) = map g l.
Proof.
  intros Hg. induction l as [|f r IH]; intros i; simpl.
  - reflexivity.
  - now rewrite Hg, IH.
Qed.

Lemma renumber_orders l : forall i,
  Forall (fun f => is_object f = true) l ->
  map order_of (renumber i l) =
  map (fun n => Some (Z.of_nat n)) (seq i (List.length l)).
Proof.
  induction l as [|f r IH]; intros i H; simpl.
  - reflexivity.
  - inversion H; subst. rewrite order_of_set_order, IH by assumption. reflexivity.
Qed.

Lemma renumber_objects l : forall i,
  Forall (fun f => is_object f = true) l ->
  Forall (fun f => is_object f = true) (renumber i l).
Proof.
  induction l as [|f r IH]; intros i H; simpl.
  - constructor.
  - inversion H; subst. constructor; [now rewrite is_object_set_order | now apply IH].
Qed.

Lemma orders_has_order l i n :
  map order_of l = map (fun n => Some (Z.of_nat n)) (seq i n) ->
  Forall (fun f => has_order f = true) l.
Proof.
  revert i n. induction l as [|f r IH]; intros i n H.
  - constructor.
  - destruct n as [|n]; simpl in H; [discriminate|].
    injection H as Hf Hr. constructor; [|now apply (IH (S i) n)].
    unfold has_order. now rewrite Hf.
Qed.

Lemma orders_sorted l : forall i n,
  map order_of l = map (fun n => Some (Z.of_nat n)) (seq i n) ->
  StronglySorted le_rank l /\ Forall (fun f => (Z.of_nat i <= rank f)%Z) l.
Proof.
  induction l as [|f r IH]; intros i n H.
  - split; constructor.
  - destruct n as [|n]; simpl in H; [discriminate|].
    injection H as Hf Hr.
    destruct (IH (S i) n Hr) as [Hs Hall].
    assert (Hrf : rank f = Z.of_nat i) by (unfold rank; now rewrite Hf).
    split; constructor.
    + exact Hs.
    + eapply Forall_impl; [|exact Hall]. unfold le_rank. intros; lia.
    + lia.
    + eapply Forall_impl; [|exact Hall]. intros; simpl in *; lia.
Qed.



(** *** The mapping built from a sequence of distinct identifiers *)

Lemma fold_keyed l : forall acc,
  Forall (fun f => ident f <> None) l ->
  NoDup (map key_of l) ->
  (forall f, In f l -> Obj.has (key_of f) acc = false) ->
  fold_left
    (fun acc f => match ident f with Some k => Obj.set k f acc | None => acc end)
    l acc = acc ++ keyed l.
Proof.
  induction l as [|f r IH]; intros acc Hid Hnd Hfresh; simpl.
  - now rewrite app_nil_r.
  - inversion Hid as [|? ? Hf Hr]; subst.
    inversion Hnd as [|? ? Hn Hd]; subst.
    assert (Hk : ident f = Some (key_of f)).
    { unfold key_of. destruct (ident f); [reflexivity | congruence]. }
    rewrite Hk.
    rewrite ObjFacts.set_fresh by (apply Hfresh; now left).
    rewrite IH; [now rewrite <- app_assoc | exact Hr | exact Hd |].
    intros g Hg. apply ObjFacts.has_false_iff. unfold Obj.keys.
    rewrite map_app. simpl. intros Hin. apply in_app_or in Hin as [Hin|[Hin|[]]].
    + specialize (Hfresh g (or_intror Hg)).
      apply ObjFacts.has_false_iff in Hfresh. now apply Hfresh.
    + apply Hn. rewrite Hin. now apply in_map.
Qed.

Lemma getFieldsAsObject_keyed l :
  Forall (fun f => ident f <> None) l ->
  NoDup (map key_of l) ->
  getFieldsAsObject l = keyed l.
Proof.
  intros Hid Hnd. unfold getFieldsAsObject.
  rewrite fold_keyed; [reflexivity | exact Hid | exact Hnd | reflexivity].
Qed.

Lemma values_keyed l : Obj.values (keyed l) = l.
Proof.
  unfold Obj.values, keyed. rewrite map_map. simpl. apply map_id.
Qed.

Lemma keys_keyed l : Obj.keys (keyed l) = map key_of l.
Proof. unfold Obj.keys, keyed. now rewrite map_map. Qed.

Lemma keyed_app l l' : keyed (l ++ l') = keyed l ++ keyed l'.
Proof. unfold keyed. apply map_app. Qed.

(** *** Array updates inside the array, and the pairwise swap *)

Lemma array_set_inside l : forall i x,
  i < List.length l -> array_set l i x = Ok (replace_nth l i x).
Proof.
  induction l as [|y r IH]; intros i x Hi; simpl in *.
  - lia.
  - destruct i as [|i]; [reflexivity|].
    rewrite IH by lia. reflexivity.
Qed.

Lemma replace_nth_length l : forall i x,
  List.length (replace_nth l i x) = List.length l.
Proof.
  induction l as [|y r IH]; intros [|i] x; simpl; try reflexivity.
  now rewrite IH.
Qed.

Lemma replace_nth_nth l : forall i k x,
  i < List.length l ->
  nth k (replace_nth l i x) VUndef = if Nat.eqb k i then x else nth k l VUndef.
Proof.
  induction l as [|y r IH]; intros i k x Hi; simpl in *.
  - lia.
  - destruct i as [|i], k as [|k]; simpl; try reflexivity.
    apply IH. lia.
Qed.

Lemma swapped_length l i j : List.length (swapped l i j) = List.length l.
Proof. unfold swapped. now rewrite !replace_nth_length. Qed.

Lemma swapped_nth l i j k :
  i < List.length l -> j < List.length l ->
  nth k (swapped l i j) VUndef = nth (transpose i j k) l VUndef.
Proof.
  intros Hi Hj. unfold swapped, transpose, array_get.
  rewrite replace_nth_nth by now rewrite replace_nth_length.
  destruct (Nat.eqb_spec k j); [reflexivity|].
  rewrite replace_nth_nth by exact Hi.
  destruct (Nat.eqb_spec k i); reflexivity.
Qed.

Lemma transpose_bound i j n k : i < n -> j < n -> k < n -> transpose i j k < n.
Proof.
  intros. unfold transpose.
  destruct (Nat.eqb k j); [assumption|]. destruct (Nat.eqb k i); assumption.
Qed.

Lemma transpose_involutive i j k : transpose i j (transpose i j k) = k.
Proof.
  unfold transpose.
  destruct (Nat.eqb_spec k j) as [->|Hkj].
  - destruct (Nat.eqb_spec i j) as [->|Hij]; [reflexivity|].
    now rewrite Nat.eqb_refl.
  - destruct (Nat.eqb_spec k i) as [->|Hki].
    + now rewrite Nat.eqb_refl.
    + destruct (Nat.eqb_spec k j); [contradiction|].
      destruct (Nat.eqb_spec k i); [contradiction | reflexivity].
Qed.

Lemma swapped_perm l i j :
  i < List.length l -> j < List.length l -> Permutation l (swapped l i j).
Proof.
  intros Hi Hj. apply (Permutation_nth l (swapped l i j) VUndef).
  split; [apply swapped_length|].
  exists (transpose i j). repeat split.
  - intros k Hk. now apply transpose_bound.
  - intros x y _ _ Hxy.
    rewrite <- (transpose_involutive i j x), <- (transpose_involutive i j y).
    now rewrite Hxy.
  - intros k _. now apply swapped_nth.
Qed.

(** *** Groups of a collection *)

Lemma getFieldsForLocation_top B F loc :
  Obj.get "fields" B = VObj F ->
  Forall (fun f => has_order f = true) (Obj.values F) ->
  getFieldsForLocation (VObj B) loc None = Ok (VArr (group F loc)).
Proof.
  intros HF Hord. unfold getFieldsForLocation. simpl. rewrite HF. simpl.
  assert (Hall : forallb has_order (Obj.values F) = true).
  { apply forallb_forall. now apply Forall_forall. }
  rewrite Hall. simpl.
  rewrite filterM_in_location; [reflexivity|].
  eapply Permutation_Forall; [symmetry; apply sort_by_order_perm|].
  eapply Forall_impl; [|exact Hord]. intros f. apply has_order_object.
Qed.

Lemma group_in F loc f : In f (group F loc) -> In f (Obj.values F) /\ in_loc loc f = true.
Proof.
  unfold group. intros H. apply filter_In in H as [H1 H2]. split; [|exact H2].
  eapply Permutation_in; [apply sort_by_order_perm | exact H1].
Qed.

Lemma group_sorted F loc : StronglySorted le_rank (group F loc).
Proof. apply sorted_filter, sort_by_order_sorted. Qed.

Lemma other_exclusive loc other f :
  getOtherLocation loc = Ok other -> in_loc loc f = true -> in_loc other f = false.
Proof.
  assert (E : strict_eq (VStr DEFAULT_LOCATION) (VStr "inspector") = false)
    by reflexivity.
  unfold getOtherLocation. destruct loc as [ | | | |s| | ]; try discriminate.
  destruct (String.eqb_spec s "editor") as [->|_].
  - intros H; injection H as <-. unfold in_loc.
    rewrite E, andb_false_r, orb_false_r.
    destruct (prop f "location") as [ | | | |t| | ]; try reflexivity.
    cbn [strict_eq].
    destruct (String.eqb_spec "inspector" t) as [<-|_]; [|reflexivity].
    intros H. vm_compute in H. discriminate.
  - destruct (String.eqb_spec s "inspector") as [->|_]; [|discriminate].
    intros H; injection H as <-. unfold in_loc.
    rewrite E, andb_false_r, orb_false_r.
    destruct (prop f "location") as [ | | | |t| | ]; try discriminate.
    cbn [strict_eq].
    destruct (String.eqb_spec "inspector" t) as [<-|_]; [|discriminate].
    intros _. reflexivity.
Qed.

Lemma nodup_two_filters (p q : value -> bool) l :
  (forall x, p x = true -> q x = false) ->
  NoDup (map key_of l) ->
  NoDup (map key_of (filter p l ++ filter q l)).
Proof.
  intros Hex. induction l as [|x r IH]; simpl; intros Hnd.
  - constructor.
  - inversion Hnd as [|? ? Hn Hd]; subst. specialize (IH Hd).
    assert (Hsub : forall y, In y (map key_of (filter p r ++ filter q r)) ->
                             In y (map key_of r)).
    { intros y Hy. apply in_map_iff in Hy as [z [Hz Hin]]. subst.
      apply in_map. apply in_app_or in Hin as [Hin|Hin];
        now apply filter_In in Hin. }
    destruct (p x) eqn:Hp.
    + rewrite (Hex x Hp). simpl. constructor; [|exact IH].
      intros Hin. apply Hn. now apply Hsub.
    + destruct (q x) eqn:Hq; [|exact IH].
      eapply Permutation_NoDup.
      * apply Permutation_map. apply Permutation_middle.
      * simpl. constructor; [|exact IH].
        intros Hin. apply Hn. now apply Hsub.
Qed.

Lemma filter_all (p : value -> bool) l :
  Forall (fun x => p x = true) l -> filter p l = l.
Proof.
  induction 1 as [|x r Hx Hr IH]; simpl; [reflexivity|]. now rewrite Hx, IH.
Qed.

Lemma filter_none (p : value -> bool) l :
  Forall (fun x => p x = false) l -> filter p l = [].
Proof.
  induction 1 as [|x r Hx Hr IH]; simpl; [reflexivity|]. now rewrite Hx, IH.
Qed.

(** Two runs of fields that belong to different locations, each already
    sorted, are what the codec and the partitioner give back. *)
Lemma group_of_keyed loc l1 l2 :
  Forall (fun f => in_loc loc f = true) l1 ->
  Forall (fun f => in_loc loc f = false) l2 ->
  StronglySorted le_rank l1 ->
  group (keyed (l1 ++ l2)) loc = l1 /\ group (keyed (l2 ++ l1)) loc = l1.
Proof.
  intros H1 H2 Hs. unfold group. rewrite !values_keyed, !filter_sort_by_order.
  rewrite !filter_app, (filter_all _ H1), (filter_none _ H2).
  rewrite app_nil_r. simpl. split; now apply sort_by_order_fixed.
Qed.

(** ** Reordering at the top level *)

Section Reorder.

Variables (B F : obj) (loc other : value) (from to : nat).
Hypothesis HF : Obj.get "fields" B = VObj F.
Hypothesis Hwf : wf_fields F.
Hypothesis Hother : getOtherLocation loc = Ok other.
Hypothesis Hfrom : from < List.length (group F loc).
Hypothesis Hto : to < List.length (group F loc).

Let S := swapped (group F loc) from to.

Lemma swapped_in f : In f S -> In f (Obj.values F) /\ in_loc loc f = true.
Proof.
  intros H. apply group_in.
  apply Permutation_in with (l := S); [|exact H].
  symmetry. apply swapped_perm; assumption.
Qed.

Lemma swapped_objects : Forall (fun f => is_object f = true) S.
Proof.
  apply Forall_forall. intros f Hf. apply swapped_in in Hf as [Hf _].
  apply has_order_object. destruct Hwf as [Ho _ _].
  rewrite Forall_forall in Ho. now apply Ho.
Qed.

Lemma reordered_distinct :
  NoDup (map key_of (renumber 0 S ++ group F other)).
Proof.
  rewrite map_app, (renumber_map key_of S key_of_set_order), <- map_app.
  eapply Permutation_NoDup.
  - apply Permutation_map. apply Permutation_app_tail. now apply swapped_perm.
  - unfold group. apply nodup_two_filters.
    + intros x. now apply other_exclusive.
    + eapply Permutation_NoDup; [|exact (wf_distinct Hwf)].
      apply Permutation_map. symmetry. apply sort_by_order_perm.
Qed.

Lemma reordered_ident :
  Forall (fun f => ident f <> None) (renumber 0 S ++ group F other).
Proof.
  apply Forall_app. split; apply Forall_forall; intros f Hf.
  - apply (in_map ident) in Hf.
    rewrite (renumber_map ident S ident_set_order) in Hf.
    apply in_map_iff in Hf as [g [<- Hg]]. apply swapped_in in Hg as [Hg _].
    pose proof (wf_ident Hwf) as Hi. rewrite Forall_forall in Hi. now apply Hi.
  - apply group_in in Hf as [Hf _].
    pose proof (wf_ident Hwf) as Hi. rewrite Forall_forall in Hi. now apply Hi.
Qed.

Lemma reordered_order :
  Forall (fun f => has_order f = true) (renumber 0 S ++ group F other).
Proof.
  apply Forall_app. split.
  - eapply orders_has_order. apply renumber_orders, swapped_objects.
  - apply Forall_forall. intros f Hf. apply group_in in Hf as [Hf _].
    pose proof (wf_order Hwf) as Ho. rewrite Forall_forall in Ho. now apply Ho.
Qed.

Lemma reorder_wf : wf_fields (reordered F loc other from to).
Proof.
  unfold reordered. fold S. constructor; rewrite values_keyed.
  - apply reordered_order.
  - apply reordered_ident.
  - apply reordered_distinct.
Qed.

Lemma reorder_run :
  reorderFields (VObj B) from to loc None =
  Ok (EditBlock (VObj (Obj.set "fields" (VObj (reordered F loc other from to)) B))).
Proof.
  unfold reorderFields.
  rewrite (@getFieldsForLocation_top B F loc HF (wf_order Hwf)).
  cbn [bind as_array].
  destruct (Nat.eqb_spec (List.length (group F loc)) 0) as [E|_]; [lia|].
  rewrite array_set_inside by exact Hfrom. cbn [bind].
  rewrite array_set_inside by (now rewrite replace_nth_length).
  cbn [bind spread]. fold (swapped (group F loc) from to). fold S.
  unfold setCorrectOrderForFields.
  rewrite set_orders_objects by apply swapped_objects.
  cbn [bind]. rewrite Hother. cbn [bind].
  rewrite (@getFieldsForLocation_top B F other HF (wf_order Hwf)).
  cbn [bind as_array].
  rewrite getFieldsAsObject_keyed by
    (apply reordered_ident || apply reordered_distinct).
  reflexivity.
Qed.

Lemma reorder_group : group (reordered F loc other from to) loc = renumber 0 S.
Proof.
  unfold reordered. fold S. apply group_of_keyed.
  - apply Forall_forall. intros f Hf.
    apply (in_map (in_loc loc)) in Hf.
    rewrite (renumber_map (in_loc loc) S (in_loc_set_order loc)) in Hf.
    apply in_map_iff in Hf as [g [<- Hg]]. now apply swapped_in in Hg.
  - apply Forall_forall. intros f Hf. apply group_in in Hf as [_ Hf].
    unfold getOtherLocation in Hother.
    destruct (in_loc loc f) eqn:E; [|reflexivity].
    pose proof (other_exclusive _ _ Hother E). congruence.
  - eapply orders_sorted. apply renumber_orders, swapped_objects.
Qed.

Lemma reorder_other : group (reordered F loc other from to) other = group F other.
Proof.
  unfold reordered. fold S. apply group_of_keyed.
  - apply Forall_forall. intros f Hf. now apply group_in in Hf.
  - apply Forall_forall. intros f Hf.
    apply (in_map (in_loc other)) in Hf.
    rewrite (renumber_map (in_loc other) S (in_loc_set_order other)) in Hf.
    apply in_map_iff in Hf as [g [<- Hg]]. apply swapped_in in Hg as [_ Hg].
    now apply (other_exclusive _ _ Hother).
  - apply group_sorted.
Qed.

End Reorder.

(** ** Moving a field to another location *)

Lemma loc_exclusive p q f :
  p <> q -> p <> "" -> q <> "" ->
  in_loc (VStr p) f = true -> in_loc (VStr q) f = false.
Proof.
  intros Hpq Hp Hq. unfold in_loc.
  assert (Epq : forall a b : string, a <> b -> String.eqb a b = false)
    by (intros a b; apply String.eqb_neq).
  destruct (prop f "location") as [ | |[|]|z|t| | ]; cbn [strict_eq truthy negb];
    rewrite ?andb_false_r, ?andb_true_l, ?orb_false_l; try discriminate.
  - intros H. apply String.eqb_eq in H. apply Epq. congruence.
  - intros H. apply String.eqb_eq in H. apply Epq. congruence.
  - intros H. apply String.eqb_eq in H. apply Epq. congruence.
  - destruct (Z.eqb z 0); cbn [negb]; rewrite ?andb_false_l, ?andb_true_l;
      [|discriminate].
    intros H. apply String.eqb_eq in H. apply Epq. congruence.
  - destruct (String.eqb_spec p t) as [<-|Hpt].
    + intros _. rewrite (Epq q p) by congruence.
      rewrite (Epq p "") by exact Hp. reflexivity.
    + rewrite orb_false_l.
      destruct (String.eqb_spec t "") as [->|_]; cbn [negb];
        rewrite ?andb_false_l, ?andb_true_l; [|discriminate].
      intros H. apply String.eqb_eq in H.
      rewrite (Epq q "") by exact Hq. rewrite orb_false_l.
      apply Epq. congruence.
Qed.

Lemma filter_twice (p q : value -> bool) l :
  filter q (filter p l) = filter (fun x => p x && q x) l.
Proof.
  induction l as [|x r IH]; simpl; [reflexivity|].
  destruct (p x); simpl; [destruct (q x)|]; now rewrite IH.
Qed.

Lemma nodup_map_inj (l : list value) x y :
  NoDup (map key_of l) -> In x l -> In y l -> key_of x = key_of y -> x = y.
Proof.
  induction l as [|a r IH]; simpl; intros Hnd Hx Hy E; [contradiction|].
  inversion Hnd as [|? ? Hn Hd]; subst.
  destruct Hx as [->|Hx], Hy as [->|Hy].
  - reflexivity.
  - exfalso. apply Hn. rewrite E. now apply in_map.
  - exfalso. apply Hn. rewrite <- E. now apply in_map.
  - now apply IH.
Qed.

Lemma group_of_values N loc l1 l2 :
  Forall (fun f => in_loc loc f = true) l1 ->
  Forall (fun f => in_loc loc f = false) l2 ->
  StronglySorted le_rank l1 ->
  (Obj.values N = l1 ++ l2 \/ Obj.values N = l2 ++ l1) ->
  group N loc = l1.
Proof.
  intros H1 H2 Hs HN. unfold group. rewrite filter_sort_by_order.
  destruct HN as [-> | ->];
    rewrite filter_app, (filter_all _ H1), (filter_none _ H2);
    rewrite ?app_nil_r; simpl; now apply sort_by_order_fixed.
Qed.

Lemma set_twice k v v' o : Obj.set k v (Obj.set k v' o) = Obj.set k v o.
Proof.
  induction o as [|[k' x] o IH]; simpl.
  - now rewrite String.eqb_refl.
  - destruct (String.eqb_spec k k') as [->|Hne]; simpl.
    + now rewrite String.eqb_refl.
    + destruct (String.eqb_spec k k'); [contradiction|]. now rewrite IH.
Qed.


Section Move.

Variables (B F so mo s : obj) (n u p q : string).
Hypothesis HF : Obj.get "fields" B = VObj F.
Hypothesis Hwf : wf_fields F.
(** The selector [{ name, uniqueId }] of a top-level field. *)
Hypothesis Hsel_name : Obj.get "name" so = VStr n.
Hypothesis Hsel_id : Obj.get "uniqueId" so = VStr u.
Hypothesis Hsel_top : Obj.has "parent" so = false.
(** The field stored under the selector's name. *)
Hypothesis Hm : Obj.get n F = VObj mo.
Hypothesis Hm_name : Obj.get "name" mo = VStr n.
Hypothesis Hm_id : ident (VObj mo) = Some u.
Hypothesis Hm_loc : Obj.get "location" mo = VStr p.
(** The new settings: a location, no name and no order. *)
Hypothesis Hs_keys : NoDup (Obj.keys s).
Hypothesis Hs_loc : Obj.get "location" s = VStr q.
Hypothesis Hs_name : Obj.has "name" s = false.
Hypothesis Hs_order : Obj.has "order" s = false.
Hypothesis Hpq : p <> q.
Hypothesis Hp : p <> "".
Hypothesis Hq : q <> "".

Let P := group F (VStr p).
Let W := filter (other_name n) P.
Let Q := group F (VStr q).
Let m := VObj mo.
Let k := List.length Q.

Lemma settings_have_location : Obj.has "location" s = true.
Proof.
  destruct (Obj.has "location" s) eqn:E; [reflexivity|].
  apply ObjFacts.get_absent in E. congruence.
Qed.

Lemma moved_in_collection : In m (Obj.values F).
Proof.
  unfold m. rewrite <- Hm. apply ObjFacts.get_in.
  destruct (Obj.has n F) eqn:E; [reflexivity|].
  apply ObjFacts.get_absent in E. congruence.
Qed.

Lemma moved_in_old_location : in_loc (VStr p) m = true.
Proof.
  unfold in_loc, m. cbn [prop]. rewrite Hm_loc. cbn [strict_eq].
  now rewrite String.eqb_refl.
Qed.

Lemma collection_objects f : In f (Obj.values F) -> is_object f = true.
Proof.
  intros Hf. apply has_order_object.
  pose proof (wf_order Hwf) as Ho. rewrite Forall_forall in Ho. now apply Ho.
Qed.

Lemma remaining_in f : In f W -> In f (Obj.values F) /\ in_loc (VStr p) f = true /\ other_name n f = true.
Proof.
  unfold W. intros H. apply filter_In in H as [H1 H2].
  apply group_in in H1 as [H1 H3]. auto.
Qed.

Lemma target_in f : In f Q -> In f (Obj.values F) /\ in_loc (VStr q) f = true.
Proof. apply group_in. Qed.

Lemma remaining_objects : Forall (fun f => is_object f = true) W.
Proof. apply Forall_forall. intros f Hf. apply remaining_in in Hf as [Hf _]. now apply collection_objects. Qed.

Lemma target_objects : Forall (fun f => is_object f = true) Q.
Proof. apply Forall_forall. intros f Hf. apply target_in in Hf as [Hf _]. now apply collection_objects. Qed.

Lemma remaining_target_distinct : NoDup (map key_of (W ++ Q)).
Proof.
  unfold W, Q, P, group. rewrite filter_twice.
  apply nodup_two_filters.
  - intros x Hx. apply andb_prop in Hx as [Hx _].
    now apply (@loc_exclusive p q).
  - eapply Permutation_NoDup; [|exact (wf_distinct Hwf)].
    apply Permutation_map. symmetry. apply sort_by_order_perm.
Qed.

Lemma moved_key_fresh : ~ In (key_of m) (map key_of (W ++ Q)).
Proof.
  intros Hin. apply in_map_iff in Hin as [x [E Hx]].
  assert (Hxm : x = m).
  { apply nodup_map_inj with (l := Obj.values F).
    - exact (wf_distinct Hwf).
    - apply in_app_or in Hx as [Hx|Hx]; [now apply remaining_in in Hx | now apply target_in in Hx].
    - apply moved_in_collection.
    - exact E. }
  subst x. apply in_app_or in Hx as [Hx|Hx].
  - apply remaining_in in Hx as [_ [_ Hx]]. unfold other_name, m in Hx. cbn [prop] in Hx.
    rewrite Hm_name in Hx. cbn [strict_eq] in Hx.
    rewrite String.eqb_refl in Hx. discriminate.
  - apply target_in in Hx as [_ Hx].
    pose proof (@loc_exclusive p q m Hpq Hp Hq moved_in_old_location). congruence.
Qed.

Lemma moved_key : key_of m = u.
Proof. unfold key_of, m. now rewrite Hm_id. Qed.

Let staged := renumber 0 W ++ renumber 0 (Q ++ [m]).

Lemma staged_eq :
  staged = (renumber 0 W ++ renumber 0 Q) ++ [set_order k m].
Proof. unfold staged. rewrite renumber_app. simpl. now rewrite <- app_assoc. Qed.

Lemma staged_keys : map key_of staged = map key_of (W ++ Q) ++ [u].
Proof.
  rewrite staged_eq. rewrite !map_app. cbn [map].
  rewrite !(renumber_map key_of _ key_of_set_order).
  now rewrite key_of_set_order, moved_key.
Qed.

Lemma staged_distinct : NoDup (map key_of staged).
Proof.
  rewrite staged_keys.
  eapply Permutation_NoDup; [apply Permutation_cons_append|].
  constructor; [|apply remaining_target_distinct].
  rewrite <- moved_key. apply moved_key_fresh.
Qed.

Lemma staged_ident : Forall (fun f => ident f <> None) staged.
Proof.
  assert (Hsrc : Forall (fun f => ident f <> None) (W ++ Q ++ [m])).
  { apply Forall_forall. intros f Hf.
    pose proof (wf_ident Hwf) as Hi. rewrite Forall_forall in Hi. apply Hi.
    apply in_app_or in Hf as [Hf|Hf]; [now apply remaining_in in Hf|].
    apply in_app_or in Hf as [Hf|[<-|[]]]; [now apply target_in in Hf | apply moved_in_collection]. }
  apply Forall_forall. intros f Hf. apply (in_map ident) in Hf.
  unfold staged in Hf.
  rewrite map_app, !(renumber_map ident _ ident_set_order), <- map_app in Hf.
  apply in_map_iff in Hf as [g [<- Hg]].
  rewrite Forall_forall in Hsrc. now apply Hsrc.
Qed.






Lemma move_run :
  changeFieldSettings (VObj B) (VObj so) (VObj s) =
  Ok (EditBlock (VObj (Obj.set "fields" (VObj (relocated F mo s n u p q)) B))).
Proof.
  unfold changeFieldSettings. cbn [spread bind hasOwnProperty].
  rewrite settings_have_location. cbn [bind get]. rewrite Hs_loc. cbn [bind].
  unfold changeFieldLocation. cbn [bind get]. rewrite HF, Hsel_name.
  cbn [bind to_str get]. rewrite Hm. cbn [bind get]. rewrite Hm_loc.
  cbn [bind].
  rewrite (@getFieldsForLocation_top B F (VStr p) HF (wf_order Hwf)).
  cbn [bind as_array]. fold P.
  rewrite (@filterM_pure _ _ (other_name n)).
  2:{ apply Forall_forall. intros f Hf. apply group_in in Hf as [Hf _].
      apply collection_objects in Hf. destruct f; try discriminate. reflexivity. }
  cbn [bind]. fold W.
  rewrite (@getFieldsForLocation_top B F (VStr q) HF (wf_order Hwf)).
  cbn [bind as_array]. fold Q.
  unfold setCorrectOrderForFields.
  rewrite set_orders_objects by apply remaining_objects. cbn [bind].
  rewrite set_orders_objects.
  2:{ apply Forall_app. split; [apply target_objects | now repeat constructor]. }
  cbn [bind]. fold m. fold staged.
  rewrite getFieldsAsObject_keyed by (apply staged_ident || apply staged_distinct).
  rewrite ObjFacts.get_set_same. rewrite Hsel_top. cbn [bind]. rewrite Hsel_id.
  cbn [bind to_str get].
  assert (Hfresh : Obj.has u (keyed (renumber 0 W ++ renumber 0 Q)) = false).
  { apply ObjFacts.has_false_iff. rewrite keys_keyed, map_app.
    rewrite !(renumber_map key_of _ key_of_set_order), <- map_app.
    rewrite <- moved_key. apply moved_key_fresh. }
  assert (Hst : keyed staged =
                keyed (renumber 0 W ++ renumber 0 Q) ++ [(u, set_order k m)]).
  { rewrite staged_eq, keyed_app. f_equal. unfold keyed. cbn [map].
    now rewrite key_of_set_order, moved_key. }
  rewrite Hst, ObjFacts.get_last by exact Hfresh.
  unfold m at 1. cbn [set_order spread bind put].
  rewrite ObjFacts.set_last by exact Hfresh.
  rewrite Hs_name. cbn [bind]. rewrite set_twice.
  reflexivity.
Qed.





End Move.

(** ** The identifier allocator *)

Lemma str_of_nat_inj a b : str_of_nat a = str_of_nat b -> a = b.
Proof.
  unfold str_of_nat. intros H.
  apply (f_equal NilEmpty.uint_of_string) in H.
  rewrite !NilEmpty.usu in H. injection H as H.
  now apply Unsigned.to_uint_inj.
Qed.

Lemma append_inj_r (s t t' : string) : (s ++ t = s ++ t')%string -> t = t'.
Proof.
  induction s as [|c s IH]; simpl; intros H; [exact H|].
  injection H as H. now apply IH.
Qed.

Lemma suffixed_inj base a b : suffixed base a = suffixed base b -> a = b.
Proof.
  unfold suffixed. intros H. apply append_inj_r in H.
  apply (@append_inj_r "-") in H. now apply str_of_nat_inj.
Qed.

Lemma suffixed_candidates_distinct base i n :
  NoDup (map (suffixed base) (seq i n)).
Proof.
  apply Injective_map_NoDup; [|apply seq_NoDup].
  intros a b. apply suffixed_inj.
Qed.

(** Among [length o + 1] candidates one is free. *)
Lemma free_candidate base (o : obj) :
  exists n,
    find (fun n => negb (Obj.has (suffixed base n) o)) (seq 2 (S (List.length o)))
    = Some n.
Proof.
  destruct (find _ _) as [n|] eqn:E; [now exists n|]. exfalso.
  assert (Hincl : incl (map (suffixed base) (seq 2 (S (List.length o)))) (Obj.keys o)).
  { intros k Hk. apply in_map_iff in Hk as [n [<- Hn]].
    apply ObjFacts.has_true_iff.
    pose proof (find_none _ _ E n Hn) as Hf. simpl in Hf.
    now apply negb_false_iff in Hf. }
  apply NoDup_incl_length in Hincl; [|apply suffixed_candidates_distinct].
  unfold Obj.keys in Hincl. rewrite !length_map, length_seq in Hincl. lia.
Qed.

Lemma getNewFieldNumber_total (F : obj) base :
  exists r, getNewFieldNumber (VObj F) base = Ok r.
Proof.
  unfold getNewFieldNumber.
  destruct (Obj.has _ F); [|now eexists].
  destruct (free_candidate (match base with Some b => b | None => "new-field" end) F)
    as [n ->].
  now eexists.
Qed.

Lemma getNewFieldNumber_free (F : obj) b r :
  getNewFieldNumber (VObj F) (Some b) = Ok r ->
  match r with
  | None => Obj.has b F = false
  | Some n => Obj.has b F = true /\ 2 <= n /\ Obj.has (suffixed b n) F = false
  end.
Proof.
  unfold getNewFieldNumber.
  destruct (Obj.has b F) eqn:Hb.
  - destruct (find _ _) as [n|] eqn:E; [|discriminate].
    intros H; injection H as <-.
    apply find_some in E as [Hin Hfree]. apply in_seq in Hin.
    apply negb_true_iff in Hfree. repeat split; [lia | exact Hfree].
  - intros H; injection H as <-. reflexivity.
Qed.

(** ** Reordering inside a repeater *)

Lemma getFieldsForLocation_nested B F p pfo SF loc :
  Obj.get "fields" B = VObj F ->
  Obj.get p F = VObj pfo ->
  Obj.get "sub_fields" pfo = VObj SF ->
  Forall (fun f => has_order f = true) (Obj.values SF) ->
  getFieldsForLocation (VObj B) loc (Some p) = Ok (VArr (group SF loc)).
Proof.
  intros HF Hp HSF Hord. unfold getFieldsForLocation.
  cbn [truthy negb get bind]. rewrite HF. cbn [truthy negb get bind].
  rewrite Hp. cbn [get bind]. rewrite HSF. cbn [truthy negb getFieldsAsArray].
  assert (Hall : forallb has_order (Obj.values SF) = true).
  { apply forallb_forall. now apply Forall_forall. }
  rewrite Hall. cbn [bind].
  rewrite filterM_in_location; [reflexivity|].
  eapply Permutation_Forall; [symmetry; apply sort_by_order_perm|].
  eapply Forall_impl; [|exact Hord]. intros f. apply has_order_object.
Qed.

Lemma exchanged_renumber E from to :
  from < List.length E -> to < List.length E ->
  exchanged E (renumber 0 (swapped E from to)) from to.
Proof.
  intros Hf Ht. split.
  - now rewrite renumber_length, swapped_length.
  - intros i Hi. rewrite renumber_nth by now rewrite swapped_length.
    now rewrite swapped_nth.
Qed.

Section ReorderNested.

Variables (B F pfo SF : obj) (p : string) (loc : value) (from to : nat).
Hypothesis HF : Obj.get "fields" B = VObj F.
Hypothesis Hp : Obj.get p F = VObj pfo.
Hypothesis HSF : Obj.get "sub_fields" pfo = VObj SF.
Hypothesis Hwf : wf_fields SF.
Hypothesis Hfrom : from < List.length (group SF loc).
Hypothesis Hto : to < List.length (group SF loc).

Let S := swapped (group SF loc) from to.

Lemma nested_in f : In f S -> In f (Obj.values SF) /\ in_loc loc f = true.
Proof.
  intros H. apply group_in.
  apply Permutation_in with (l := S); [|exact H].
  symmetry. apply swapped_perm; assumption.
Qed.

Lemma nested_objects : Forall (fun f => is_object f = true) S.
Proof.
  apply Forall_forall. intros f Hf. apply nested_in in Hf as [Hf _].
  apply has_order_object.
  pose proof (wf_order Hwf) as Ho. rewrite Forall_forall in Ho. now apply Ho.
Qed.

Lemma nested_distinct : NoDup (map key_of (renumber 0 S)).
Proof.
  rewrite (renumber_map key_of S key_of_set_order).
  eapply Permutation_NoDup.
  - apply Permutation_map. now apply swapped_perm.
  - pose proof (@nodup_two_filters (in_loc loc) (fun _ => false)
                  (sort_by_order (Obj.values SF))) as H.
    rewrite (filter_none (fun _ => false)), app_nil_r in H
      by (apply Forall_forall; reflexivity).
    apply H; [reflexivity|].
    eapply Permutation_NoDup; [|exact (wf_distinct Hwf)].
    apply Permutation_map. symmetry. apply sort_by_order_perm.
Qed.

Lemma nested_ident : Forall (fun f => ident f <> None) (renumber 0 S).
Proof.
  apply Forall_forall; intros f Hf. apply (in_map ident) in Hf.
  rewrite (renumber_map ident S ident_set_order) in Hf.
  apply in_map_iff in Hf as [g [<- Hg]]. apply nested_in in Hg as [Hg _].
  pose proof (wf_ident Hwf) as Hi. rewrite Forall_forall in Hi. now apply Hi.
Qed.

Lemma reorder_nested_run :
  reorderFields (VObj B) from to loc (Some p) =
  Ok (EditBlock
        (VObj (Obj.set "fields"
                 (VObj (Obj.set p
                          (VObj (Obj.set "sub_fields"
                                   (VObj (keyed (renumber 0 S))) pfo)) F)) B))).
Proof.
  unfold reorderFields.
  rewrite (@getFieldsForLocation_nested B F p pfo SF loc HF Hp HSF (wf_order Hwf)).
  cbn [bind as_array].
  destruct (Nat.eqb_spec (List.length (group SF loc)) 0) as [E|_]; [lia|].
  rewrite array_set_inside by exact Hfrom. cbn [bind].
  rewrite array_set_inside by (now rewrite replace_nth_length).
  cbn [bind spread]. fold (swapped (group SF loc) from to). fold S.
  rewrite HF. cbn [get bind]. rewrite Hp. cbn [bind].
  unfold setCorrectOrderForFields.
  rewrite set_orders_objects by apply nested_objects.
  cbn [bind put].
  rewrite getFieldsAsObject_keyed by (apply nested_ident || apply nested_distinct).
  reflexivity.
Qed.

Lemma reorder_nested_group :
  getFieldsForLocation
    (VObj (Obj.set "fields"
             (VObj (Obj.set p
                      (VObj (Obj.set "sub_fields"
                               (VObj (keyed (renumber 0 S))) pfo)) F)) B))
    loc (Some p) = Ok (VArr (renumber 0 S)).
Proof.
  erewrite getFieldsForLocation_nested.
  - f_equal. f_equal. eapply group_of_values.
    + apply Forall_forall. intros f Hf.
      apply (in_map (in_loc loc)) in Hf.
      rewrite (renumber_map (in_loc loc) S (in_loc_set_order loc)) in Hf.
      apply in_map_iff in Hf as [g [<- Hg]]. now apply nested_in in Hg.
    + apply Forall_nil.
    + eapply orders_sorted. apply renumber_orders, nested_objects.
    + left. rewrite values_keyed. now rewrite app_nil_r.
  - apply ObjFacts.get_set_same.
  - apply ObjFacts.get_set_same.
  - apply ObjFacts.get_set_same.
  - rewrite values_keyed. eapply orders_has_order.
    apply renumber_orders, nested_objects.
Qed.

End ReorderNested.

(** * The operations of the hook *)

(** ** Reordering *)

(** C5: [reorderFields( fromIndex, toIndex, location, parentId? )] exchanges
    exactly the elements at [fromIndex] and [toIndex] of the location's
    ordered sequence (a pairwise swap, every other element stays at its
    position) and re-normalizes the orders; at the top level the fields of
    the complementary location are listed afterwards exactly as before; on
    [{a: order 0, b: order 1}], [reorder(0, 1, "editor")] gives [a] order 1
    and [b] order 0 with the names unchanged. *)
Theorem reorderFields_exchanges_pair :
  (forall B F loc other E from to,
      Obj.get "fields" B = VObj F ->
      wf_fields F ->
      getOtherLocation loc = Ok other ->
      getFieldsForLocation (VObj B) loc None = Ok (VArr E) ->
      from < List.length E -> to < List.length E ->
      exists newBlock G,
        reorderFields (VObj B) from to loc None = Ok (EditBlock newBlock)
        /\ getFieldsForLocation newBlock loc None = Ok (VArr G)
        /\ exchanged E G from to
        /\ getFieldsForLocation newBlock other None
           = getFieldsForLocation (VObj B) other None)
  /\ (forall B F pfo SF p loc E from to,
         Obj.get "fields" B = VObj F ->
         Obj.get p F = VObj pfo ->
         Obj.get "sub_fields" pfo = VObj SF ->
         wf_fields SF ->
         getFieldsForLocation (VObj B) loc (Some p) = Ok (VArr E) ->
         from < List.length E -> to < List.length E ->
         exists newBlock G,
           reorderFields (VObj B) from to loc (Some p) = Ok (EditBlock newBlock)
           /\ getFieldsForLocation newBlock loc (Some p) = Ok (VArr G)
           /\ exchanged E G from to)
  /\ reorderFields scenario1 0 1 (VStr "editor") None
     = Ok (EditBlock
             (VObj [("fields",
                     VObj [("b", VObj [("name", VStr "b"); ("order", VNum 0)]);
                           ("a", VObj [("name", VStr "a"); ("order", VNum 1)])])])).
Proof.
  split; [|split].
  - intros B F loc other E from to HF Hwf Hother HE Hfrom Hto.
    rewrite (@getFieldsForLocation_top B F loc HF (wf_order Hwf)) in HE.
    injection HE as <-.
    exists (VObj (Obj.set "fields" (VObj (reordered F loc other from to)) B)).
    exists (renumber 0 (swapped (group F loc) from to)).
    pose proof (@reorder_wf F loc other from to Hwf Hother Hfrom Hto) as Hwf'.
    assert (HF' : Obj.get "fields"
                    (Obj.set "fields" (VObj (reordered F loc other from to)) B)
                  = VObj (reordered F loc other from to))
      by apply ObjFacts.get_set_same.
    repeat split.
    + now apply reorder_run.
    + rewrite (@getFieldsForLocation_top _ _ loc HF' (wf_order Hwf')).
      now rewrite reorder_group.
    + now rewrite renumber_length, swapped_length.
    + intros i Hi. now apply exchanged_renumber.
    + rewrite (@getFieldsForLocation_top _ _ other HF' (wf_order Hwf')).
      rewrite (@getFieldsForLocation_top B F other HF (wf_order Hwf)).
      now rewrite reorder_other.
  - intros B F pfo SF p loc E from to HF Hp HSF Hwf HE Hfrom Hto.
    rewrite (@getFieldsForLocation_nested B F p pfo SF loc HF Hp HSF (wf_order Hwf)) in HE.
    injection HE as <-.
    eexists. eexists. split; [|split].
    + now apply (@reorder_nested_run B F pfo SF p loc from to).
    + now apply reorder_nested_group.
    + now apply exchanged_renumber.
  - reflexivity.
Qed.

Lemma reorderFields_exchanges_pair_witness :
  exists newBlock G,
    reorderFields scenario1 0 1 (VStr "editor") None = Ok (EditBlock newBlock)
    /\ getFieldsForLocation newBlock (VStr "editor") None = Ok (VArr G)
    /\ exchanged [VObj [("name", VStr "a"); ("order", VNum 0)];
                  VObj [("name", VStr "b"); ("order", VNum 1)]] G 0 1
    /\ getFieldsForLocation newBlock (VStr "inspector") None
       = getFieldsForLocation scenario1 (VStr "inspector") None.
Proof.
  apply (proj1 reorderFields_exchanges_pair
           [("fields",
             VObj [("a", VObj [("name", VStr "a"); ("order", VNum 0)]);
                   ("b", VObj [("name", VStr "b"); ("order", VNum 1)])])]
           [("a", VObj [("name", VStr "a"); ("order", VNum 0)]);
            ("b", VObj [("name", VStr "b"); ("order", VNum 1)])]
           (VStr "editor") (VStr "inspector")).
  - reflexivity.
  - constructor.
    + repeat constructor.
    + repeat constructor; discriminate.
    + repeat constructor; simpl; intuition discriminate.
  - reflexivity.
  - reflexivity.
  - simpl; lia.
  - simpl; lia.
Defined.

(** ** Adding and duplicating *)

Lemma addNewField_top controls B F location num :
  collection_of (Obj.get "fields" B) = Some F ->
  getNewFieldNumber (VObj F) None = Ok num ->
  addNewField controls (VObj B) location None =
  Ok (persisted
        (Obj.set "fields"
           (VObj (Obj.set (new_field_name num)
                    (VObj (Obj.assign (getSettingsDefaults (VStr "text") controls)
                             [ ("name", VStr (new_field_name num));
                               ("location", location);
                               ("label", VStr (new_field_label num));
                               ("control", VStr "text");
                               ("type", VStr "string");
                               ("order", VNum (Z.of_nat (List.length F))) ]))
                    F))
           B),
      new_field_name num).
Proof.
  intros HF Hnum. unfold addNewField. cbn [get bind].
  assert (Hlen : List.length (Obj.values F) = List.length F)
    by (unfold Obj.values; apply length_map).
  destruct (Obj.get "fields" B); try discriminate; injection HF as <-;
    cbn [bind]; rewrite Hnum; cbn [bind object_values put spread];
    rewrite ?Hlen; reflexivity.
Qed.

Lemma addNewField_nested controls B F pfo SF location p num :
  Obj.get "fields" B = VObj F ->
  Obj.get p F = VObj pfo ->
  Obj.get "sub_fields" pfo = VObj SF ->
  getNewFieldNumber (VObj SF) None = Ok num ->
  addNewField controls (VObj B) location (Some p) =
  Ok (persisted
        (Obj.set "fields"
           (VObj (Obj.set p
              (VObj (Obj.set "sub_fields"
                 (VObj (Obj.set (new_field_name num)
                    (VObj (Obj.set "parent" (VStr p)
                       (Obj.assign (getSettingsDefaults (VStr "text") controls)
                             [ ("name", VStr (new_field_name num));
                               ("location", location);
                               ("label", VStr (new_field_label num));
                               ("control", VStr "text");
                               ("type", VStr "string");
                               ("order", VNum (Z.of_nat (List.length SF))) ])))
                    SF))
                 pfo))
              F))
           B),
      new_field_name num).
Proof.
  intros HF Hp HSF Hnum. unfold addNewField.
  assert (Hlen : List.length (Obj.values SF) = List.length SF)
    by (unfold Obj.values; apply length_map).
  repeat (cbn [get bind truthy put spread object_values];
          rewrite ?HF, ?Hp, ?HSF, ?Hnum, ?Hlen).
  reflexivity.
Qed.

Lemma duplicateField_top B F so c n u k :
  Obj.get "fields" B = VObj F ->
  Obj.get "name" so = VStr n ->
  Obj.get "uniqueId" so = VStr u ->
  u <> "" ->
  Obj.has "parent" so = false ->
  Obj.get u F = VObj c ->
  getNewFieldNumber (VObj F) (Some n) = Ok (Some k) ->
  duplicateField (VObj B) (VObj so) =
  Ok (EditBlock
        (VObj (Obj.set "fields"
                 (VObj (Obj.set (suffixed n k)
                          (clone_of c (suffixed n k) (List.length F)) F))
                 B))).
Proof.
  intros HF Hn Hu Hne Htop Hc Hnum.
  assert (Hpar : Obj.get "parent" so = VUndef) by now apply ObjFacts.get_absent.
  assert (Hlen : List.length (Obj.values F) = List.length F)
    by (unfold Obj.values; apply length_map).
  assert (Hu' : String.eqb u "" = false) by now apply String.eqb_neq.
  unfold duplicateField, getField. cbn [get bind truthy negb]. rewrite HF, Hu.
  cbn [truthy negb bind]. rewrite Hu'. cbn [negb get bind]. rewrite Hpar.
  cbn [truthy bind to_str get hasOwnProperty]. rewrite Hc, Htop.
  cbn [bind]. rewrite Hn. cbn [bind base_name]. rewrite Hnum.
  cbn [bind to_str spread object_values put]. rewrite Hlen. reflexivity.
Qed.

Lemma duplicateField_nested B F pfo SF so c n u p k :
  Obj.get "fields" B = VObj F ->
  Obj.get "name" so = VStr n ->
  Obj.get "uniqueId" so = VStr u ->
  u <> "" ->
  Obj.has "parent" so = true ->
  Obj.get "parent" so = VStr p ->
  p <> "" ->
  Obj.get p F = VObj pfo ->
  Obj.get "sub_fields" pfo = VObj SF ->
  Obj.get u SF = VObj c ->
  getNewFieldNumber (VObj SF) (Some n) = Ok (Some k) ->
  duplicateField (VObj B) (VObj so) =
  Ok (EditBlock
        (VObj (Obj.set "fields"
                 (VObj (Obj.set p
                    (VObj (Obj.set "sub_fields"
                       (VObj (Obj.set (suffixed n k)
                                (clone_of c (suffixed n k) (List.length F)) SF))
                       pfo))
                    F))
                 B))).
Proof.
  intros HF Hn Hu Hne Hhas Hpar Hpne Hp HSF Hc Hnum.
  assert (Hlen : List.length (Obj.values F) = List.length F)
    by (unfold Obj.values; apply length_map).
  assert (Hu' : String.eqb u "" = false) by now apply String.eqb_neq.
  assert (Hp' : String.eqb p "" = false) by now apply String.eqb_neq.
  unfold duplicateField, getField.
  repeat (cbn [get bind truthy negb to_str hasOwnProperty base_name spread
               object_values put];
          rewrite ?HF, ?Hu, ?Hu', ?Hpar, ?Hp', ?Hp, ?HSF, ?Hc, ?Hhas, ?Hn,
                  ?Hnum, ?Hlen).
  reflexivity.
Qed.

Lemma getNewFieldNumber_taken (F : obj) n :
  Obj.has n F = true ->
  exists k, getNewFieldNumber (VObj F) (Some n) = Ok (Some k)
            /\ 2 <= k /\ Obj.has (suffixed n k) F = false.
Proof.
  intros Hn. destruct (getNewFieldNumber_total F (Some n)) as [r Hr].
  pose proof (getNewFieldNumber_free _ _ Hr) as Hfree.
  destruct r as [k|]; [|congruence].
  exists k. split; [exact Hr | tauto].
Qed.

(** Without a [location] among the new settings no field is moved: the
    settings are merged into the selected field where it stands. *)
Lemma changeFieldSettings_merge B F so s u c :
  Obj.get "fields" B = VObj F ->
  Obj.has "parent" so = false ->
  Obj.get "uniqueId" so = VStr u ->
  Obj.get u F = VObj c ->
  Obj.has "location" s = false ->
  Obj.has "name" s = false ->
  changeFieldSettings (VObj B) (VObj so) (VObj s) =
  Ok (EditBlock
        (VObj (Obj.set "fields" (VObj (Obj.set u (VObj (Obj.assign c s)) F)) B))).
Proof.
  intros HF Htop Hu Hc Hloc Hname. unfold changeFieldSettings.
  repeat (cbn [get bind spread hasOwnProperty to_str put];
          rewrite ?Hloc, ?HF, ?Htop, ?Hu, ?Hc, ?Hname).
  reflexivity.
Qed.



Ltac wf_concrete :=
  constructor;
  [ repeat constructor
  | repeat constructor; discriminate
  | repeat constructor; simpl; intuition discriminate ].




(** ** Changing the control *)

Lemma changeControl_top C B F so d prev cn n :
  Obj.get cn C = VObj d ->
  Obj.get "name" so = VStr n ->
  n <> "" ->
  Obj.has "parent" so = false ->
  Obj.get "fields" B = VObj F ->
  Obj.get n F = VObj prev ->
  changeControl (VObj C) (VObj B) (VObj so) cn =
  Ok (EditBlock
        (VObj (Obj.set "fields"
                 (VObj (Obj.set n (VObj (replacement (VObj C) prev d)) F)) B))).
Proof.
  intros Hd Hn Hne Htop HF Hprev.
  assert (Hn' : String.eqb n "" = false) by now apply String.eqb_neq.
  unfold changeControl.
  repeat (cbn [get bind truthy negb hasOwnProperty to_str spread put];
          rewrite ?Hd, ?Hn, ?Hn', ?Htop, ?HF, ?Hprev).
  reflexivity.
Qed.

Lemma changeControl_nested C B F pfo SF so d prev cn n p :
  Obj.get cn C = VObj d ->
  Obj.get "name" so = VStr n ->
  n <> "" ->
  Obj.has "parent" so = true ->
  Obj.get "parent" so = VStr p ->
  Obj.get "fields" B = VObj F ->
  Obj.get p F = VObj pfo ->
  Obj.get "sub_fields" pfo = VObj SF ->
  Obj.get n SF = VObj prev ->
  changeControl (VObj C) (VObj B) (VObj so) cn =
  Ok (EditBlock
        (VObj (Obj.set "fields"
           (VObj (Obj.set p
              (VObj (Obj.set "sub_fields"
                 (VObj (Obj.set n
                          (VObj (Obj.set "parent" (VStr p)
                                   (replacement (VObj C) prev d))) SF))
                 pfo))
              F))
           B))).
Proof.
  intros Hd Hn Hne Hhas Hpar HF Hp HSF Hprev.
  assert (Hn' : String.eqb n "" = false) by now apply String.eqb_neq.
  unfold changeControl.
  repeat (cbn [get bind truthy negb hasOwnProperty to_str spread put];
          rewrite ?Hd, ?Hn, ?Hn', ?Hhas, ?Hpar, ?HF, ?Hp, ?HSF, ?Hprev).
  reflexivity.
Qed.

Lemma carried_over_keys prev d : Obj.keys (carried_over prev d) = carried_keys.
Proof. reflexivity. Qed.

Lemma carried_over_has prev d k :
  Obj.has k (carried_over prev d) = true <-> In k carried_keys.
Proof. rewrite ObjFacts.has_true_iff. now rewrite carried_over_keys. Qed.

Lemma carried_keys_distinct : NoDup carried_keys.
Proof. repeat constructor; simpl; intuition discriminate. Qed.

Lemma replacement_carried controls prev d k :
  In k carried_keys ->
  Obj.get k (replacement controls prev d) = Obj.get k (carried_over prev d).
Proof.
  intros Hk. unfold replacement. apply ObjFacts.get_assign_in.
  - rewrite carried_over_keys. apply carried_keys_distinct.
  - now apply carried_over_has.
Qed.

Lemma replacement_default controls prev d k :
  ~ In k carried_keys ->
  Obj.get k (replacement controls prev d)
  = Obj.get k (getSettingsDefaults (Obj.get "name" d) controls)
  /\ Obj.has k (replacement controls prev d)
     = Obj.has k (getSettingsDefaults (Obj.get "name" d) controls).
Proof.
  intros Hk.
  assert (Hno : Obj.has k (carried_over prev d) = false).
  { apply ObjFacts.has_false_iff. now rewrite carried_over_keys. }
  unfold replacement. split.
  - now apply ObjFacts.get_assign_other.
  - rewrite ObjFacts.has_assign, Hno. apply orb_false_r.
Qed.


(** C10: the field [changeControl] stores has no attribute besides the new
    control's default settings and [name], [label], [location], [order],
    [control], [type] and, for a nested field, [parent]; whatever else the
    previous field held is gone, in particular its [sub_fields] and its
    [uniqueId] unless the new control's defaults declare them. *)
Theorem changeControl_discards_other_attributes :
  (forall C B F so d prev cn n,
      Obj.get cn C = VObj d ->
      Obj.get "name" so = VStr n -> n <> "" ->
      Obj.has "parent" so = false ->
      Obj.get "fields" B = VObj F ->
      Obj.get n F = VObj prev ->
      exists nf,
        changeControl (VObj C) (VObj B) (VObj so) cn
        = Ok (EditBlock (VObj (Obj.set "fields" (VObj (Obj.set n (VObj nf) F)) B)))
        /\ (forall k, Obj.has k nf = true ->
              Obj.has k (getSettingsDefaults (Obj.get "name" d) (VObj C)) = true
              \/ In k carried_keys)
        /\ (Obj.has "sub_fields" (getSettingsDefaults (Obj.get "name" d) (VObj C)) = false ->
            Obj.has "sub_fields" nf = false)
        /\ (Obj.has "uniqueId" (getSettingsDefaults (Obj.get "name" d) (VObj C)) = false ->
            Obj.has "uniqueId" nf = false))
  /\ (forall C B F pfo SF so d prev cn n p,
         Obj.get cn C = VObj d ->
         Obj.get "name" so = VStr n -> n <> "" ->
         Obj.has "parent" so = true ->
         Obj.get "parent" so = VStr p ->
         Obj.get "fields" B = VObj F ->
         Obj.get p F = VObj pfo ->
         Obj.get "sub_fields" pfo = VObj SF ->
         Obj.get n SF = VObj prev ->
         exists nf,
           changeControl (VObj C) (VObj B) (VObj so) cn
           = Ok (EditBlock
                   (VObj (Obj.set "fields"
                      (VObj (Obj.set p
                         (VObj (Obj.set "sub_fields"
                                  (VObj (Obj.set n (VObj nf) SF)) pfo)) F)) B)))
           /\ (forall k, Obj.has k nf = true ->
                 Obj.has k (getSettingsDefaults (Obj.get "name" d) (VObj C)) = true
                 \/ In k carried_keys \/ k = "parent")
           /\ (Obj.has "sub_fields" (getSettingsDefaults (Obj.get "name" d) (VObj C)) = false ->
               Obj.has "sub_fields" nf = false)
           /\ (Obj.has "uniqueId" (getSettingsDefaults (Obj.get "name" d) (VObj C)) = false ->
               Obj.has "uniqueId" nf = false)).
Proof.
  assert (Hkeys : forall controls prev d k,
             Obj.has k (replacement controls prev d) = true ->
             Obj.has k (getSettingsDefaults (Obj.get "name" d) controls) = true
             \/ In k carried_keys).
  { intros controls prev d k Hk. unfold replacement in Hk.
    rewrite ObjFacts.has_assign in Hk. apply orb_prop in Hk as [Hk|Hk].
    - now left.
    - right. now apply carried_over_has in Hk. }
  assert (Hgone : forall controls prev d k,
             ~ In k carried_keys ->
             Obj.has k (getSettingsDefaults (Obj.get "name" d) controls) = false ->
             Obj.has k (replacement controls prev d) = false).
  { intros controls prev d k Hk Hd.
    destruct (replacement_default controls prev d Hk) as [_ ->]. exact Hd. }
  split.
  - intros C B F so d prev cn n Hd Hn Hne Htop HF Hprev.
    exists (replacement (VObj C) prev d).
    split; [now apply changeControl_top|].
    split; [apply Hkeys|].
    split; apply Hgone; simpl; intuition discriminate.
  - intros C B F pfo SF so d prev cn n p Hd Hn Hne Hhas Hpar HF Hp HSF Hprev.
    exists (Obj.set "parent" (VStr p) (replacement (VObj C) prev d)).
    split; [now apply changeControl_nested|].
    split; [|split].
    + intros k Hk. rewrite ObjFacts.has_set in Hk.
      apply orb_prop in Hk as [Hk|Hk].
      * right. right. now apply String.eqb_eq.
      * apply Hkeys in Hk. tauto.
    + intros Hd'. rewrite ObjFacts.has_set.
      rewrite Hgone; [reflexivity | simpl; intuition discriminate | exact Hd'].
    + intros Hd'. rewrite ObjFacts.has_set.
      rewrite Hgone; [reflexivity | simpl; intuition discriminate | exact Hd'].
Qed.

(** ** Adding a field *)

Lemma getNewFieldNumber_fresh (F : obj) base r :
  getNewFieldNumber (VObj F) base = Ok r ->
  let b := match base with Some b => b | None => "new-field" end in
  Obj.has (match r with Some n => suffixed b n | None => b end) F = false.
Proof.
  unfold getNewFieldNumber.
  destruct (Obj.has _ F) eqn:Hb.
  - destruct (find _ _) as [n|] eqn:E; [|discriminate].
    intros H; injection H as <-.
    apply find_some in E as [_ Hfree]. now apply negb_true_iff in Hfree.
  - intros H; injection H as <-. exact Hb.
Qed.

Lemma new_field_name_fresh (F : obj) num :
  getNewFieldNumber (VObj F) None = Ok num ->
  Obj.has (new_field_name num) F = false.
Proof.
  intros H. apply getNewFieldNumber_fresh in H. destruct num; exact H.
Qed.

Lemma getNewFieldNumber_second (F : obj) :
  Obj.has "new-field" F = true ->
  Obj.has "new-field-2" F = false ->
  getNewFieldNumber (VObj F) None = Ok (Some 2).
Proof.
  intros H1 H2. unfold getNewFieldNumber. rewrite H1.
  cbn [seq find].
  change (suffixed "new-field" 2) with "new-field-2". now rewrite H2.
Qed.

Lemma seeded_field controls location name label count k :
  let nf := Obj.assign (getSettingsDefaults (VStr "text") controls)
              [ ("name", VStr name); ("location", location);
                ("label", VStr label); ("control", VStr "text");
                ("type", VStr "string"); ("order", VNum count) ] in
  Obj.get "name" nf = VStr name
  /\ Obj.get "location" nf = location
  /\ Obj.get "label" nf = VStr label
  /\ Obj.get "control" nf = VStr "text"
  /\ Obj.get "type" nf = VStr "string"
  /\ Obj.get "order" nf = VNum count
  /\ (~ In k seeded_keys ->
      Obj.get k nf = Obj.get k (getSettingsDefaults (VStr "text") controls)).
Proof.
  intros nf.
  assert (Hnd : NoDup seeded_keys)
    by (repeat constructor; simpl; intuition discriminate).
  repeat split;
    try (unfold nf; rewrite ObjFacts.get_assign_in; [reflexivity | exact Hnd | reflexivity]).
  intros Hk. unfold nf. apply ObjFacts.get_assign_other.
  now apply ObjFacts.has_false_iff.
Qed.

(** C8: on a block with no fields [addNewField( "editor", null )] stores a
    field named "new-field" with order 0 and location "editor" and returns
    that name; called again, the allocator finds "new-field" taken and
    answers 2, and the new field is named "new-field-2"; in general the new
    field holds the resolver defaults of the control "text" under the keys
    the operation does not set itself, and its order is the number of its
    siblings (the top-level collection, or the parent's [sub_fields]). *)
Theorem addNewField_appends_seeded_field :
  (forall controls B,
      collection_of (Obj.get "fields" B) = Some [] ->
      exists nf,
        addNewField controls (VObj B) (VStr "editor") None
        = Ok (persisted (Obj.set "fields" (VObj [("new-field", VObj nf)]) B),
              "new-field")
        /\ Obj.get "name" nf = VStr "new-field"
        /\ Obj.get "order" nf = VNum 0
        /\ Obj.get "location" nf = VStr "editor")
  /\ (forall controls B F location,
         collection_of (Obj.get "fields" B) = Some F ->
         Obj.has "new-field" F = true ->
         Obj.has "new-field-2" F = false ->
         getNewFieldNumber (VObj F) None = Ok (Some 2)
         /\ exists nf,
              addNewField controls (VObj B) location None
              = Ok (persisted
                      (Obj.set "fields" (VObj (F ++ [("new-field-2", VObj nf)])) B),
                    "new-field-2")
              /\ Obj.get "name" nf = VStr "new-field-2")
  /\ (forall controls B F location num k,
         collection_of (Obj.get "fields" B) = Some F ->
         getNewFieldNumber (VObj F) None = Ok num ->
         exists nf,
           addNewField controls (VObj B) location None
           = Ok (persisted
                   (Obj.set "fields"
                      (VObj (F ++ [(new_field_name num, VObj nf)])) B),
                 new_field_name num)
           /\ Obj.get "name" nf = VStr (new_field_name num)
           /\ Obj.get "location" nf = location
           /\ Obj.get "control" nf = VStr "text"
           /\ Obj.get "type" nf = VStr "string"
           /\ Obj.get "order" nf = VNum (Z.of_nat (List.length F))
           /\ (~ In k seeded_keys ->
               Obj.get k nf = Obj.get k (getSettingsDefaults (VStr "text") controls)))
  /\ (forall controls B F pfo SF location p num k,
         Obj.get "fields" B = VObj F ->
         Obj.get p F = VObj pfo ->
         Obj.get "sub_fields" pfo = VObj SF ->
         getNewFieldNumber (VObj SF) None = Ok num ->
         exists nf,
           addNewField controls (VObj B) location (Some p)
           = Ok (persisted
                   (Obj.set "fields"
                      (VObj (Obj.set p
                         (VObj (Obj.set "sub_fields"
                            (VObj (SF ++ [(new_field_name num, VObj nf)])) pfo))
                         F)) B),
                 new_field_name num)
           /\ Obj.get "name" nf = VStr (new_field_name num)
           /\ Obj.get "location" nf = location
           /\ Obj.get "parent" nf = VStr p
           /\ Obj.get "order" nf = VNum (Z.of_nat (List.length SF))
           /\ (~ In k seeded_keys -> k <> "parent" ->
               Obj.get k nf = Obj.get k (getSettingsDefaults (VStr "text") controls))).
Proof.
  assert (Htop : forall controls B F location num k,
             collection_of (Obj.get "fields" B) = Some F ->
             getNewFieldNumber (VObj F) None = Ok num ->
             exists nf,
               addNewField controls (VObj B) location None
               = Ok (persisted
                       (Obj.set "fields"
                          (VObj (F ++ [(new_field_name num, VObj nf)])) B),
                     new_field_name num)
               /\ Obj.get "name" nf = VStr (new_field_name num)
               /\ Obj.get "location" nf = location
               /\ Obj.get "control" nf = VStr "text"
               /\ Obj.get "type" nf = VStr "string"
               /\ Obj.get "order" nf = VNum (Z.of_nat (List.length F))
               /\ (~ In k seeded_keys ->
                   Obj.get k nf = Obj.get k (getSettingsDefaults (VStr "text") controls))).
  { intros controls B F location num k HF Hnum. eexists. split.
    - rewrite (addNewField_top controls B location HF Hnum).
      rewrite (@ObjFacts.set_fresh (new_field_name num) _ F)
        by now apply new_field_name_fresh.
      reflexivity.
    - pose proof (seeded_field controls location (new_field_name num)
                    (new_field_label num) (Z.of_nat (List.length F)) k) as H.
      cbv zeta in H. tauto. }
  split; [|split; [|split]].
  - intros controls B HF.
    destruct (Htop controls B [] (VStr "editor") None "" HF eq_refl)
      as [nf [Hrun [Hname [Hloc [_ [_ [Hord _]]]]]]].
    exists nf. repeat split; assumption.
  - intros controls B F location HF H1 H2.
    pose proof (getNewFieldNumber_second F H1 H2) as Hnum.
    split; [exact Hnum|].
    destruct (Htop controls B F location (Some 2) "" HF Hnum)
      as [nf [Hrun [Hname _]]].
    exists nf. split; assumption.
  - exact Htop.
  - intros controls B F pfo SF location p num k HF Hp HSF Hnum. eexists. split.
    + rewrite (addNewField_nested controls B location p HF Hp HSF Hnum).
      rewrite (@ObjFacts.set_fresh (new_field_name num) _ SF)
        by now apply new_field_name_fresh.
      reflexivity.
    + pose proof (seeded_field controls location (new_field_name num)
                    (new_field_label num) (Z.of_nat (List.length SF))) as H.
      cbv zeta in H.
      repeat split; try (rewrite ObjFacts.get_set_other by discriminate; apply (H ""));
        [apply ObjFacts.get_set_same|].
      intros Hk Hkp. rewrite ObjFacts.get_set_other by exact Hkp. now apply (H k).
Qed.

(** ** Duplicating a nested field *)

(** C7: duplicating the sub-field [x] of a repeater that already holds [x-2]
    stores a clone named "x-3" that keeps the parent; its order, however, is
    3, the number of top-level fields, where the clone has 2 siblings:
    [duplicateField] counts [Object.values( fields )], not the sibling
    collection that [addNewField] counts. *)
Theorem duplicateField_counts_top_level_fields :
  duplicateField repeater_block (nested_selector "x" "rep")
  = Ok (EditBlock
          (VObj [("name", VStr "ns/block");
                 ("fields",
                  VObj [("rep",
                         VObj [("name", VStr "rep"); ("control", VStr "repeater");
                               ("order", VNum 0);
                               ("sub_fields",
                                VObj [("x", sub_field "x" "rep" 0);
                                      ("x-2", sub_field "x-2" "rep" 1);
                                      ("x-3", sub_field "x-3" "rep" 3)])]);
                        ("a", field "a" "editor" 1);
                        ("b", field "b" "editor" 2)])]))
  /\ (exists siblings,
         getFieldsForLocation repeater_block (VStr "editor") (Some "rep")
         = Ok (VArr siblings)
         /\ List.length siblings = 2)
  /\ (exists nb name,
         addNewField (VObj []) repeater_block (VStr "editor") (Some "rep")
         = Ok (EditBlock (VObj nb), name)
         /\ prop (prop (prop (prop (VObj nb) "fields") "rep") "sub_fields") name
            = VObj [("name", VStr "new-field"); ("location", VStr "editor");
                    ("label", VStr "New Field"); ("control", VStr "text");
                    ("type", VStr "string"); ("order", VNum 2);
                    ("parent", VStr "rep")]).
Proof.
  split; [reflexivity|]. split.
  - eexists. split; reflexivity.
  - eexists. eexists. split; reflexivity.
Qed.

(** ** References to fields that do not exist *)

Lemma has_of_get k (o : obj) x : Obj.get k o = VObj x -> Obj.has k o = true.
Proof.
  intros H. destruct (Obj.has k o) eqn:E; [reflexivity|].
  apply ObjFacts.get_absent in E. congruence.
Qed.









(** ** Renaming *)

Lemma mapM_with_parent nn l :
  Forall (fun f => is_object f = true) l ->
  mapM (fun subField => s <- spread subField ;;
                        Ok (VObj (Obj.set "parent" (VStr nn) s))) l
  = Ok (map (with_parent nn) l).
Proof.
  induction 1 as [|f r Hf Hr IH]; simpl; [reflexivity|].
  destruct f; try discriminate. simpl. rewrite IH. reflexivity.
Qed.

Lemma ident_with_parent nn f : ident (with_parent nn f) = ident f.
Proof.
  destruct f; simpl; try reflexivity.
  rewrite !ObjFacts.get_set_other by discriminate. reflexivity.
Qed.

Lemma key_of_with_parent nn f : key_of (with_parent nn f) = key_of f.
Proof. unfold key_of. now rewrite ident_with_parent. Qed.

Lemma parent_with_parent nn f :
  is_object f = true -> prop (with_parent nn f) "parent" = VStr nn.
Proof.
  destruct f; simpl; try discriminate. intros _. apply ObjFacts.get_set_same.
Qed.

Lemma keys_set_fresh k v (o : obj) :
  Obj.has k o = false -> NoDup (Obj.keys o) -> NoDup (Obj.keys (Obj.set k v o)).
Proof.
  intros Hk Hnd. rewrite ObjFacts.set_fresh by exact Hk.
  unfold Obj.keys. rewrite map_app. simpl.
  eapply Permutation_NoDup; [apply Permutation_cons_append|].
  constructor; [|exact Hnd]. now apply ObjFacts.has_false_iff.
Qed.

Section Rename.

Variables (F fo SF : obj) (prev nn : string) (num : option nat).
Hypothesis HF : NoDup (Obj.keys F).
Hypothesis Hprev : Obj.get prev F = VObj fo.
Hypothesis HSF : Obj.get "sub_fields" fo = VObj SF.
Hypothesis Hobj : Forall (fun f => is_object f = true) (Obj.values SF).
Hypothesis Hident : Forall (fun f => ident f <> None) (Obj.values SF).
Hypothesis Hdistinct : NoDup (map key_of (Obj.values SF)).
Hypothesis Hnum : getNewFieldNumber (VObj F) (Some nn) = Ok num.

Let id := renamed_id nn num.
Let subs := keyed (map (with_parent nn) (Obj.values SF)).
Let renamed : obj :=
  Obj.assign (Obj.set "sub_fields" (VObj subs) fo)
    [ ("name", VStr nn); ("uniqueId", VStr id) ].

Lemma rename_id_fresh : Obj.has id F = false.
Proof.
  pose proof (getNewFieldNumber_fresh _ _ Hnum) as H. cbv zeta in H. exact H.
Qed.

Lemma rename_id_new : id <> prev.
Proof.
  intros E. pose proof rename_id_fresh as H. rewrite E in H.
  rewrite (has_of_get _ _ Hprev) in H. discriminate.
Qed.

Lemma rename_run :
  changeFieldName (VObj F) (VStr prev) (VStr nn) =
  Ok (VObj (Obj.del prev (Obj.set id (VObj renamed) F))).
Proof.
  unfold changeFieldName. cbn [spread bind base_name]. rewrite Hnum.
  assert (Hid : (match num with
                 | Some n => s <- to_str (VStr nn) ;; Ok (VStr (suffixed s n))
                 | None => Ok (VStr nn)
                 end) = Ok (VStr id))
    by (destruct num; reflexivity).
  cbn [bind]. rewrite Hid. cbn [bind to_str]. rewrite Hprev.
  cbn [truthy hasOwnProperty]. rewrite (has_of_get _ _ HSF).
  cbn [bind get]. rewrite HSF. cbn [bind object_values].
  rewrite mapM_with_parent by exact Hobj. cbn [bind put spread to_str].
  rewrite getFieldsAsObject_keyed.
  - reflexivity.
  - apply Forall_forall. intros f Hf. apply in_map_iff in Hf as [g [<- Hg]].
    rewrite ident_with_parent. rewrite Forall_forall in Hident. now apply Hident.
  - rewrite map_map.
    rewrite (map_ext _ key_of (key_of_with_parent nn)). exact Hdistinct.
Qed.

Lemma rename_old_key_removed :
  Obj.has prev (Obj.del prev (Obj.set id (VObj renamed) F)) = false.
Proof.
  apply ObjFacts.has_del_same. apply keys_set_fresh; [apply rename_id_fresh | exact HF].
Qed.

Lemma rename_new_key :
  Obj.get id (Obj.del prev (Obj.set id (VObj renamed) F)) = VObj renamed.
Proof.
  rewrite ObjFacts.get_del_other by apply rename_id_new.
  apply ObjFacts.get_set_same.
Qed.

Lemma rename_other_keys k :
  k <> prev -> k <> id ->
  Obj.get k (Obj.del prev (Obj.set id (VObj renamed) F)) = Obj.get k F.
Proof.
  intros H1 H2. rewrite ObjFacts.get_del_other by exact H1.
  now apply ObjFacts.get_set_other.
Qed.

Lemma renamed_attributes :
  Obj.get "name" renamed = VStr nn
  /\ Obj.get "uniqueId" renamed = VStr id
  /\ Obj.get "sub_fields" renamed = VObj subs.
Proof.
  unfold renamed, Obj.assign. cbn [fold_left fst snd]. repeat split.
  - rewrite ObjFacts.get_set_other by discriminate. apply ObjFacts.get_set_same.
  - apply ObjFacts.get_set_same.
  - rewrite !ObjFacts.get_set_other by discriminate. apply ObjFacts.get_set_same.
Qed.

Lemma renamed_sub_fields :
  Obj.values subs = map (with_parent nn) (Obj.values SF)
  /\ Forall (fun sub => prop sub "parent" = VStr nn) (Obj.values subs).
Proof.
  unfold subs. rewrite values_keyed. split; [reflexivity|].
  apply Forall_forall. intros f Hf. apply in_map_iff in Hf as [g [<- Hg]].
  apply parent_with_parent. rewrite Forall_forall in Hobj. now apply Hobj.
Qed.

End Rename.

(** C4: when a field that owns [sub_fields] is renamed, every sub-field is
    stored again with [parent] set to the new name, so none keeps another
    parent name; the field moves to the key given by the new name, or by the
    new name and the allocated number when the new name is taken, and the old
    key is no longer in the collection; the other entries are untouched. *)
Theorem changeFieldName_rewrites_parent_and_key F fo SF prev nn :
  NoDup (Obj.keys F) ->
  Obj.get prev F = VObj fo ->
  Obj.get "sub_fields" fo = VObj SF ->
  Forall (fun f => is_object f = true) (Obj.values SF) ->
  Forall (fun f => ident f <> None) (Obj.values SF) ->
  NoDup (map key_of (Obj.values SF)) ->
  exists num F' ro SF',
    getNewFieldNumber (VObj F) (Some nn) = Ok num
    /\ (Obj.has nn F = false -> num = None)
    /\ (Obj.has nn F = true -> exists k, num = Some k /\ 2 <= k)
    /\ changeFieldName (VObj F) (VStr prev) (VStr nn) = Ok (VObj F')
    /\ Obj.has (renamed_id nn num) F = false
    /\ Obj.has prev F' = false
    /\ Obj.get (renamed_id nn num) F' = VObj ro
    /\ (forall k, k <> prev -> k <> renamed_id nn num -> Obj.get k F' = Obj.get k F)
    /\ Obj.get "name" ro = VStr nn
    /\ Obj.get "uniqueId" ro = VStr (renamed_id nn num)
    /\ Obj.get "sub_fields" ro = VObj SF'
    /\ Obj.values SF' = map (with_parent nn) (Obj.values SF)
    /\ Forall (fun sub => prop sub "parent" = VStr nn) (Obj.values SF')
    /\ (forall old, old <> nn ->
          Forall (fun sub => prop sub "parent" <> VStr old) (Obj.values SF')).
Proof.
  intros HF Hprev HSF Hobj Hident Hdistinct.
  destruct (getNewFieldNumber_total F (Some nn)) as [num Hnum].
  pose proof (getNewFieldNumber_free _ _ Hnum) as Hfree.
  destruct (@renamed_attributes fo SF nn num) as [Hname [Huid Hsub]].
  destruct (@renamed_sub_fields SF nn Hobj) as [Hvals Hpar].
  set (subs := keyed (map (with_parent nn) (Obj.values SF))) in *.
  set (ro := Obj.assign (Obj.set "sub_fields" (VObj subs) fo)
               [("name", VStr nn); ("uniqueId", VStr (renamed_id nn num))]) in *.
  exists num, (Obj.del prev (Obj.set (renamed_id nn num) (VObj ro) F)), ro, subs.
  split; [exact Hnum|].
  split; [intros Hno; destruct num as [k|]; [|reflexivity];
          destruct Hfree as [Ht _]; congruence|].
  split; [intros Hyes; destruct num as [k|]; [exists k; tauto | congruence]|].
  split; [now apply (@rename_run F fo SF prev nn num)|].
  split; [now apply (@rename_id_fresh F nn num)|].
  split; [now apply (@rename_old_key_removed F fo SF prev nn num)|].
  split; [now apply (@rename_new_key F fo SF prev nn num)|].
  split; [intros k; now apply rename_other_keys|].
  split; [exact Hname|]. split; [exact Huid|]. split; [exact Hsub|].
  split; [exact Hvals|]. split; [exact Hpar|].
  intros old Hold. eapply Forall_impl; [|exact Hpar].
  intros sub Hs E. rewrite Hs in E. congruence.
Qed.

(** ** The read accessors *)



(** ** The theorems at concrete blocks *)



Lemma changeFieldName_rewrites_parent_and_key_witness :
  exists num F' ro SF',
    getNewFieldNumber (VObj [("rep", VObj stored_repeater)]) (Some "group") = Ok num
    /\ (Obj.has "group" [("rep", VObj stored_repeater)] = false -> num = None)
    /\ (Obj.has "group" [("rep", VObj stored_repeater)] = true ->
        exists k, num = Some k /\ 2 <= k)
    /\ changeFieldName (VObj [("rep", VObj stored_repeater)]) (VStr "rep") (VStr "group")
       = Ok (VObj F')
    /\ Obj.has (renamed_id "group" num) [("rep", VObj stored_repeater)] = false
    /\ Obj.has "rep" F' = false
    /\ Obj.get (renamed_id "group" num) F' = VObj ro
    /\ (forall k, k <> "rep" -> k <> renamed_id "group" num ->
          Obj.get k F' = Obj.get k [("rep", VObj stored_repeater)])
    /\ Obj.get "name" ro = VStr "group"
    /\ Obj.get "uniqueId" ro = VStr (renamed_id "group" num)
    /\ Obj.get "sub_fields" ro = VObj SF'
    /\ Obj.values SF' = map (with_parent "group")
                            [sub_field "x" "rep" 0; sub_field "x-2" "rep" 1]
    /\ Forall (fun sub => prop sub "parent" = VStr "group") (Obj.values SF')
    /\ (forall old, old <> "group" ->
          Forall (fun sub => prop sub "parent" <> VStr old) (Obj.values SF')).
Proof.
  apply (@changeFieldName_rewrites_parent_and_key
           [("rep", VObj stored_repeater)] stored_repeater
           [("x", sub_field "x" "rep" 0); ("x-2", sub_field "x-2" "rep" 1)]
           "rep" "group").
  - repeat constructor; simpl; intuition discriminate.
  - reflexivity.
  - reflexivity.
  - repeat constructor.
  - repeat constructor; discriminate.
  - repeat constructor; simpl; intuition discriminate.
Defined.


Lemma changeControl_discards_other_attributes_witness :
  exists nf,
    changeControl registry
      (VObj [("name", VStr "ns/block"); ("fields", VObj [("rep", VObj stored_repeater)])])
      (selector "rep") "text"
    = Ok (EditBlock
            (VObj (Obj.set "fields"
                     (VObj (Obj.set "rep" (VObj nf) [("rep", VObj stored_repeater)]))
                     [("name", VStr "ns/block");
                      ("fields", VObj [("rep", VObj stored_repeater)])])))
    /\ (forall k, Obj.has k nf = true ->
          Obj.has k (getSettingsDefaults (VStr "text") registry) = true
          \/ In k carried_keys)
    /\ (Obj.has "sub_fields" (getSettingsDefaults (VStr "text") registry) = false ->
        Obj.has "sub_fields" nf = false)
    /\ (Obj.has "uniqueId" (getSettingsDefaults (VStr "text") registry) = false ->
        Obj.has "uniqueId" nf = false).
Proof.
  apply (proj1 changeControl_discards_other_attributes _
           [("name", VStr "ns/block");
            ("fields", VObj [("rep", VObj stored_repeater)])]
           [("rep", VObj stored_repeater)]
           [("name", VStr "rep"); ("uniqueId", VStr "rep")]
           [("name", VStr "text"); ("type", VStr "string");
            ("defaultSettings", VObj [("placeholder", VStr "")])]
           stored_repeater "text" "rep");
    try reflexivity; discriminate.
Defined.

Lemma addNewField_appends_seeded_field_witness :
  exists nf,
    addNewField registry (VObj []) (VStr "editor") None
    = Ok (persisted (Obj.set "fields" (VObj [("new-field", VObj nf)]) []),
          "new-field")
    /\ Obj.get "name" nf = VStr "new-field"
    /\ Obj.get "order" nf = VNum 0
    /\ Obj.get "location" nf = VStr "editor".
Proof.
  apply (proj1 addNewField_appends_seeded_field registry []).
  reflexivity.
Defined.


(** * Further properties of the hook *)

(** ** More on association lists *)

Lemma del_split k (o : obj) :
  Obj.has k o = true ->
  exists o1 v o2,
    o = o1 ++ (k, v) :: o2 /\ ~ In k (Obj.keys o1) /\ Obj.del k o = o1 ++ o2.
Proof.
  unfold Obj.has. induction o as [|[k' v'] o IH]; simpl; intros H.
  - discriminate.
  - destruct (String.eqb_spec k k') as [->|Hne].
    + exists [], v', o. repeat split. intros [].
    + simpl in H. destruct (IH H) as (o1 & v & o2 & -> & Hn & Hd).
      exists ((k', v') :: o1), v, o2. rewrite Hd. repeat split.
      simpl. intros [E|I]; [congruence | contradiction].
Qed.

Lemma del_last k v (o : obj) :
  Obj.has k o = false -> Obj.del k (o ++ [(k, v)]) = o.
Proof.
  unfold Obj.has. induction o as [|[k' v'] o IH]; simpl; intros H.
  - now rewrite String.eqb_refl.
  - apply orb_false_iff in H as [H1 H2]. rewrite H1, IH by exact H2. reflexivity.
Qed.

Lemma keys_set_existing k v (o : obj) :
  Obj.has k o = true -> Obj.keys (Obj.set k v o) = Obj.keys o.
Proof.
  unfold Obj.has, Obj.keys. induction o as [|[k' v'] o IH]; simpl; intros H.
  - discriminate.
  - destruct (String.eqb_spec k k') as [->|Hne]; simpl; [reflexivity|].
    simpl in H. now rewrite IH.
Qed.

Lemma length_set_existing k v (o : obj) :
  Obj.has k o = true -> List.length (Obj.set k v o) = List.length o.
Proof.
  intros H. pose proof (keys_set_existing k v o H) as E.
  apply (f_equal (@List.length string)) in E.
  unfold Obj.keys in E. now rewrite !length_map in E.
Qed.

Lemma set_same k (o : obj) v :
  Obj.get k o = v -> Obj.has k o = true -> Obj.set k v o = o.
Proof. intros <- H. now apply ObjFacts.set_same_value. Qed.

(** The values left by [delete o[k]] when every entry is filed under the
    identifier of its field. *)
Lemma values_del (o : obj) k :
  Forall (fun p => key_of (snd p) = fst p) o ->
  NoDup (Obj.keys o) ->
  Obj.values (Obj.del k o)
  = filter (fun f => negb (String.eqb (key_of f) k)) (Obj.values o).
Proof.
  unfold Obj.keys, Obj.values.
  induction o as [|[k' v'] o IH]; simpl; intros Hk Hnd; [reflexivity|].
  inversion Hk as [|? ? Hk1 Hk2]; subst. inversion Hnd as [|? ? Hn Hd]; subst.
  simpl in Hk1. rewrite Hk1.
  destruct (String.eqb_spec k k') as [->|Hne].
  - rewrite String.eqb_refl. simpl.
    symmetry. apply filter_all. apply Forall_forall. intros f Hf.
    apply negb_true_iff, String.eqb_neq. intros E. apply Hn.
    apply in_map_iff in Hf as [[k2 v2] [<- Hin]].
    rewrite Forall_forall in Hk2. specialize (Hk2 _ Hin). simpl in *.
    rewrite <- E, Hk2. now apply (in_map fst) in Hin.
  - destruct (String.eqb_spec k' k); [congruence|]. simpl.
    now rewrite IH.
Qed.

(** ** Deleting *)

Lemma deleteField_top B F so n :
  Obj.get "fields" B = VObj F ->
  Obj.has "parent" so = false ->
  Obj.get "name" so = VStr n ->
  deleteField (VObj B) (VObj so)
  = Ok (EditBlock (VObj (Obj.set "fields" (VObj (Obj.del n F)) B))).
Proof.
  intros HF Htop Hn. unfold deleteField.
  repeat (cbn [get bind spread hasOwnProperty to_str delete];
          rewrite ?HF, ?Htop, ?Hn).
  reflexivity.
Qed.

Lemma deleteField_nested B F pfo SF so n p :
  Obj.get "fields" B = VObj F ->
  Obj.has "parent" so = true ->
  Obj.get "parent" so = VStr p ->
  Obj.get p F = VObj pfo ->
  Obj.get "sub_fields" pfo = VObj SF ->
  Obj.get "name" so = VStr n ->
  deleteField (VObj B) (VObj so)
  = Ok (EditBlock
          (VObj (Obj.set "fields"
                   (VObj (Obj.set p
                            (VObj (Obj.set "sub_fields" (VObj (Obj.del n SF)) pfo))
                            F)) B))).
Proof.
  intros HF Hhas Hpar Hp HSF Hn. unfold deleteField.
  repeat (cbn [get bind spread hasOwnProperty to_str delete truthy put];
          rewrite ?HF, ?Hhas, ?Hpar, ?Hp, ?HSF, ?Hn).
  reflexivity.
Qed.

(** X1: [deleteField] on a top-level selector removes exactly the entry
    stored under the selector's name: the entries before and after it stay
    as they are, in their order, and the name is no longer a key. *)
Theorem deleteField_removes_one_entry B F so n :
  Obj.get "fields" B = VObj F ->
  NoDup (Obj.keys F) ->
  Obj.has "parent" so = false ->
  Obj.get "name" so = VStr n ->
  Obj.has n F = true ->
  exists F1 v F2,
    F = F1 ++ (n, v) :: F2
    /\ deleteField (VObj B) (VObj so)
       = Ok (EditBlock (VObj (Obj.set "fields" (VObj (F1 ++ F2)) B)))
    /\ Obj.has n (F1 ++ F2) = false.
Proof.
  intros HF Hnd Htop Hn Hhas.
  destruct (del_split n F Hhas) as (F1 & v & F2 & HFeq & _ & Hdel).
  exists F1, v, F2. split; [exact HFeq|]. split.
  - rewrite (deleteField_top B so HF Htop Hn). now rewrite Hdel.
  - rewrite <- Hdel. now apply ObjFacts.has_del_same.
Qed.

Lemma deleteField_removes_one_entry_witness :
  exists F1 v F2,
    [("a", field "a" "editor" 0); ("b", field "b" "editor" 1)]
    = F1 ++ ("a", v) :: F2
    /\ deleteField two_editor_fields (selector "a")
       = Ok (EditBlock
               (VObj (Obj.set "fields" (VObj (F1 ++ F2))
                        [("name", VStr "ns/block");
                         ("fields", VObj [("a", field "a" "editor" 0);
                                          ("b", field "b" "editor" 1)])])))
    /\ Obj.has "a" (F1 ++ F2) = false.
Proof.
  apply (@deleteField_removes_one_entry
           [("name", VStr "ns/block");
            ("fields", VObj [("a", field "a" "editor" 0);
                             ("b", field "b" "editor" 1)])]
           [("a", field "a" "editor" 0); ("b", field "b" "editor" 1)]
           [("name", VStr "a"); ("uniqueId", VStr "a")] "a").
  - reflexivity.
  - repeat constructor; simpl; intuition discriminate.
  - reflexivity.
  - reflexivity.
  - reflexivity.
Defined.

(** X2: [deleteField] does not renumber.  In a collection whose entries are
    filed under their identifiers, every location lists afterwards the
    fields it listed before, except the deleted one, each with the order it
    had, so the deletion leaves a gap. *)
Theorem deleteField_keeps_other_orders B F so n loc :
  Obj.get "fields" B = VObj F ->
  wf_fields F ->
  Forall (fun p => key_of (snd p) = fst p) F ->
  NoDup (Obj.keys F) ->
  Obj.has "parent" so = false ->
  Obj.get "name" so = VStr n ->
  exists newBlock before,
    deleteField (VObj B) (VObj so) = Ok (EditBlock newBlock)
    /\ getFieldsForLocation (VObj B) loc None = Ok (VArr before)
    /\ getFieldsForLocation newBlock loc None
       = Ok (VArr (filter (fun f => negb (String.eqb (key_of f) n)) before)).
Proof.
  intros HF Hwf Hk Hnd Htop Hn.
  exists (VObj (Obj.set "fields" (VObj (Obj.del n F)) B)), (group F loc).
  split; [now apply deleteField_top|].
  split; [now apply getFieldsForLocation_top; [|apply (wf_order Hwf)]|].
  assert (Hv := values_del n Hk Hnd).
  erewrite getFieldsForLocation_top; [|apply ObjFacts.get_set_same|].
  - unfold group. rewrite Hv, <- !filter_sort_by_order.
    rewrite !filter_twice. f_equal. f_equal. apply filter_ext.
    intros f. apply andb_comm.
  - rewrite Hv. apply Forall_forall. intros f Hf. apply filter_In in Hf as [Hf _].
    pose proof (wf_order Hwf) as Ho. rewrite Forall_forall in Ho. now apply Ho.
Qed.

Lemma deleteField_keeps_other_orders_witness :
  exists newBlock before,
    deleteField two_editor_fields (selector "a") = Ok (EditBlock newBlock)
    /\ getFieldsForLocation two_editor_fields (VStr "editor") None = Ok (VArr before)
    /\ getFieldsForLocation newBlock (VStr "editor") None
       = Ok (VArr (filter (fun f => negb (String.eqb (key_of f) "a")) before)).
Proof.
  apply (@deleteField_keeps_other_orders
           [("name", VStr "ns/block");
            ("fields", VObj [("a", field "a" "editor" 0);
                             ("b", field "b" "editor" 1)])]
           [("a", field "a" "editor" 0); ("b", field "b" "editor" 1)]
           [("name", VStr "a"); ("uniqueId", VStr "a")] "a" (VStr "editor")).
  - reflexivity.
  - wf_concrete.
  - repeat constructor.
  - repeat constructor; simpl; intuition discriminate.
  - reflexivity.
  - reflexivity.
Defined.

(** X3: for a selector with a parent that has [sub_fields], [deleteField]
    removes the entry from the parent's [sub_fields] only: the top-level
    collection keeps all its keys, so a top-level field of the same name
    stays. *)
Theorem deleteField_nested_removes_sub_field B F pfo SF so n p :
  Obj.get "fields" B = VObj F ->
  Obj.has "parent" so = true ->
  Obj.get "parent" so = VStr p ->
  Obj.get p F = VObj pfo ->
  Obj.get "sub_fields" pfo = VObj SF ->
  NoDup (Obj.keys SF) ->
  Obj.get "name" so = VStr n ->
  Obj.has n SF = true ->
  exists SF1 v SF2 F',
    SF = SF1 ++ (n, v) :: SF2
    /\ deleteField (VObj B) (VObj so)
       = Ok (EditBlock (VObj (Obj.set "fields" (VObj F') B)))
    /\ Obj.keys F' = Obj.keys F
    /\ (forall k, k <> p -> Obj.get k F' = Obj.get k F)
    /\ Obj.get p F' = VObj (Obj.set "sub_fields" (VObj (SF1 ++ SF2)) pfo)
    /\ Obj.has n (SF1 ++ SF2) = false.
Proof.
  intros HF Hhas Hpar Hp HSF Hnd Hn Hin.
  destruct (del_split n SF Hin) as (SF1 & v & SF2 & HSFeq & _ & Hdel).
  exists SF1, v, SF2,
    (Obj.set p (VObj (Obj.set "sub_fields" (VObj (SF1 ++ SF2)) pfo)) F).
  split; [exact HSFeq|]. split.
  - rewrite (deleteField_nested B so HF Hhas Hpar Hp HSF Hn). now rewrite Hdel.
  - split; [apply keys_set_existing; now apply (@has_of_get _ _ pfo)|].
    split; [intros k Hk; now apply ObjFacts.get_set_other|].
    split; [apply ObjFacts.get_set_same|].
    rewrite <- Hdel. now apply ObjFacts.has_del_same.
Qed.

Lemma deleteField_nested_removes_sub_field_witness :
  exists SF1 v SF2 F',
    [("x", sub_field "x" "rep" 0); ("x-2", sub_field "x-2" "rep" 1)]
    = SF1 ++ ("x", v) :: SF2
    /\ deleteField
         (VObj [("name", VStr "ns/block");
                ("fields", VObj [("rep", VObj stored_repeater);
                                 ("x", field "x" "editor" 1)])])
         (nested_selector "x" "rep")
       = Ok (EditBlock
               (VObj (Obj.set "fields" (VObj F')
                        [("name", VStr "ns/block");
                         ("fields", VObj [("rep", VObj stored_repeater);
                                          ("x", field "x" "editor" 1)])])))
    /\ Obj.keys F' = ["rep"; "x"]
    /\ (forall k, k <> "rep" ->
          Obj.get k F' = Obj.get k [("rep", VObj stored_repeater);
                                    ("x", field "x" "editor" 1)])
    /\ Obj.get "rep" F'
       = VObj (Obj.set "sub_fields" (VObj (SF1 ++ SF2)) stored_repeater)
    /\ Obj.has "x" (SF1 ++ SF2) = false.
Proof.
  apply (@deleteField_nested_removes_sub_field
           [("name", VStr "ns/block");
            ("fields", VObj [("rep", VObj stored_repeater);
                             ("x", field "x" "editor" 1)])]
           [("rep", VObj stored_repeater); ("x", field "x" "editor" 1)]
           stored_repeater
           [("x", sub_field "x" "rep" 0); ("x-2", sub_field "x-2" "rep" 1)]
           [("name", VStr "x"); ("uniqueId", VStr "x"); ("parent", VStr "rep")]
           "x" "rep").
  - reflexivity.
  - reflexivity.
  - reflexivity.
  - reflexivity.
  - reflexivity.
  - repeat constructor; simpl; intuition discriminate.
  - reflexivity.
  - reflexivity.
Defined.

(** X4: when the selector carries a parent that is not in the collection, or
    a parent without [sub_fields], [deleteField] takes its other branch and
    deletes the top-level entry stored under the selector's name. *)
Theorem deleteField_falls_back_to_top_level B F so n p :
  Obj.get "fields" B = VObj F ->
  NoDup (Obj.keys F) ->
  Obj.has "parent" so = true ->
  Obj.get "parent" so = VStr p ->
  (truthy (Obj.get p F) = false
   \/ exists pfo, Obj.get p F = VObj pfo
                  /\ truthy (Obj.get "sub_fields" pfo) = false) ->
  Obj.get "name" so = VStr n ->
  deleteField (VObj B) (VObj so)
  = Ok (EditBlock (VObj (Obj.set "fields" (VObj (Obj.del n F)) B)))
  /\ Obj.has n (Obj.del n F) = false.
Proof.
  intros HF Hnd Hhas Hpar Hmiss Hn.
  split; [|now apply ObjFacts.has_del_same].
  unfold deleteField.
  destruct Hmiss as [Hf | (pfo & Hp & Hf)].
  - repeat (cbn [get bind spread hasOwnProperty to_str delete];
            rewrite ?HF, ?Hhas, ?Hpar, ?Hf, ?Hn).
    reflexivity.
  - repeat (cbn [get bind spread hasOwnProperty to_str delete truthy];
            rewrite ?HF, ?Hhas, ?Hpar, ?Hp, ?Hf, ?Hn).
    reflexivity.
Qed.

Lemma deleteField_falls_back_to_top_level_witness :
  deleteField two_editor_fields (nested_selector "a" "zzz")
  = Ok (EditBlock
          (VObj (Obj.set "fields"
                   (VObj (Obj.del "a" [("a", field "a" "editor" 0);
                                       ("b", field "b" "editor" 1)]))
                   [("name", VStr "ns/block");
                    ("fields", VObj [("a", field "a" "editor" 0);
                                     ("b", field "b" "editor" 1)])])))
  /\ Obj.has "a" (Obj.del "a" [("a", field "a" "editor" 0);
                               ("b", field "b" "editor" 1)]) = false.
Proof.
  apply (@deleteField_falls_back_to_top_level
           [("name", VStr "ns/block");
            ("fields", VObj [("a", field "a" "editor" 0);
                             ("b", field "b" "editor" 1)])]
           [("a", field "a" "editor" 0); ("b", field "b" "editor" 1)]
           [("name", VStr "a"); ("uniqueId", VStr "a"); ("parent", VStr "zzz")]
           "a" "zzz").
  - reflexivity.
  - repeat constructor; simpl; intuition discriminate.
  - reflexivity.
  - reflexivity.
  - left. reflexivity.
  - reflexivity.
Defined.

(** ** Adding, looking up and deleting again *)

Lemma new_field_name_nonempty num : String.eqb (new_field_name num) "" = false.
Proof. destruct num; reflexivity. Qed.



(** X6: [getField] with the name returned by [addNewField] as [uniqueId]
    (and the parent, for a nested field) returns the field that was added. *)
Theorem addNewField_then_getField_finds_field :
  (forall controls B F location,
      collection_of (Obj.get "fields" B) = Some F ->
      exists nb name nf,
        addNewField controls (VObj B) location None = Ok (persisted nb, name)
        /\ Obj.get "name" nf = VStr name
        /\ forall so,
             Obj.get "uniqueId" so = VStr name ->
             truthy (Obj.get "parent" so) = false ->
             getField (VObj nb) (VObj so) = Ok (VObj nf))
  /\ (forall controls B F pfo SF location p,
         Obj.get "fields" B = VObj F ->
         Obj.get p F = VObj pfo ->
         Obj.get "sub_fields" pfo = VObj SF ->
         p <> "" ->
         exists nb name nf,
           addNewField controls (VObj B) location (Some p) = Ok (persisted nb, name)
           /\ Obj.get "name" nf = VStr name
           /\ Obj.get "parent" nf = VStr p
           /\ forall so,
                Obj.get "uniqueId" so = VStr name ->
                Obj.get "parent" so = VStr p ->
                getField (VObj nb) (VObj so) = Ok (VObj nf)).
Proof.
  split.
  - intros controls B F location HF.
    destruct (getNewFieldNumber_total F None) as [num Hnum].
    set (nf := Obj.assign (getSettingsDefaults (VStr "text") controls)
                 [ ("name", VStr (new_field_name num));
                   ("location", location);
                   ("label", VStr (new_field_label num));
                   ("control", VStr "text");
                   ("type", VStr "string");
                   ("order", VNum (Z.of_nat (List.length F))) ]).
    exists (Obj.set "fields" (VObj (Obj.set (new_field_name num) (VObj nf) F)) B),
      (new_field_name num), nf.
    split; [apply (addNewField_top controls B location HF Hnum)|].
    split.
    + apply (seeded_field controls location (new_field_name num)
               (new_field_label num) (Z.of_nat (List.length F)) "").
    + intros so Hu Hp. unfold getField.
      repeat (cbn [truthy negb get bind to_str];
              rewrite ?Hu, ?new_field_name_nonempty, ?Hp, ?ObjFacts.get_set_same).
      reflexivity.
  - intros controls B F pfo SF location p HF Hp HSF Hpne.
    destruct (getNewFieldNumber_total SF None) as [num Hnum].
    assert (Hp' : String.eqb p "" = false) by now apply String.eqb_neq.
    set (nf := Obj.assign (getSettingsDefaults (VStr "text") controls)
                 [ ("name", VStr (new_field_name num));
                   ("location", location);
                   ("label", VStr (new_field_label num));
                   ("control", VStr "text");
                   ("type", VStr "string");
                   ("order", VNum (Z.of_nat (List.length SF))) ]).
    exists (Obj.set "fields"
              (VObj (Obj.set p
                 (VObj (Obj.set "sub_fields"
                    (VObj (Obj.set (new_field_name num)
                             (VObj (Obj.set "parent" (VStr p) nf)) SF)) pfo)) F)) B),
      (new_field_name num), (Obj.set "parent" (VStr p) nf).
    split; [apply (addNewField_nested controls B location p HF Hp HSF Hnum)|].
    split; [|split].
    + rewrite ObjFacts.get_set_other by discriminate.
      apply (seeded_field controls location (new_field_name num)
               (new_field_label num) (Z.of_nat (List.length SF)) "").
    + apply ObjFacts.get_set_same.
    + intros so Hu Hpar. unfold getField.
      repeat (cbn [truthy negb get bind to_str];
              rewrite ?Hu, ?new_field_name_nonempty, ?Hpar, ?Hp',
                      ?ObjFacts.get_set_same).
      reflexivity.
Qed.

Lemma addNewField_then_getField_finds_field_witness :
  exists nb name nf,
    addNewField registry (VObj []) (VStr "editor") None = Ok (persisted nb, name)
    /\ Obj.get "name" nf = VStr name
    /\ forall so,
         Obj.get "uniqueId" so = VStr name ->
         truthy (Obj.get "parent" so) = false ->
         getField (VObj nb) (VObj so) = Ok (VObj nf).
Proof.
  apply (proj1 addNewField_then_getField_finds_field registry [] []
           (VStr "editor")).
  reflexivity.
Defined.

(** X7: when the parent exists but has no [sub_fields] yet, [addNewField]
    creates the collection and stores the new field in it as "new-field"
    with order 0 and the parent's name; the parent keeps its other
    attributes and its place. *)
Theorem addNewField_creates_sub_fields controls B F pfo location p :
  Obj.get "fields" B = VObj F ->
  Obj.get p F = VObj pfo ->
  truthy (Obj.get "sub_fields" pfo) = false ->
  exists nf,
    addNewField controls (VObj B) location (Some p)
    = Ok (persisted
            (Obj.set "fields"
               (VObj (Obj.set p
                        (VObj (Obj.set "sub_fields"
                                 (VObj [("new-field", VObj nf)]) pfo)) F)) B),
          "new-field")
    /\ Obj.get "name" nf = VStr "new-field"
    /\ Obj.get "order" nf = VNum 0
    /\ Obj.get "location" nf = location
    /\ Obj.get "parent" nf = VStr p.
Proof.
  intros HF Hp Hsf.
  eexists. split.
  - unfold addNewField.
    repeat (cbn [get bind truthy put spread object_values getNewFieldNumber
                 Obj.has existsb List.length Obj.values map];
            rewrite ?HF, ?Hp, ?Hsf, ?ObjFacts.get_set_same, ?set_twice).
    reflexivity.
  - pose proof (seeded_field controls location "new-field" "New Field" 0 "") as H.
    cbv zeta in H. destruct H as (H1 & H2 & _ & _ & _ & H6 & _).
    repeat split; try (rewrite ObjFacts.get_set_other by discriminate; assumption).
    apply ObjFacts.get_set_same.
Qed.

Lemma addNewField_creates_sub_fields_witness :
  exists nf,
    addNewField registry two_editor_fields (VStr "editor") (Some "a")
    = Ok (persisted
            (Obj.set "fields"
               (VObj (Obj.set "a"
                        (VObj (Obj.set "sub_fields"
                                 (VObj [("new-field", VObj nf)])
                                 [("name", VStr "a"); ("location", VStr "editor");
                                  ("order", VNum 0)]))
                        [("a", field "a" "editor" 0); ("b", field "b" "editor" 1)]))
               [("name", VStr "ns/block");
                ("fields", VObj [("a", field "a" "editor" 0);
                                 ("b", field "b" "editor" 1)])]),
          "new-field")
    /\ Obj.get "name" nf = VStr "new-field"
    /\ Obj.get "order" nf = VNum 0
    /\ Obj.get "location" nf = VStr "editor"
    /\ Obj.get "parent" nf = VStr "a".
Proof.
  apply (@addNewField_creates_sub_fields registry
           [("name", VStr "ns/block");
            ("fields", VObj [("a", field "a" "editor" 0);
                             ("b", field "b" "editor" 1)])]
           [("a", field "a" "editor" 0); ("b", field "b" "editor" 1)]
           [("name", VStr "a"); ("location", VStr "editor"); ("order", VNum 0)]
           (VStr "editor") "a"); reflexivity.
Defined.

(** ** Merging settings *)

(** X8: without [location] and [name] among them, [changeFieldSettings]
    merges the new settings into the selected top-level field shallowly: the
    keys of the new settings take the new values, every other attribute of
    the field stays, the other fields and the order of the keys are
    untouched, [getField] returns the merged field, and empty settings
    persist the block as it was. *)
Theorem changeFieldSettings_merges_shallowly B F so s u c :
  Obj.get "fields" B = VObj F ->
  Obj.has "parent" so = false ->
  Obj.get "uniqueId" so = VStr u ->
  u <> "" ->
  Obj.get u F = VObj c ->
  NoDup (Obj.keys s) ->
  Obj.has "location" s = false ->
  Obj.has "name" s = false ->
  exists F' nf,
    changeFieldSettings (VObj B) (VObj so) (VObj s)
    = Ok (EditBlock (VObj (Obj.set "fields" (VObj F') B)))
    /\ Obj.keys F' = Obj.keys F
    /\ (forall k, k <> u -> Obj.get k F' = Obj.get k F)
    /\ Obj.get u F' = VObj nf
    /\ (forall k, Obj.has k s = true -> Obj.get k nf = Obj.get k s)
    /\ (forall k, Obj.has k s = false -> Obj.get k nf = Obj.get k c)
    /\ getField (VObj (Obj.set "fields" (VObj F') B)) (VObj so) = Ok (VObj nf)
    /\ (s = [] -> Obj.set "fields" (VObj F') B = B).
Proof.
  intros HF Htop Hu Hne Hc Hnd Hloc Hname.
  assert (Hu' : String.eqb u "" = false) by now apply String.eqb_neq.
  exists (Obj.set u (VObj (Obj.assign c s)) F), (Obj.assign c s).
  split; [now apply changeFieldSettings_merge|].
  split; [apply keys_set_existing; now apply (@has_of_get _ _ c)|].
  split; [intros k Hk; now apply ObjFacts.get_set_other|].
  split; [apply ObjFacts.get_set_same|].
  split; [intros k Hk; now apply ObjFacts.get_assign_in|].
  split; [intros k Hk; now apply ObjFacts.get_assign_other|].
  split.
  - unfold getField.
    repeat (cbn [truthy negb get bind to_str];
            rewrite ?Hu, ?Hu', ?ObjFacts.get_set_same,
                    ?(ObjFacts.get_absent _ _ Htop)).
    reflexivity.
  - intros ->. cbn [Obj.assign fold_left].
    rewrite (@set_same u F (VObj c) Hc (has_of_get _ _ Hc)).
    now rewrite (@set_same "fields" B (VObj F) HF (has_of_get _ _ HF)).
Qed.

Lemma changeFieldSettings_merges_shallowly_witness :
  exists F' nf,
    changeFieldSettings two_editor_fields (selector "a")
      (VObj [("label", VStr "A"); ("order", VNum 5)])
    = Ok (EditBlock
            (VObj (Obj.set "fields" (VObj F')
                     [("name", VStr "ns/block");
                      ("fields", VObj [("a", field "a" "editor" 0);
                                       ("b", field "b" "editor" 1)])])))
    /\ Obj.keys F' = ["a"; "b"]
    /\ (forall k, k <> "a" ->
          Obj.get k F' = Obj.get k [("a", field "a" "editor" 0);
                                    ("b", field "b" "editor" 1)])
    /\ Obj.get "a" F' = VObj nf
    /\ (forall k, Obj.has k [("label", VStr "A"); ("order", VNum 5)] = true ->
          Obj.get k nf = Obj.get k [("label", VStr "A"); ("order", VNum 5)])
    /\ (forall k, Obj.has k [("label", VStr "A"); ("order", VNum 5)] = false ->
          Obj.get k nf = Obj.get k [("name", VStr "a"); ("location", VStr "editor");
                                    ("order", VNum 0)])
    /\ getField
         (VObj (Obj.set "fields" (VObj F')
                  [("name", VStr "ns/block");
                   ("fields", VObj [("a", field "a" "editor" 0);
                                    ("b", field "b" "editor" 1)])]))
         (selector "a") = Ok (VObj nf)
    /\ ([("label", VStr "A"); ("order", VNum 5)] = [] ->
        Obj.set "fields" (VObj F')
          [("name", VStr "ns/block");
           ("fields", VObj [("a", field "a" "editor" 0);
                            ("b", field "b" "editor" 1)])]
        = [("name", VStr "ns/block");
           ("fields", VObj [("a", field "a" "editor" 0);
                            ("b", field "b" "editor" 1)])]).
Proof.
  apply (@changeFieldSettings_merges_shallowly
           [("name", VStr "ns/block");
            ("fields", VObj [("a", field "a" "editor" 0);
                             ("b", field "b" "editor" 1)])]
           [("a", field "a" "editor" 0); ("b", field "b" "editor" 1)]
           [("name", VStr "a"); ("uniqueId", VStr "a")]
           [("label", VStr "A"); ("order", VNum 5)] "a"
           [("name", VStr "a"); ("location", VStr "editor"); ("order", VNum 0)]).
  - reflexivity.
  - reflexivity.
  - reflexivity.
  - discriminate.
  - reflexivity.
  - repeat constructor; simpl; intuition discriminate.
  - reflexivity.
  - reflexivity.
Defined.

(** ** Renaming a field without sub-fields *)

Lemma del_app_first k (o o' : obj) :
  Obj.has k o = true -> Obj.del k (o ++ o') = Obj.del k o ++ o'.
Proof.
  unfold Obj.has. induction o as [|[k' v'] o IH]; simpl; intros H.
  - discriminate.
  - destruct (String.eqb_spec k k'); [reflexivity|].
    simpl in H. now rewrite IH.
Qed.

Section RenamePlain.

Variables (F fo : obj) (prev nn : string) (num : option nat).
Hypothesis HF : NoDup (Obj.keys F).
Hypothesis Hprev : Obj.get prev F = VObj fo.
Hypothesis Hplain : Obj.has "sub_fields" fo = false.
Hypothesis Hnum : getNewFieldNumber (VObj F) (Some nn) = Ok num.

Let id := renamed_id nn num.
Let renamed : obj := Obj.assign fo [ ("name", VStr nn); ("uniqueId", VStr id) ].

Lemma plain_id_fresh : Obj.has id F = false.
Proof.
  pose proof (getNewFieldNumber_fresh _ _ Hnum) as H. cbv zeta in H. exact H.
Qed.

Lemma plain_id_new : id <> prev.
Proof.
  intros E. pose proof plain_id_fresh as H. rewrite E in H.
  rewrite (has_of_get _ _ Hprev) in H. discriminate.
Qed.

Lemma rename_plain_run :
  changeFieldName (VObj F) (VStr prev) (VStr nn)
  = Ok (VObj (Obj.del prev F ++ [(id, VObj renamed)])).
Proof.
  unfold changeFieldName. cbn [spread bind base_name]. rewrite Hnum.
  assert (Hid : (match num with
                 | Some n => s <- to_str (VStr nn) ;; Ok (VStr (suffixed s n))
                 | None => Ok (VStr nn)
                 end) = Ok (VStr id))
    by (destruct num; reflexivity).
  cbn [bind]. rewrite Hid. cbn [bind to_str]. rewrite Hprev.
  cbn [truthy hasOwnProperty]. rewrite Hplain. cbn [bind spread to_str].
  rewrite ObjFacts.set_fresh by apply plain_id_fresh.
  rewrite del_app_first by apply (has_of_get _ _ Hprev).
  reflexivity.
Qed.

Lemma renamed_plain_attributes :
  Obj.get "name" renamed = VStr nn
  /\ Obj.get "uniqueId" renamed = VStr id
  /\ forall k, k <> "name" -> k <> "uniqueId" -> Obj.get k renamed = Obj.get k fo.
Proof.
  unfold renamed, Obj.assign. cbn [fold_left fst snd]. repeat split.
  - rewrite ObjFacts.get_set_other by discriminate. apply ObjFacts.get_set_same.
  - apply ObjFacts.get_set_same.
  - intros k H1 H2. now rewrite !ObjFacts.get_set_other by assumption.
Qed.

End RenamePlain.



Lemma has_keys k (o : obj) : Obj.has k o = existsb (String.eqb k) (Obj.keys o).
Proof.
  unfold Obj.has, Obj.keys. induction o as [|[k' v'] o IH]; simpl; [reflexivity|].
  now rewrite IH.
Qed.

Lemma find_pointwise (A : Type) (f g : A -> bool) l :
  (forall x, f x = g x) -> find f l = find g l.
Proof.
  intros H. induction l as [|x r IH]; simpl; [reflexivity|].
  now rewrite H, IH.
Qed.

Lemma getNewFieldNumber_keys (o o' : obj) base :
  Obj.keys o = Obj.keys o' ->
  getNewFieldNumber (VObj o) base = getNewFieldNumber (VObj o') base.
Proof.
  intros E. unfold getNewFieldNumber.
  assert (Hlen : List.length o = List.length o').
  { apply (f_equal (@List.length string)) in E. unfold Obj.keys in E.
    now rewrite !length_map in E. }
  rewrite Hlen, (has_keys _ o), E, <- (has_keys _ o').
  destruct (Obj.has _ o'); [|reflexivity].
  erewrite find_pointwise; [reflexivity|].
  intros n. cbv beta. now rewrite (has_keys _ o), E, <- (has_keys _ o').
Qed.

(** The collection after an entry is taken out and filed last under a fresh
    key. *)
Lemma refiled (F : obj) prev id x :
  NoDup (Obj.keys F) ->
  Obj.has prev F = true ->
  Obj.has id F = false ->
  Obj.has prev (Obj.del prev F ++ [(id, x)]) = false
  /\ Obj.get id (Obj.del prev F ++ [(id, x)]) = x
  /\ (forall k, k <> prev -> k <> id ->
        Obj.get k (Obj.del prev F ++ [(id, x)]) = Obj.get k F)
  /\ List.length (Obj.del prev F ++ [(id, x)]) = List.length F.
Proof.
  intros Hnd Hprev Hid.
  assert (Hne : id <> prev) by (intros ->; congruence).
  assert (E : Obj.del prev F ++ [(id, x)] = Obj.del prev (Obj.set id x F)).
  { rewrite ObjFacts.set_fresh by exact Hid. now rewrite del_app_first. }
  split; [|split; [|split]].
  - rewrite E. apply ObjFacts.has_del_same. now apply keys_set_fresh.
  - rewrite E, ObjFacts.get_del_other by exact Hne. apply ObjFacts.get_set_same.
  - intros k H1 H2. rewrite E, ObjFacts.get_del_other by exact H1.
    now apply ObjFacts.get_set_other.
  - destruct (del_split prev F Hprev) as (F1 & v & F2 & HFeq & _ & Hdel).
    rewrite Hdel, HFeq, !length_app. simpl. lia.
Qed.

(** X10: with a [name] among the new settings, [changeFieldSettings] first
    merges, then renames: the selected top-level field leaves its key and is
    filed under the new name (with a number when the name is taken, which
    includes renaming a field to the name it has); it carries the merged
    settings, the other entries are untouched and the collection keeps its
    size. *)
Theorem changeFieldSettings_renames_after_merge B F so s u c nn :
  Obj.get "fields" B = VObj F ->
  NoDup (Obj.keys F) ->
  Obj.has "parent" so = false ->
  Obj.get "uniqueId" so = VStr u ->
  Obj.get u F = VObj c ->
  Obj.has "sub_fields" c = false ->
  NoDup (Obj.keys s) ->
  Obj.has "location" s = false ->
  Obj.has "sub_fields" s = false ->
  Obj.get "name" s = VStr nn ->
  exists num F' ro,
    getNewFieldNumber (VObj F) (Some nn) = Ok num
    /\ changeFieldSettings (VObj B) (VObj so) (VObj s)
       = Ok (EditBlock (VObj (Obj.set "fields" (VObj F') B)))
    /\ Obj.has (renamed_id nn num) F = false
    /\ Obj.has u F' = false
    /\ Obj.get (renamed_id nn num) F' = VObj ro
    /\ Obj.get "name" ro = VStr nn
    /\ Obj.get "uniqueId" ro = VStr (renamed_id nn num)
    /\ (forall k, k <> "name" -> k <> "uniqueId" -> Obj.has k s = true ->
          Obj.get k ro = Obj.get k s)
    /\ (forall k, k <> "name" -> k <> "uniqueId" -> Obj.has k s = false ->
          Obj.get k ro = Obj.get k c)
    /\ (forall k, k <> u -> k <> renamed_id nn num -> Obj.get k F' = Obj.get k F)
    /\ List.length F' = List.length F.
Proof.
  intros HF Hnd Htop Hu Hc Hplain Hs Hloc Hsub Hname.
  set (merged := Obj.assign c s).
  set (F1 := Obj.set u (VObj merged) F).
  assert (Hhasu : Obj.has u F = true) by apply (has_of_get _ _ Hc).
  assert (Hkeys : Obj.keys F1 = Obj.keys F) by now apply keys_set_existing.
  assert (Hnd1 : NoDup (Obj.keys F1)) by now rewrite Hkeys.
  assert (Hget1 : Obj.get u F1 = VObj merged) by apply ObjFacts.get_set_same.
  assert (Hplain1 : Obj.has "sub_fields" merged = false).
  { unfold merged. now rewrite ObjFacts.has_assign, Hplain, Hsub. }
  assert (Hhasname : Obj.has "name" s = true).
  { destruct (Obj.has "name" s) eqn:E; [reflexivity|].
    apply ObjFacts.get_absent in E. congruence. }
  destruct (getNewFieldNumber_total F (Some nn)) as [num Hnum].
  assert (Hnum1 : getNewFieldNumber (VObj F1) (Some nn) = Ok num).
  { now rewrite (@getNewFieldNumber_keys F1 F (Some nn) Hkeys). }
  assert (Hfresh : Obj.has (renamed_id nn num) F = false).
  { pose proof (getNewFieldNumber_fresh _ _ Hnum) as H. exact H. }
  assert (Hfresh1 : Obj.has (renamed_id nn num) F1 = false).
  { now rewrite has_keys, Hkeys, <- has_keys. }
  assert (Hhasu1 : Obj.has u F1 = true) by now rewrite has_keys, Hkeys, <- has_keys.
  destruct (@renamed_plain_attributes merged nn num) as (H1 & H2 & H3).
  set (ro := Obj.assign merged
               [("name", VStr nn); ("uniqueId", VStr (renamed_id nn num))]) in *.
  destruct (@refiled F1 u (renamed_id nn num) (VObj ro) Hnd1 Hhasu1 Hfresh1)
    as (R1 & R2 & R3 & R4).
  exists num, (Obj.del u F1 ++ [(renamed_id nn num, VObj ro)]), ro.
  split; [exact Hnum|]. split.
  - unfold changeFieldSettings.
    repeat (cbn [get bind spread hasOwnProperty to_str put];
            rewrite ?Hloc, ?HF, ?Htop, ?Hu, ?Hc, ?Hhasname, ?Hname).
    fold merged. fold F1.
    rewrite (@rename_plain_run F1 merged u nn num Hget1 Hplain1 Hnum1).
    reflexivity.
  - split; [exact Hfresh|]. split; [exact R1|]. split; [exact R2|].
    split; [exact H1|]. split; [exact H2|].
    split; [|split; [|split]].
    + intros k K1 K2 Hk. rewrite H3 by assumption.
      now apply ObjFacts.get_assign_in.
    + intros k K1 K2 Hk. rewrite H3 by assumption.
      now apply ObjFacts.get_assign_other.
    + intros k K1 K2. rewrite R3 by assumption.
      now apply ObjFacts.get_set_other.
    + rewrite R4. now apply length_set_existing.
Qed.

Lemma changeFieldSettings_renames_after_merge_witness :
  exists num F' ro,
    getNewFieldNumber
      (VObj [("a", field "a" "editor" 0); ("b", field "b" "editor" 1)])
      (Some "c") = Ok num
    /\ changeFieldSettings two_editor_fields (selector "a")
         (VObj [("name", VStr "c"); ("label", VStr "C")])
       = Ok (EditBlock
               (VObj (Obj.set "fields" (VObj F')
                        [("name", VStr "ns/block");
                         ("fields", VObj [("a", field "a" "editor" 0);
                                          ("b", field "b" "editor" 1)])])))
    /\ Obj.has (renamed_id "c" num)
         [("a", field "a" "editor" 0); ("b", field "b" "editor" 1)] = false
    /\ Obj.has "a" F' = false
    /\ Obj.get (renamed_id "c" num) F' = VObj ro
    /\ Obj.get "name" ro = VStr "c"
    /\ Obj.get "uniqueId" ro = VStr (renamed_id "c" num)
    /\ (forall k, k <> "name" -> k <> "uniqueId" ->
          Obj.has k [("name", VStr "c"); ("label", VStr "C")] = true ->
          Obj.get k ro = Obj.get k [("name", VStr "c"); ("label", VStr "C")])
    /\ (forall k, k <> "name" -> k <> "uniqueId" ->
          Obj.has k [("name", VStr "c"); ("label", VStr "C")] = false ->
          Obj.get k ro = Obj.get k [("name", VStr "a"); ("location", VStr "editor");
                                    ("order", VNum 0)])
    /\ (forall k, k <> "a" -> k <> renamed_id "c" num ->
          Obj.get k F' = Obj.get k [("a", field "a" "editor" 0);
                                    ("b", field "b" "editor" 1)])
    /\ List.length F' = 2.
Proof.
  apply (@changeFieldSettings_renames_after_merge
           [("name", VStr "ns/block");
            ("fields", VObj [("a", field "a" "editor" 0);
                             ("b", field "b" "editor" 1)])]
           [("a", field "a" "editor" 0); ("b", field "b" "editor" 1)]
           [("name", VStr "a"); ("uniqueId", VStr "a")]
           [("name", VStr "c"); ("label", VStr "C")] "a"
           [("name", VStr "a"); ("location", VStr "editor"); ("order", VNum 0)]
           "c").
  - reflexivity.
  - repeat constructor; simpl; intuition discriminate.
  - reflexivity.
  - reflexivity.
  - reflexivity.
  - reflexivity.
  - repeat constructor; simpl; intuition discriminate.
  - reflexivity.
  - reflexivity.
  - reflexivity.
Defined.

(** ** Changing the control twice *)

Lemma replacement_again controls prev d :
  replacement controls (replacement controls prev d) d = replacement controls prev d.
Proof.
  unfold replacement at 1 3. f_equal. unfold carried_over.
  rewrite !replacement_carried by (simpl; tauto). reflexivity.
Qed.

(** X11: [changeControl] changes the selected entry only and is idempotent:
    the other entries and the order of the keys stay, and changing to the
    same control again persists the same block. *)
Theorem changeControl_is_idempotent C B F so d prev cn n :
  Obj.get cn C = VObj d ->
  Obj.get "name" so = VStr n -> n <> "" ->
  Obj.has "parent" so = false ->
  Obj.get "fields" B = VObj F ->
  Obj.get n F = VObj prev ->
  exists nb F',
    changeControl (VObj C) (VObj B) (VObj so) cn = Ok (EditBlock (VObj nb))
    /\ Obj.get "fields" nb = VObj F'
    /\ Obj.keys F' = Obj.keys F
    /\ (forall k, k <> n -> Obj.get k F' = Obj.get k F)
    /\ changeControl (VObj C) (VObj nb) (VObj so) cn = Ok (EditBlock (VObj nb)).
Proof.
  intros Hd Hn Hne Htop HF Hprev.
  set (nf := replacement (VObj C) prev d).
  exists (Obj.set "fields" (VObj (Obj.set n (VObj nf) F)) B), (Obj.set n (VObj nf) F).
  split; [now apply changeControl_top|].
  split; [apply ObjFacts.get_set_same|].
  split; [apply keys_set_existing; now apply (@has_of_get _ _ prev)|].
  split; [intros k Hk; now apply ObjFacts.get_set_other|].
  rewrite (@changeControl_top C _ (Obj.set n (VObj nf) F) so d nf cn n
             Hd Hn Hne Htop (ObjFacts.get_set_same _ _ _) (ObjFacts.get_set_same _ _ _)).
  unfold nf. now rewrite replacement_again, !set_twice.
Qed.

Lemma changeControl_is_idempotent_witness :
  exists nb F',
    changeControl registry
      (VObj [("name", VStr "ns/block"); ("fields", VObj [("rep", VObj stored_repeater)])])
      (selector "rep") "text" = Ok (EditBlock (VObj nb))
    /\ Obj.get "fields" nb = VObj F'
    /\ Obj.keys F' = ["rep"]
    /\ (forall k, k <> "rep" ->
          Obj.get k F' = Obj.get k [("rep", VObj stored_repeater)])
    /\ changeControl registry (VObj nb) (selector "rep") "text"
       = Ok (EditBlock (VObj nb)).
Proof.
  apply (@changeControl_is_idempotent _
           [("name", VStr "ns/block");
            ("fields", VObj [("rep", VObj stored_repeater)])]
           [("rep", VObj stored_repeater)]
           [("name", VStr "rep"); ("uniqueId", VStr "rep")]
           [("name", VStr "text"); ("type", VStr "string");
            ("defaultSettings", VObj [("placeholder", VStr "")])]
           stored_repeater "text" "rep");
    try reflexivity; discriminate.
Defined.

(** ** The two locations *)

Lemma strict_eq_str s v : strict_eq (VStr s) v = true <-> v = VStr s.
Proof.
  destruct v; simpl; split; try discriminate; intros H.
  - apply String.eqb_eq in H. now subst.
  - injection H as ->. apply String.eqb_refl.
Qed.

Lemma in_loc_editor f :
  in_loc (VStr "editor") f = true
  <-> prop f "location" = VStr "editor" \/ truthy (prop f "location") = false.
Proof.
  unfold in_loc.
  change (strict_eq (VStr DEFAULT_LOCATION) (VStr "editor")) with true.
  rewrite andb_true_r, orb_true_iff, strict_eq_str, negb_true_iff. tauto.
Qed.

Lemma in_loc_inspector f :
  in_loc (VStr "inspector") f = true <-> prop f "location" = VStr "inspector".
Proof.
  unfold in_loc.
  change (strict_eq (VStr DEFAULT_LOCATION) (VStr "inspector")) with false.
  rewrite andb_false_r, orb_false_r. apply strict_eq_str.
Qed.

Lemma filter_lengths (p q : value -> bool) l :
  Forall (fun x => p x = negb (q x)) l ->
  List.length (filter p l) + List.length (filter q l) = List.length l.
Proof.
  induction 1 as [|x r Hx Hr IH]; simpl; [reflexivity|].
  rewrite Hx. destruct (q x); simpl; lia.
Qed.

(** X12: at the top level [getFieldsForLocation] lists under "editor" the
    fields whose location is "editor" or falsy (absent), under "inspector"
    those whose location is "inspector", each a field of the collection and
    none under both; when every field has one of these locations the two
    listings together have as many fields as the collection. *)
Theorem getFieldsForLocation_splits_collection B F :
  Obj.get "fields" B = VObj F ->
  Forall (fun f => has_order f = true) (Obj.values F) ->
  exists E I,
    getFieldsForLocation (VObj B) (VStr "editor") None = Ok (VArr E)
    /\ getFieldsForLocation (VObj B) (VStr "inspector") None = Ok (VArr I)
    /\ (forall f, In f E <->
                  In f (Obj.values F)
                  /\ (prop f "location" = VStr "editor"
                      \/ truthy (prop f "location") = false))
    /\ (forall f, In f I <->
                  In f (Obj.values F) /\ prop f "location" = VStr "inspector")
    /\ (forall f, In f E -> ~ In f I)
    /\ (Forall (fun f => prop f "location" = VStr "editor"
                         \/ truthy (prop f "location") = false
                         \/ prop f "location" = VStr "inspector") (Obj.values F) ->
        List.length E + List.length I = List.length F).
Proof.
  intros HF Hord.
  assert (Hmem : forall loc f,
             In f (group F loc) <-> In f (Obj.values F) /\ in_loc loc f = true).
  { intros loc f. unfold group. rewrite filter_In. split; intros [H1 H2]; split;
      try exact H2.
    - eapply Permutation_in; [apply sort_by_order_perm | exact H1].
    - eapply Permutation_in; [symmetry; apply sort_by_order_perm | exact H1]. }
  exists (group F (VStr "editor")), (group F (VStr "inspector")).
  split; [now apply getFieldsForLocation_top|].
  split; [now apply getFieldsForLocation_top|].
  split; [intros f; now rewrite Hmem, in_loc_editor|].
  split; [intros f; now rewrite Hmem, in_loc_inspector|].
  split.
  - intros f HE HI. apply Hmem in HE as [_ HE]. apply Hmem in HI as [_ HI].
    rewrite (@other_exclusive (VStr "editor") (VStr "inspector") f eq_refl HE) in HI.
    discriminate.
  - intros Hall. unfold group.
    rewrite filter_lengths.
    + rewrite (Permutation_length (sort_by_order_perm _)).
      unfold Obj.values. apply length_map.
    + eapply Permutation_Forall; [symmetry; apply sort_by_order_perm|].
      eapply Forall_impl; [|exact Hall]. intros f Hf. cbv beta in Hf.
      destruct (in_loc (VStr "inspector") f) eqn:HI; cbn [negb].
      * destruct (in_loc (VStr "editor") f) eqn:HE; [|reflexivity].
        rewrite (@other_exclusive (VStr "editor") (VStr "inspector") f eq_refl HE) in HI.
        discriminate.
      * apply in_loc_editor. destruct Hf as [Hf|[Hf|Hf]]; [tauto | tauto |].
        apply in_loc_inspector in Hf. congruence.
Qed.

Lemma getFieldsForLocation_splits_collection_witness :
  exists E I,
    getFieldsForLocation two_editor_fields (VStr "editor") None = Ok (VArr E)
    /\ getFieldsForLocation two_editor_fields (VStr "inspector") None = Ok (VArr I)
    /\ (forall f, In f E <->
                  In f [field "a" "editor" 0; field "b" "editor" 1]
                  /\ (prop f "location" = VStr "editor"
                      \/ truthy (prop f "location") = false))
    /\ (forall f, In f I <->
                  In f [field "a" "editor" 0; field "b" "editor" 1]
                  /\ prop f "location" = VStr "inspector")
    /\ (forall f, In f E -> ~ In f I)
    /\ (Forall (fun f => prop f "location" = VStr "editor"
                         \/ truthy (prop f "location") = false
                         \/ prop f "location" = VStr "inspector")
               [field "a" "editor" 0; field "b" "editor" 1] ->
        List.length E + List.length I = 2).
Proof.
  apply (@getFieldsForLocation_splits_collection
           [("name", VStr "ns/block");
            ("fields", VObj [("a", field "a" "editor" 0);
                             ("b", field "b" "editor" 1)])]
           [("a", field "a" "editor" 0); ("b", field "b" "editor" 1)]).
  - reflexivity.
  - repeat constructor.
Defined.

(** ** Reordering: what is kept, what is dropped, and doing it twice *)

Lemma set_order_twice i j f : set_order i (set_order j f) = set_order i f.
Proof. destruct f; simpl; try reflexivity. now rewrite set_twice. Qed.

Lemma renumber_swapped_twice E i j :
  i < List.length E -> j < List.length E ->
  renumber 0 (swapped (renumber 0 (swapped E i j)) i j) = renumber 0 E.
Proof.
  intros Hi Hj.
  assert (L1 : List.length (renumber 0 (swapped E i j)) = List.length E)
    by now rewrite renumber_length, swapped_length.
  apply (nth_ext _ _ VUndef VUndef).
  - now rewrite !renumber_length, swapped_length, L1.
  - intros k Hk. rewrite renumber_length, swapped_length, L1 in Hk.
    rewrite renumber_nth by now rewrite swapped_length, L1.
    rewrite swapped_nth by now rewrite L1.
    assert (Ht : transpose i j k < List.length E) by now apply transpose_bound.
    rewrite renumber_nth by now rewrite swapped_length.
    rewrite swapped_nth by assumption.
    rewrite transpose_involutive, renumber_nth by assumption.
    cbn [Nat.add]. apply set_order_twice.
Qed.

Lemma set_order_fixed i f :
  is_object f = true -> order_of f = Some (Z.of_nat i) -> set_order i f = f.
Proof.
  destruct f as [ | | | | | |o]; simpl; try discriminate. intros _ H.
  destruct (Obj.get "order" o) as [ | | |z| | | ] eqn:E; try discriminate.
  injection H as ->. rewrite <- E. f_equal.
  apply ObjFacts.set_same_value. unfold Obj.has.
  destruct (Obj.get "order" o) eqn:E'; try discriminate.
  apply ObjFacts.has_true_iff.
  destruct (Obj.has "order" o) eqn:Hh; [now apply ObjFacts.has_true_iff|].
  apply ObjFacts.get_absent in Hh. congruence.
Qed.

Lemma renumber_fixed l : forall i,
  Forall (fun f => is_object f = true) l ->
  map order_of l = map (fun n => Some (Z.of_nat n)) (seq i (List.length l)) ->
  renumber i l = l.
Proof.
  induction l as [|f r IH]; intros i Ho H; simpl in *; [reflexivity|].
  inversion Ho; subst. injection H as Hf Hr.
  rewrite set_order_fixed, IH by assumption. reflexivity.
Qed.

(** X13: at the top level [reorderFields] persists a collection that holds
    exactly the fields listed under the reordered location and under the
    other one: their identifiers are the keys of the new collection, and a
    field of the old collection that neither location lists (a third
    location) is no longer in it. *)
Theorem reorderFields_keeps_two_locations B F loc other E O from to :
  Obj.get "fields" B = VObj F ->
  wf_fields F ->
  getOtherLocation loc = Ok other ->
  getFieldsForLocation (VObj B) loc None = Ok (VArr E) ->
  getFieldsForLocation (VObj B) other None = Ok (VArr O) ->
  from < List.length E -> to < List.length E ->
  exists N,
    reorderFields (VObj B) from to loc None
    = Ok (EditBlock (VObj (Obj.set "fields" (VObj N) B)))
    /\ Permutation (Obj.keys N) (map key_of (E ++ O))
    /\ (forall f, In f (Obj.values F) ->
                  in_loc loc f = false -> in_loc other f = false ->
                  Obj.has (key_of f) N = false).
Proof.
  intros HF Hwf Hother HE HO Hfrom Hto.
  rewrite (@getFieldsForLocation_top B F loc HF (wf_order Hwf)) in HE.
  rewrite (@getFieldsForLocation_top B F other HF (wf_order Hwf)) in HO.
  injection HE as <-. injection HO as <-.
  exists (reordered F loc other from to).
  assert (Hkeys : Obj.keys (reordered F loc other from to)
                  = map key_of (swapped (group F loc) from to ++ group F other)).
  { unfold reordered. rewrite keys_keyed, !map_app.
    now rewrite (renumber_map key_of _ key_of_set_order). }
  split; [now apply reorder_run|]. split.
  - rewrite Hkeys. apply Permutation_map, Permutation_app_tail.
    symmetry. now apply swapped_perm.
  - intros f Hf Hl Ho. apply ObjFacts.has_false_iff. rewrite Hkeys.
    intros Hin. apply in_map_iff in Hin as [g [Hk Hg]].
    assert (Hg' : In g (Obj.values F)
                  /\ (in_loc loc g = true \/ in_loc other g = true)).
    { apply in_app_or in Hg as [Hg|Hg].
      - apply (@swapped_in F loc from to Hfrom Hto) in Hg. tauto.
      - apply group_in in Hg. tauto. }
    destruct Hg' as [Hg1 Hg2].
    assert (g = f) by (apply (@nodup_map_inj (Obj.values F)); try assumption;
                       exact (wf_distinct Hwf)).
    subst g. destruct Hg2; congruence.
Qed.

Lemma reorderFields_keeps_two_locations_witness :
  exists N,
    reorderFields (VObj [("fields", VObj three_locations)]) 0 0 (VStr "editor") None
    = Ok (EditBlock (VObj (Obj.set "fields" (VObj N)
                             [("fields", VObj three_locations)])))
    /\ Permutation (Obj.keys N)
                   (map key_of ([field "a" "editor" 0] ++ [field "b" "inspector" 0]))
    /\ (forall f, In f (Obj.values three_locations) ->
                  in_loc (VStr "editor") f = false ->
                  in_loc (VStr "inspector") f = false ->
                  Obj.has (key_of f) N = false).
Proof.
  apply (@reorderFields_keeps_two_locations
           [("fields", VObj three_locations)] three_locations
           (VStr "editor") (VStr "inspector")).
  - reflexivity.
  - wf_concrete.
  - reflexivity.
  - reflexivity.
  - reflexivity.
  - simpl; lia.
  - simpl; lia.
Defined.

(** X14: reordering a location twice with the same two indices restores the
    listing: afterwards the location lists the original fields in the
    original sequence with the orders 0, 1, 2, ... (the original fields
    themselves when they already had these orders), and the other location
    lists what it listed before. *)
Theorem reorderFields_twice_restores B F loc other E from to :
  Obj.get "fields" B = VObj F ->
  wf_fields F ->
  getOtherLocation loc = Ok other ->
  getFieldsForLocation (VObj B) loc None = Ok (VArr E) ->
  from < List.length E -> to < List.length E ->
  exists b1 b2,
    reorderFields (VObj B) from to loc None = Ok (EditBlock b1)
    /\ reorderFields b1 from to loc None = Ok (EditBlock b2)
    /\ getFieldsForLocation b2 loc None = Ok (VArr (renumber 0 E))
    /\ (dense_sequence E -> getFieldsForLocation b2 loc None = Ok (VArr E))
    /\ getFieldsForLocation b2 other None
       = getFieldsForLocation (VObj B) other None.
Proof.
  intros HF Hwf Hother HE Hfrom Hto.
  rewrite (@getFieldsForLocation_top B F loc HF (wf_order Hwf)) in HE.
  injection HE as <-.
  set (N1 := reordered F loc other from to).
  set (B1 := Obj.set "fields" (VObj N1) B).
  set (N2 := reordered N1 loc other from to).
  set (B2 := Obj.set "fields" (VObj N2) B1).
  assert (HF1 : Obj.get "fields" B1 = VObj N1) by apply ObjFacts.get_set_same.
  assert (HF2 : Obj.get "fields" B2 = VObj N2) by apply ObjFacts.get_set_same.
  pose proof (@reorder_wf F loc other from to Hwf Hother Hfrom Hto) as Hwf1.
  fold N1 in Hwf1.
  pose proof (@reorder_group F loc other from to Hwf Hother Hfrom Hto) as G1.
  pose proof (@reorder_other F loc other from to Hother Hfrom Hto) as O1.
  fold N1 in G1, O1.
  assert (Hfrom1 : from < List.length (group N1 loc))
    by now rewrite G1, renumber_length, swapped_length.
  assert (Hto1 : to < List.length (group N1 loc))
    by now rewrite G1, renumber_length, swapped_length.
  pose proof (@reorder_wf N1 loc other from to Hwf1 Hother Hfrom1 Hto1) as Hwf2.
  fold N2 in Hwf2.
  pose proof (@reorder_group N1 loc other from to Hwf1 Hother Hfrom1 Hto1) as G2.
  pose proof (@reorder_other N1 loc other from to Hother Hfrom1 Hto1) as O2.
  fold N2 in G2, O2.
  rewrite G1, renumber_swapped_twice in G2 by assumption.
  assert (Hlist : getFieldsForLocation (VObj B2) loc None
                  = Ok (VArr (renumber 0 (group F loc)))).
  { rewrite (@getFieldsForLocation_top B2 N2 loc HF2 (wf_order Hwf2)).
    now rewrite G2. }
  exists (VObj B1), (VObj B2). split; [|split; [|split; [|split]]].
  - now apply reorder_run.
  - now apply reorder_run.
  - exact Hlist.
  - intros [Hobj Hseq]. rewrite Hlist. now rewrite renumber_fixed.
  - rewrite (@getFieldsForLocation_top B2 N2 other HF2 (wf_order Hwf2)).
    rewrite (@getFieldsForLocation_top B F other HF (wf_order Hwf)).
    now rewrite O2, O1.
Qed.

Lemma reorderFields_twice_restores_witness :
  exists b1 b2,
    reorderFields two_editor_fields 0 1 (VStr "editor") None = Ok (EditBlock b1)
    /\ reorderFields b1 0 1 (VStr "editor") None = Ok (EditBlock b2)
    /\ getFieldsForLocation b2 (VStr "editor") None
       = Ok (VArr (renumber 0 [field "a" "editor" 0; field "b" "editor" 1]))
    /\ (dense_sequence [field "a" "editor" 0; field "b" "editor" 1] ->
        getFieldsForLocation b2 (VStr "editor") None
        = Ok (VArr [field "a" "editor" 0; field "b" "editor" 1]))
    /\ getFieldsForLocation b2 (VStr "inspector") None
       = getFieldsForLocation two_editor_fields (VStr "inspector") None.
Proof.
  apply (@reorderFields_twice_restores
           [("name", VStr "ns/block");
            ("fields", VObj [("a", field "a" "editor" 0);
                             ("b", field "b" "editor" 1)])]
           [("a", field "a" "editor" 0); ("b", field "b" "editor" 1)]
           (VStr "editor") (VStr "inspector")).
  - reflexivity.
  - wf_concrete.
  - reflexivity.
  - reflexivity.
  - simpl; lia.
  - simpl; lia.
Defined.

(** X15: [reorderFields] does nothing (no edit is persisted) when the
    location lists no field, and throws a TypeError when there is nothing to
    list from: a block without a field collection, or a parent field without
    sub-fields. *)
Theorem reorderFields_without_fields :
  (forall B F loc from to,
      Obj.get "fields" B = VObj F ->
      Forall (fun f => has_order f = true) (Obj.values F) ->
      Forall (fun f => in_loc loc f = false) (Obj.values F) ->
      reorderFields (VObj B) from to loc None = Ok NoEffect)
  /\ (forall B loc from to parent,
         truthy (Obj.get "fields" B) = false ->
         reorderFields (VObj B) from to loc parent = TypeError)
  /\ (forall B F pfo p loc from to,
         Obj.get "fields" B = VObj F ->
         Obj.get p F = VObj pfo ->
         truthy (Obj.get "sub_fields" pfo) = false ->
         reorderFields (VObj B) from to loc (Some p) = TypeError).
Proof.
  split; [|split].
  - intros B F loc from to HF Hord Hnone. unfold reorderFields.
    rewrite (@getFieldsForLocation_top B F loc HF Hord).
    unfold group. rewrite filter_none; [reflexivity|].
    eapply Permutation_Forall; [symmetry; apply sort_by_order_perm | exact Hnone].
  - intros B loc from to parent Hno. unfold reorderFields, getFieldsForLocation.
    cbn [truthy negb get bind]. rewrite Hno. reflexivity.
  - intros B F pfo p loc from to HF Hp Hno.
    unfold reorderFields, getFieldsForLocation.
    cbn [truthy negb get bind]. rewrite HF. cbn [truthy negb get bind].
    rewrite Hp. cbn [get bind]. rewrite Hno. reflexivity.
Qed.

Lemma reorderFields_without_fields_witness :
  reorderFields two_editor_fields 0 1 (VStr "inspector") None = Ok NoEffect
  /\ reorderFields (VObj [("name", VStr "ns/block")]) 0 1 (VStr "editor") None
     = TypeError
  /\ reorderFields two_editor_fields 0 1 (VStr "editor") (Some "a") = TypeError.
Proof.
  split; [|split].
  - apply (proj1 reorderFields_without_fields
             [("name", VStr "ns/block");
              ("fields", VObj [("a", field "a" "editor" 0);
                               ("b", field "b" "editor" 1)])]
             [("a", field "a" "editor" 0); ("b", field "b" "editor" 1)]).
    + reflexivity.
    + repeat constructor.
    + repeat constructor.
  - apply (proj1 (proj2 reorderFields_without_fields)). reflexivity.
  - apply (proj2 (proj2 reorderFields_without_fields)
             [("name", VStr "ns/block");
              ("fields", VObj [("a", field "a" "editor" 0);
                               ("b", field "b" "editor" 1)])]
             [("a", field "a" "editor" 0); ("b", field "b" "editor" 1)]
             [("name", VStr "a"); ("location", VStr "editor"); ("order", VNum 0)]);
      reflexivity.
Defined.

(** X16: inside a parent field [reorderFields] replaces the parent's
    sub-fields by the reordered listing alone: the other top-level entries
    and the parent's other attributes stay, the new sub-field collection
    holds exactly the listed sub-fields, and a sub-field the location does
    not list is no longer stored. *)
Theorem reorderFields_nested_keeps_listed_only B F pfo SF p loc E from to :
  Obj.get "fields" B = VObj F ->
  Obj.get p F = VObj pfo ->
  Obj.get "sub_fields" pfo = VObj SF ->
  wf_fields SF ->
  getFieldsForLocation (VObj B) loc (Some p) = Ok (VArr E) ->
  from < List.length E -> to < List.length E ->
  exists SF' F',
    reorderFields (VObj B) from to loc (Some p)
    = Ok (EditBlock (VObj (Obj.set "fields" (VObj F') B)))
    /\ Obj.keys F' = Obj.keys F
    /\ (forall k, k <> p -> Obj.get k F' = Obj.get k F)
    /\ Obj.get p F' = VObj (Obj.set "sub_fields" (VObj SF') pfo)
    /\ Permutation (Obj.keys SF') (map key_of E)
    /\ (forall f, In f (Obj.values SF) -> in_loc loc f = false ->
                  Obj.has (key_of f) SF' = false).
Proof.
  intros HF Hp HSF Hwf HE Hfrom Hto.
  rewrite (@getFieldsForLocation_nested B F p pfo SF loc HF Hp HSF (wf_order Hwf)) in HE.
  injection HE as <-.
  set (S := swapped (group SF loc) from to).
  exists (keyed (renumber 0 S)).
  exists (Obj.set p (VObj (Obj.set "sub_fields" (VObj (keyed (renumber 0 S))) pfo)) F).
  assert (Hkeys : Obj.keys (keyed (renumber 0 S)) = map key_of S).
  { rewrite keys_keyed. now rewrite (renumber_map key_of _ key_of_set_order). }
  split; [|split; [|split; [|split; [|split]]]].
  - now apply (@reorder_nested_run B F pfo SF p loc from to).
  - apply keys_set_existing. now apply has_of_get with (x := pfo).
  - intros k Hk. now apply ObjFacts.get_set_other.
  - apply ObjFacts.get_set_same.
  - rewrite Hkeys. apply Permutation_map. symmetry. now apply swapped_perm.
  - intros f Hf Hl. apply ObjFacts.has_false_iff. rewrite Hkeys.
    intros Hin. apply in_map_iff in Hin as [g [Hk Hg]].
    apply (@nested_in SF loc from to Hfrom Hto) in Hg as [Hg1 Hg2].
    assert (g = f) by (apply (@nodup_map_inj (Obj.values SF)); try assumption;
                       exact (wf_distinct Hwf)).
    subst g. congruence.
Qed.

Lemma reorderFields_nested_keeps_listed_only_witness :
  exists SF' F',
    reorderFields (VObj [("fields",
                          VObj [("rep", VObj [("name", VStr "rep");
                                              ("sub_fields", VObj three_locations)])])])
                  0 0 (VStr "editor") (Some "rep")
    = Ok (EditBlock
            (VObj (Obj.set "fields" (VObj F')
                     [("fields",
                       VObj [("rep", VObj [("name", VStr "rep");
                                           ("sub_fields", VObj three_locations)])])])))
    /\ Obj.keys F' = ["rep"]
    /\ (forall k, k <> "rep" ->
                  Obj.get k F'
                  = Obj.get k [("rep", VObj [("name", VStr "rep");
                                             ("sub_fields", VObj three_locations)])])
    /\ Obj.get "rep" F'
       = VObj (Obj.set "sub_fields" (VObj SF')
                 [("name", VStr "rep"); ("sub_fields", VObj three_locations)])
    /\ Permutation (Obj.keys SF') (map key_of [field "a" "editor" 0])
    /\ (forall f, In f (Obj.values three_locations) ->
                  in_loc (VStr "editor") f = false ->
                  Obj.has (key_of f) SF' = false).
Proof.
  apply (@reorderFields_nested_keeps_listed_only
           [("fields",
             VObj [("rep", VObj [("name", VStr "rep");
                                 ("sub_fields", VObj three_locations)])])]
           [("rep", VObj [("name", VStr "rep");
                          ("sub_fields", VObj three_locations)])]
           [("name", VStr "rep"); ("sub_fields", VObj three_locations)]
           three_locations "rep" (VStr "editor")).
  - reflexivity.
  - reflexivity.
  - reflexivity.
  - wf_concrete.
  - reflexivity.
  - simpl; lia.
  - simpl; lia.
Defined.

(** ** Duplicating *)

(** X17: [duplicateField] on a top-level field appends one entry and leaves
    the existing ones as they are: the clone is filed last under
    [name-k] for a [k >= 2] whose key was free, its order is the number
    of fields before, and every other attribute (the [uniqueId] too) is the
    original's. *)
Theorem duplicateField_copies_attributes B F so c n u :
  Obj.get "fields" B = VObj F ->
  Obj.get "name" so = VStr n ->
  Obj.get "uniqueId" so = VStr u ->
  u <> "" ->
  Obj.has "parent" so = false ->
  Obj.get u F = VObj c ->
  Obj.has n F = true ->
  exists k clone,
    duplicateField (VObj B) (VObj so)
    = Ok (EditBlock
            (VObj (Obj.set "fields"
                     (VObj (F ++ [(suffixed n k, VObj clone)])) B)))
    /\ 2 <= k
    /\ Obj.has (suffixed n k) F = false
    /\ Obj.get "name" clone = VStr (suffixed n k)
    /\ Obj.get "order" clone = VNum (Z.of_nat (List.length F))
    /\ (forall a, a <> "name" -> a <> "order" -> Obj.get a clone = Obj.get a c).
Proof.
  intros HF Hn Hu Hne Htop Hc Htaken.
  destruct (getNewFieldNumber_taken F n Htaken) as [k [Hnum [Hk Hfree]]].
  exists k.
  exists (Obj.assign c [("name", VStr (suffixed n k));
                        ("order", VNum (Z.of_nat (List.length F)))]).
  split; [|split; [exact Hk|split; [exact Hfree|split; [|split]]]].
  - rewrite (@duplicateField_top B F so c n u k HF Hn Hu Hne Htop Hc Hnum).
    unfold clone_of. now rewrite (@ObjFacts.set_fresh (suffixed n k) _ F).
  - rewrite ObjFacts.get_assign_in; [reflexivity| |reflexivity].
    repeat constructor; simpl; intuition discriminate.
  - rewrite ObjFacts.get_assign_in; [reflexivity| |reflexivity].
    repeat constructor; simpl; intuition discriminate.
  - intros a Ha1 Ha2. apply ObjFacts.get_assign_other.
    unfold Obj.has. cbn [existsb fst].
    apply String.eqb_neq in Ha1, Ha2. now rewrite Ha1, Ha2.
Qed.

Lemma duplicateField_copies_attributes_witness :
  exists k clone,
    duplicateField two_editor_fields (selector "a")
    = Ok (EditBlock
            (VObj (Obj.set "fields"
                     (VObj ([("a", field "a" "editor" 0); ("b", field "b" "editor" 1)]
                            ++ [(suffixed "a" k, VObj clone)]))
                     [("name", VStr "ns/block");
                      ("fields", VObj [("a", field "a" "editor" 0);
                                       ("b", field "b" "editor" 1)])])))
    /\ 2 <= k
    /\ Obj.has (suffixed "a" k)
               [("a", field "a" "editor" 0); ("b", field "b" "editor" 1)] = false
    /\ Obj.get "name" clone = VStr (suffixed "a" k)
    /\ Obj.get "order" clone = VNum 2
    /\ (forall a, a <> "name" -> a <> "order" ->
                  Obj.get a clone
                  = Obj.get a [("name", VStr "a"); ("location", VStr "editor");
                               ("order", VNum 0)]).
Proof.
  apply (@duplicateField_copies_attributes
           [("name", VStr "ns/block");
            ("fields", VObj [("a", field "a" "editor" 0);
                             ("b", field "b" "editor" 1)])]
           [("a", field "a" "editor" 0); ("b", field "b" "editor" 1)]
           [("name", VStr "a"); ("uniqueId", VStr "a")]
           [("name", VStr "a"); ("location", VStr "editor"); ("order", VNum 0)]
           "a" "a").
  - reflexivity.
  - reflexivity.
  - reflexivity.
  - discriminate.
  - reflexivity.
  - reflexivity.
  - reflexivity.
Defined.

(** X18: deleting the clone that [duplicateField] stored gives back the
    block as it was before duplicating, at the top level and inside a parent
    field. *)
Theorem duplicateField_then_deleteField_restores :
  (forall B F so c n u,
      Obj.get "fields" B = VObj F ->
      Obj.get "name" so = VStr n ->
      Obj.get "uniqueId" so = VStr u ->
      u <> "" ->
      Obj.has "parent" so = false ->
      Obj.get u F = VObj c ->
      Obj.has n F = true ->
      exists nb cloneName,
        duplicateField (VObj B) (VObj so) = Ok (EditBlock (VObj nb))
        /\ Obj.has cloneName F = false
        /\ deleteField (VObj nb) (VObj (Obj.set "name" (VStr cloneName) so))
           = Ok (EditBlock (VObj B)))
  /\ (forall B F pfo SF so c n u p,
         Obj.get "fields" B = VObj F ->
         Obj.get "name" so = VStr n ->
         Obj.get "uniqueId" so = VStr u ->
         u <> "" ->
         Obj.has "parent" so = true ->
         Obj.get "parent" so = VStr p ->
         p <> "" ->
         Obj.get p F = VObj pfo ->
         Obj.get "sub_fields" pfo = VObj SF ->
         Obj.get u SF = VObj c ->
         Obj.has n SF = true ->
         exists nb cloneName,
           duplicateField (VObj B) (VObj so) = Ok (EditBlock (VObj nb))
           /\ Obj.has cloneName SF = false
           /\ deleteField (VObj nb) (VObj (Obj.set "name" (VStr cloneName) so))
              = Ok (EditBlock (VObj B))).
Proof.
  split.
  - intros B F so c n u HF Hn Hu Hne Htop Hc Htaken.
    destruct (getNewFieldNumber_taken F n Htaken) as [k [Hnum [Hk Hfree]]].
    eexists. exists (suffixed n k).
    split; [apply (@duplicateField_top B F so c n u k HF Hn Hu Hne Htop Hc Hnum)|].
    split; [exact Hfree|].
    erewrite deleteField_top;
      [|apply ObjFacts.get_set_same
       |rewrite ObjFacts.has_set, Htop; reflexivity
       |apply ObjFacts.get_set_same].
    rewrite (@ObjFacts.set_fresh (suffixed n k) _ F) by exact Hfree.
    rewrite del_last by exact Hfree.
    rewrite set_twice.
    rewrite (@set_same "fields" B (VObj F) HF (has_of_get _ _ HF)). reflexivity.
  - intros B F pfo SF so c n u p HF Hn Hu Hne Hhas Hpar Hpne Hp HSF Hc Htaken.
    destruct (getNewFieldNumber_taken SF n Htaken) as [k [Hnum [Hk Hfree]]].
    eexists. exists (suffixed n k).
    split; [apply (@duplicateField_nested B F pfo SF so c n u p k HF Hn Hu Hne Hhas Hpar
                    Hpne Hp HSF Hc Hnum)|].
    split; [exact Hfree|].
    erewrite deleteField_nested;
      [|apply ObjFacts.get_set_same
       |rewrite ObjFacts.has_set, Hhas; apply orb_true_r
       |rewrite ObjFacts.get_set_other by discriminate; exact Hpar
       |apply ObjFacts.get_set_same|apply ObjFacts.get_set_same
       |apply ObjFacts.get_set_same].
    rewrite (@ObjFacts.set_fresh (suffixed n k) _ SF) by exact Hfree.
    rewrite del_last by exact Hfree.
    rewrite !set_twice.
    rewrite (@set_same "sub_fields" pfo (VObj SF) HSF (has_of_get _ _ HSF)).
    rewrite (@set_same p F (VObj pfo) Hp (has_of_get _ _ Hp)).
    rewrite (@set_same "fields" B (VObj F) HF (has_of_get _ _ HF)). reflexivity.
Qed.

Lemma duplicateField_then_deleteField_restores_witness :
  exists nb cloneName,
    duplicateField two_editor_fields (selector "a") = Ok (EditBlock (VObj nb))
    /\ Obj.has cloneName
               [("a", field "a" "editor" 0); ("b", field "b" "editor" 1)] = false
    /\ deleteField (VObj nb)
                   (VObj (Obj.set "name" (VStr cloneName)
                            [("name", VStr "a"); ("uniqueId", VStr "a")]))
       = Ok (EditBlock two_editor_fields).
Proof.
  apply (proj1 duplicateField_then_deleteField_restores
           [("name", VStr "ns/block");
            ("fields", VObj [("a", field "a" "editor" 0);
                             ("b", field "b" "editor" 1)])]
           [("a", field "a" "editor" 0); ("b", field "b" "editor" 1)]
           [("name", VStr "a"); ("uniqueId", VStr "a")]
           [("name", VStr "a"); ("location", VStr "editor"); ("order", VNum 0)]
           "a" "a").
  - reflexivity.
  - reflexivity.
  - reflexivity.
  - discriminate.
  - reflexivity.
  - reflexivity.
  - reflexivity.
Defined.

(** * The hook keyed by field name *)

Lemma keys_set_nodup k v (o : obj) :
  NoDup (Obj.keys o) -> NoDup (Obj.keys (Obj.set k v o)).
Proof.
  intros H. destruct (Obj.has k o) eqn:E.
  - now rewrite keys_set_existing.
  - rewrite ObjFacts.set_fresh by exact E. unfold Obj.keys. rewrite map_app.
    cbn [map fst]. apply NoDup_app; [exact H | repeat constructor; simpl; tauto |].
    intros x Hx [<-|[]]. now apply ObjFacts.has_false_iff in E.
Qed.

Lemma assign_disjoint (s : obj) : forall o : obj,
  NoDup (Obj.keys s) ->
  (forall k, In k (Obj.keys s) -> ~ In k (Obj.keys o)) ->
  Obj.assign o s = o ++ s.
Proof.
  induction s as [|[k v] s IH]; intros o Hnd Hdis.
  - cbn. now rewrite app_nil_r.
  - change (Obj.assign o ((k, v) :: s)) with (Obj.assign (Obj.set k v o) s).
    inversion Hnd as [|? ? Hn Hd]; subst.
    rewrite ObjFacts.set_fresh
      by (apply ObjFacts.has_false_iff, Hdis; now left).
    rewrite IH.
    + now rewrite <- app_assoc.
    + exact Hd.
    + intros x Hx Hin. unfold Obj.keys in Hin. rewrite map_app in Hin.
      apply in_app_or in Hin as [Hin|[<-|[]]].
      * apply (Hdis x); [now right | exact Hin].
      * now apply Hn.
Qed.

Lemma assign_nil (s : obj) : NoDup (Obj.keys s) -> Obj.assign [] s = s.
Proof. intros H. now rewrite assign_disjoint. Qed.

Lemma get_del_same k (o : obj) :
  NoDup (Obj.keys o) -> Obj.get k (Obj.del k o) = VUndef.
Proof. intros H. now apply ObjFacts.get_absent, ObjFacts.has_del_same. Qed.

Lemma get_first k v (o : obj) : Obj.get k ((k, v) :: o) = v.
Proof. cbn. now rewrite String.eqb_refl. Qed.

Lemma set_first k v v' (o : obj) : Obj.set k v' ((k, v) :: o) = (k, v') :: o.
Proof. cbn. now rewrite String.eqb_refl. Qed.

Lemma byname_changeFieldSettings_rename ns B rest F fo s n m :
  Obj.get "fields" B = VObj F ->
  NoDup (Obj.keys F) ->
  Obj.get n F = VObj fo ->
  truthy (Obj.get "location" s) = false ->
  Obj.get "name" s = VStr m ->
  m <> "" ->
  NoDup (Obj.keys s) ->
  ByName.changeFieldSettings (VObj ((ns, VObj B) :: rest)) (VStr n) (VObj s)
  = Ok (ByName.EditPost
          (VObj ((ns,
                  VObj (Obj.set "fields"
                          (VObj (Obj.set n (VObj s)
                                   (Obj.del n
                                      (Obj.set m (VObj (Obj.set "name" (VStr m) fo)) F))))
                          B)) :: rest))).
Proof.
  intros HF Hnd Hn Hloc Hm Hne Hs.
  assert (Hm' : String.eqb m "" = false) by now apply String.eqb_neq.
  assert (Hgone : Obj.get n (Obj.del n (Obj.set m (VObj (Obj.set "name" (VStr m) fo)) F))
                  = VUndef) by now apply get_del_same, keys_set_nodup.
  unfold ByName.changeFieldSettings, ByName.blockNameWithNameSpace,
    ByName.changeFieldName, ByName.editPost.
  repeat (cbn [ByName.first_key get bind put delete spread to_str truthy negb];
          rewrite ?get_first, ?set_first, ?Hloc, ?Hm, ?Hm', ?HF, ?Hn,
                  ?ObjFacts.get_set_same, ?Hgone, ?set_twice).
  now rewrite assign_nil.
Qed.

(** X19: in the hook keyed by field name, [changeFieldSettings] with a
    [name] among the settings (and no location) renames first and merges
    afterwards under the old key: the block handed to [editPost] holds, under
    the old name, exactly the settings and nothing of the field, and, when
    the new name differs, under the new name the old field with only its
    name changed; the other fields are untouched. *)
Theorem byname_changeFieldSettings_rename_leaves_settings ns B rest F fo s n m :
  Obj.get "fields" B = VObj F ->
  NoDup (Obj.keys F) ->
  Obj.get n F = VObj fo ->
  truthy (Obj.get "location" s) = false ->
  Obj.get "name" s = VStr m ->
  m <> "" ->
  NoDup (Obj.keys s) ->
  exists F',
    ByName.changeFieldSettings (VObj ((ns, VObj B) :: rest)) (VStr n) (VObj s)
    = Ok (ByName.EditPost
            (VObj ((ns, VObj (Obj.set "fields" (VObj F') B)) :: rest)))
    /\ Obj.get n F' = VObj s
    /\ (m <> n -> Obj.get m F' = VObj (Obj.set "name" (VStr m) fo))
    /\ (forall k, k <> n -> k <> m -> Obj.get k F' = Obj.get k F).
Proof.
  intros HF Hnd Hn Hloc Hm Hne Hs.
  eexists. split; [now apply (@byname_changeFieldSettings_rename ns B rest F fo s n m)|].
  split; [apply ObjFacts.get_set_same|]. split.
  - intros Hmn. rewrite ObjFacts.get_set_other, ObjFacts.get_del_other by exact Hmn.
    apply ObjFacts.get_set_same.
  - intros k Hkn Hkm.
    rewrite ObjFacts.get_set_other, ObjFacts.get_del_other by exact Hkn.
    now apply ObjFacts.get_set_other.
Qed.

Lemma byname_changeFieldSettings_rename_leaves_settings_witness :
  exists F',
    ByName.changeFieldSettings
      (VObj [("ns/block",
              VObj [("fields", VObj [("a", field "a" "editor" 0);
                                     ("b", field "b" "editor" 1)])])])
      (VStr "a") (VObj [("name", VStr "c")])
    = Ok (ByName.EditPost
            (VObj [("ns/block",
                    VObj (Obj.set "fields" (VObj F')
                            [("fields", VObj [("a", field "a" "editor" 0);
                                              ("b", field "b" "editor" 1)])]))]))
    /\ Obj.get "a" F' = VObj [("name", VStr "c")]
    /\ ("c" <> "a" ->
        Obj.get "c" F'
        = VObj (Obj.set "name" (VStr "c")
                  [("name", VStr "a"); ("location", VStr "editor"); ("order", VNum 0)]))
    /\ (forall k, k <> "a" -> k <> "c" ->
                  Obj.get k F'
                  = Obj.get k [("a", field "a" "editor" 0); ("b", field "b" "editor" 1)]).
Proof.
  apply (@byname_changeFieldSettings_rename_leaves_settings
           "ns/block"
           [("fields", VObj [("a", field "a" "editor" 0);
                             ("b", field "b" "editor" 1)])]
           []
           [("a", field "a" "editor" 0); ("b", field "b" "editor" 1)]
           [("name", VStr "a"); ("location", VStr "editor"); ("order", VNum 0)]
           [("name", VStr "c")] "a" "c").
  - reflexivity.
  - repeat constructor; simpl; intuition discriminate.
  - reflexivity.
  - reflexivity.
  - reflexivity.
  - discriminate.
  - repeat constructor; simpl; intuition discriminate.
Defined.

(** X20: in the hook keyed by field name, [changeControl] stores a field
    with exactly the four attributes name, label, control and type: name and
    label are the previous field's, control and type the new control's, and
    every other attribute of the previous field (its location and order
    too) is gone; the other fields and the order of the keys stay.  With an
    unknown control or an empty field name nothing is handed to [editPost]. *)
Theorem byname_changeControl_keeps_four_attributes :
  (forall C d ns B rest F prev n cn,
      Obj.get cn C = VObj d ->
      n <> "" ->
      Obj.get "fields" B = VObj F ->
      Obj.get n F = VObj prev ->
      exists nf F',
        ByName.changeControl (VObj C) (VObj ((ns, VObj B) :: rest)) (VStr n) cn
        = Ok (ByName.EditPost
                (VObj ((ns, VObj (Obj.set "fields" (VObj F') B)) :: rest)))
        /\ Obj.get n F' = VObj nf
        /\ Obj.keys F' = Obj.keys F
        /\ (forall k, k <> n -> Obj.get k F' = Obj.get k F)
        /\ Obj.keys nf = ["name"; "label"; "control"; "type"]
        /\ Obj.get "name" nf = Obj.get "name" prev
        /\ Obj.get "label" nf = Obj.get "label" prev
        /\ Obj.get "control" nf = Obj.get "name" d
        /\ Obj.get "type" nf = Obj.get "type" d
        /\ Obj.get "location" nf = VUndef
        /\ Obj.get "order" nf = VUndef)
  /\ (forall C ns blk rest n cn,
         truthy (Obj.get cn C) = false ->
         ByName.changeControl (VObj C) (VObj ((ns, blk) :: rest)) n cn
         = Ok ByName.NoEffect)
  /\ (forall C ns blk rest n cn,
         truthy n = false ->
         ByName.changeControl (VObj C) (VObj ((ns, blk) :: rest)) n cn
         = Ok ByName.NoEffect).
Proof.
  split; [|split].
  - intros C d ns B rest F prev n cn Hd Hne HF Hn.
    assert (Hn' : String.eqb n "" = false) by now apply String.eqb_neq.
    exists [("name", Obj.get "name" prev); ("label", Obj.get "label" prev);
            ("control", Obj.get "name" d); ("type", Obj.get "type" d)].
    eexists. split; [|split; [apply ObjFacts.get_set_same|split; [|split]]].
    + unfold ByName.changeControl, ByName.blockNameWithNameSpace, ByName.editPost.
      repeat (cbn [ByName.first_key get bind put to_str truthy negb orb];
              rewrite ?get_first, ?set_first, ?Hd, ?Hn', ?HF, ?Hn).
      reflexivity.
    + apply keys_set_existing. now apply has_of_get with (x := prev).
    + intros k Hk. now apply ObjFacts.get_set_other.
    + repeat split; reflexivity.
  - intros C ns blk rest n cn Hno.
    unfold ByName.changeControl, ByName.blockNameWithNameSpace.
    cbn [ByName.first_key get bind]. now rewrite Hno.
  - intros C ns blk rest n cn Hno.
    unfold ByName.changeControl, ByName.blockNameWithNameSpace.
    cbn [ByName.first_key get bind]. rewrite Hno. cbn [negb].
    now rewrite orb_true_r.
Qed.

Lemma byname_changeControl_keeps_four_attributes_witness :
  exists nf F',
    ByName.changeControl registry
      (VObj [("ns/block",
              VObj [("fields", VObj [("a", field "a" "inspector" 0)])])])
      (VStr "a") "image"
    = Ok (ByName.EditPost
            (VObj [("ns/block",
                    VObj (Obj.set "fields" (VObj F')
                            [("fields", VObj [("a", field "a" "inspector" 0)])]))]))
    /\ Obj.get "a" F' = VObj nf
    /\ Obj.keys F' = ["a"]
    /\ (forall k, k <> "a" ->
                  Obj.get k F' = Obj.get k [("a", field "a" "inspector" 0)])
    /\ Obj.keys nf = ["name"; "label"; "control"; "type"]
    /\ Obj.get "name" nf = VStr "a"
    /\ Obj.get "label" nf = VUndef
    /\ Obj.get "control" nf = VStr "image"
    /\ Obj.get "type" nf = VStr "integer"
    /\ Obj.get "location" nf = VUndef
    /\ Obj.get "order" nf = VUndef.
Proof.
  apply (proj1 byname_changeControl_keeps_four_attributes
           [("text",
             VObj [("name", VStr "text"); ("type", VStr "string");
                   ("defaultSettings", VObj [("placeholder", VStr "")])]);
            ("image",
             VObj [("name", VStr "image"); ("type", VStr "integer")])]
           [("name", VStr "image"); ("type", VStr "integer")]
           "ns/block"
           [("fields", VObj [("a", field "a" "inspector" 0)])]
           []
           [("a", field "a" "inspector" 0)]
           [("name", VStr "a"); ("location", VStr "inspector"); ("order", VNum 0)]
           "a" "image").
  - reflexivity.
  - discriminate.
  - reflexivity.
  - reflexivity.
Defined.

(** ** The two hooks side by side *)

Lemma strict_eq_sym a b : strict_eq a b = strict_eq b a.
Proof.
  destruct a, b; simpl; try reflexivity.
  - destruct b, b0; reflexivity.
  - apply Z.eqb_sym.
  - apply String.eqb_sym.
Qed.

Lemma filterM_pointwise (A : Type) (f g : A -> outcome bool) l :
  (forall x, f x = g x) -> filterM f l = filterM g l.
Proof.
  intros H. induction l as [|x r IH]; simpl; [reflexivity|].
  now rewrite H, IH.
Qed.

Lemma byname_in_location_editor f :
  ByName.in_location (VStr "editor") f = in_location (VStr "editor") f.
Proof.
  unfold ByName.in_location, in_location.
  change (strict_eq (VStr "editor") (VStr "editor")) with true.
  change (strict_eq (VStr DEFAULT_LOCATION) (VStr "editor")) with true.
  cbv iota. destruct (get f "location") as [fl| |]; cbn [bind]; try reflexivity.
  now rewrite andb_true_r, orb_comm.
Qed.

Lemma byname_in_location_other loc f :
  strict_eq (VStr "editor") loc = false ->
  ByName.in_location loc f
  = (fl <- get f "location" ;; Ok (strict_eq fl (VStr "inspector")))%js.
Proof. intros H. unfold ByName.in_location. now rewrite H. Qed.

Lemma byname_in_location_inspector f :
  ByName.in_location (VStr "inspector") f = in_location (VStr "inspector") f.
Proof.
  rewrite byname_in_location_other by reflexivity.
  unfold in_location.
  change (strict_eq (VStr DEFAULT_LOCATION) (VStr "inspector")) with false.
  destruct (get f "location") as [fl| |]; cbn [bind]; try reflexivity.
  now rewrite andb_false_r, orb_false_r, strict_eq_sym.
Qed.

Lemma byname_listing ns blk rest loc :
  (forall f, ByName.in_location loc f = in_location loc f) ->
  ByName.getFieldsForLocation (VObj ((ns, blk) :: rest)) loc
  = getFieldsForLocation (currentBlock blk) loc None.
Proof.
  intros Hloc.
  unfold ByName.getFieldsForLocation, ByName.blockNameWithNameSpace,
    getFieldsForLocation, currentBlock.
  cbn [ByName.first_key get bind]. rewrite get_first.
  destruct (truthy blk) eqn:Hb; cbn [negb].
  - rewrite Hb. cbn [negb].
    destruct (get blk "fields") as [bf| |]; cbn [bind]; try reflexivity.
    destruct (truthy bf); cbn [negb]; [|reflexivity].
    destruct (getFieldsAsArray bf) as [all| |]; cbn [bind]; try reflexivity.
    now rewrite (@filterM_pointwise _ _ _ all Hloc).
  - reflexivity.
Qed.

Lemma byname_getFieldsForLocation_editor_inspector ns blk rest :
  ByName.getFieldsForLocation (VObj ((ns, blk) :: rest)) (VStr "editor")
  = getFieldsForLocation (currentBlock blk) (VStr "editor") None
  /\ ByName.getFieldsForLocation (VObj ((ns, blk) :: rest)) (VStr "inspector")
     = getFieldsForLocation (currentBlock blk) (VStr "inspector") None.
Proof.
  split.
  - apply byname_listing, byname_in_location_editor.
  - apply byname_listing, byname_in_location_inspector.
Qed.

(** X21: for the locations "editor" and "inspector" the hook keyed by field
    name lists what the later hook lists at the top level of the same block
    (the first entry of the full block, or an empty block when that entry
    is falsy); for every other location it lists the fields of
    "inspector". *)
Theorem byname_getFieldsForLocation_agrees ns blk rest :
  ByName.getFieldsForLocation (VObj ((ns, blk) :: rest)) (VStr "editor")
  = getFieldsForLocation (currentBlock blk) (VStr "editor") None
  /\ ByName.getFieldsForLocation (VObj ((ns, blk) :: rest)) (VStr "inspector")
     = getFieldsForLocation (currentBlock blk) (VStr "inspector") None
  /\ (forall loc,
         strict_eq (VStr "editor") loc = false ->
         ByName.getFieldsForLocation (VObj ((ns, blk) :: rest)) loc
         = ByName.getFieldsForLocation (VObj ((ns, blk) :: rest)) (VStr "inspector")).
Proof.
  split; [|split].
  - apply byname_getFieldsForLocation_editor_inspector.
  - apply byname_getFieldsForLocation_editor_inspector.
  - intros loc Hloc.
    unfold ByName.getFieldsForLocation, ByName.blockNameWithNameSpace.
    cbn [ByName.first_key get bind]. rewrite get_first.
    destruct (truthy blk); cbn [negb]; [|reflexivity].
    destruct (get blk "fields") as [bf| |]; cbn [bind]; try reflexivity.
    destruct (truthy bf); cbn [negb]; [|reflexivity].
    destruct (getFieldsAsArray bf) as [all| |]; cbn [bind]; try reflexivity.
    rewrite (@filterM_pointwise _ (ByName.in_location loc)
               (ByName.in_location (VStr "inspector")) all); [reflexivity|].
    intros f. now rewrite !byname_in_location_other.
Qed.

Lemma byname_getFieldsForLocation_agrees_witness :
  ByName.getFieldsForLocation
    (VObj [("ns/block", VObj [("fields", VObj three_locations)])]) (VStr "sidebar")
  = ByName.getFieldsForLocation
      (VObj [("ns/block", VObj [("fields", VObj three_locations)])]) (VStr "inspector").
Proof.
  apply (proj2 (proj2 (byname_getFieldsForLocation_agrees
                         "ns/block" (VObj [("fields", VObj three_locations)]) []))).
  reflexivity.
Defined.

Lemma getOtherLocation_cases loc other :
  getOtherLocation loc = Ok other ->
  (loc = VStr "editor" /\ other = VStr "inspector")
  \/ (loc = VStr "inspector" /\ other = VStr "editor").
Proof.
  unfold getOtherLocation. destruct loc as [ | | | |s| | ]; try discriminate.
  destruct (String.eqb_spec s "editor") as [->|_].
  - intros H. injection H as <-. now left.
  - destruct (String.eqb_spec s "inspector") as [->|_]; [|discriminate].
    intros H. injection H as <-. now right.
Qed.

Lemma byname_listing_top ns B rest F loc other :
  getOtherLocation loc = Ok other ->
  Obj.get "fields" B = VObj F ->
  Forall (fun f => has_order f = true) (Obj.values F) ->
  ByName.getFieldsForLocation (VObj ((ns, VObj B) :: rest)) loc
  = Ok (VArr (group F loc))
  /\ ByName.getFieldsForLocation (VObj ((ns, VObj B) :: rest)) other
     = Ok (VArr (group F other)).
Proof.
  intros Hother HF Hord.
  pose proof (byname_getFieldsForLocation_editor_inspector ns (VObj B) rest) as [He Hi].
  cbn [currentBlock truthy] in He, Hi.
  rewrite (@getFieldsForLocation_top B F _ HF Hord) in He.
  rewrite (@getFieldsForLocation_top B F _ HF Hord) in Hi.
  destruct (getOtherLocation_cases _ Hother) as [[-> ->]|[-> ->]]; now split.
Qed.

Lemma byname_reorder_run ns B rest F loc other from to :
  Obj.get "fields" B = VObj F ->
  wf_fields F ->
  getOtherLocation loc = Ok other ->
  from < List.length (group F loc) ->
  to < List.length (group F loc) ->
  ByName.reorderFields (VObj ((ns, VObj B) :: rest)) from to loc
  = Ok (ByName.EditPost
          (VObj ((ns, VObj (Obj.set "fields" (VObj (reordered F loc other from to)) B))
                 :: rest))).
Proof.
  intros HF Hwf Hother Hfrom Hto.
  destruct (@byname_listing_top ns B rest F loc other Hother HF (wf_order Hwf))
    as [Hl Ho].
  unfold ByName.reorderFields. rewrite Hl. cbn [bind as_array].
  destruct (Nat.eqb_spec (List.length (group F loc)) 0) as [E|_]; [lia|].
  rewrite array_set_inside by exact Hfrom. cbn [bind].
  rewrite array_set_inside by (now rewrite replace_nth_length).
  cbn [bind]. fold (swapped (group F loc) from to).
  unfold setCorrectOrderForFields.
  rewrite set_orders_objects
    by (apply (@swapped_objects F loc from to Hwf Hfrom Hto)).
  cbn [bind]. rewrite Hother. cbn [bind]. rewrite Ho.
  cbn [bind as_array].
  rewrite getFieldsAsObject_keyed
    by (apply (@reordered_ident F loc other from to Hwf Hfrom Hto)
        || apply (@reordered_distinct F loc other from to Hwf Hother Hfrom Hto)).
  unfold ByName.blockNameWithNameSpace, ByName.editPost.
  cbn [ByName.first_key get bind put]. rewrite get_first. cbn [bind put].
  now rewrite set_first.
Qed.

(** X22: on a top-level field both hooks persist the same block: what
    [deleteField] and [reorderFields] of the later hook hand to [editBlock]
    is the first entry of the full block that the hook keyed by field name
    hands to [editPost], whose other entries are unchanged. *)
Theorem byname_deleteField_reorderFields_agree :
  (forall ns B rest F so n,
      Obj.get "fields" B = VObj F ->
      Obj.has "parent" so = false ->
      Obj.get "name" so = VStr n ->
      exists nb,
        deleteField (VObj B) (VObj so) = Ok (EditBlock nb)
        /\ ByName.deleteField (VObj ((ns, VObj B) :: rest)) (VStr n)
           = Ok (ByName.EditPost (VObj ((ns, nb) :: rest))))
  /\ (forall ns B rest F loc other E from to,
         Obj.get "fields" B = VObj F ->
         wf_fields F ->
         getOtherLocation loc = Ok other ->
         getFieldsForLocation (VObj B) loc None = Ok (VArr E) ->
         from < List.length E -> to < List.length E ->
         exists nb,
           reorderFields (VObj B) from to loc None = Ok (EditBlock nb)
           /\ ByName.reorderFields (VObj ((ns, VObj B) :: rest)) from to loc
              = Ok (ByName.EditPost (VObj ((ns, nb) :: rest)))).
Proof.
  split.
  - intros ns B rest F so n HF Htop Hn. eexists. split.
    + now apply (@deleteField_top B F so n).
    + unfold ByName.deleteField, ByName.blockNameWithNameSpace, ByName.editPost.
      repeat (cbn [ByName.first_key get bind put delete to_str];
              rewrite ?get_first, ?set_first, ?HF).
      reflexivity.
  - intros ns B rest F loc other E from to HF Hwf Hother HE Hfrom Hto.
    rewrite (@getFieldsForLocation_top B F loc HF (wf_order Hwf)) in HE.
    injection HE as <-.
    exists (VObj (Obj.set "fields" (VObj (reordered F loc other from to)) B)).
    split.
    + now apply reorder_run.
    + now apply byname_reorder_run.
Qed.

Lemma byname_deleteField_reorderFields_agree_witness :
  exists nb,
    deleteField two_editor_fields (VObj [("name", VStr "a")]) = Ok (EditBlock nb)
    /\ ByName.deleteField (VObj [("ns/block", two_editor_fields)]) (VStr "a")
       = Ok (ByName.EditPost (VObj [("ns/block", nb)])).
Proof.
  apply (proj1 byname_deleteField_reorderFields_agree "ns/block"
           [("name", VStr "ns/block");
            ("fields", VObj [("a", field "a" "editor" 0);
                             ("b", field "b" "editor" 1)])]
           []
           [("a", field "a" "editor" 0); ("b", field "b" "editor" 1)]
           [("name", VStr "a")] "a").
  - reflexivity.
  - reflexivity.
  - reflexivity.
Defined.

(** * Moving a field: what the new collection holds *)

Lemma relocated_keys F mo s n u p q :
  Obj.keys (relocated F mo s n u p q)
  = map key_of (filter (other_name n) (group F (VStr p)) ++ group F (VStr q)) ++ [u].
Proof.
  unfold relocated, Obj.keys. rewrite map_app. cbn [map fst].
  fold (Obj.keys (keyed (renumber 0 (filter (other_name n) (group F (VStr p)))
                         ++ renumber 0 (group F (VStr q))))).
  rewrite keys_keyed, !map_app.
  now rewrite !(renumber_map key_of _ key_of_set_order).
Qed.

(** X23: after [changeFieldSettings] has moved a top-level field to another
    location, the persisted collection holds only fields that the old or
    the new location listed before: every key is the identifier of such a
    field, and a field of the old collection that neither location listed
    is no longer stored. *)
Theorem changeFieldSettings_move_keeps_two_locations B F so mo s n u p q :
  Obj.get "fields" B = VObj F ->
  wf_fields F ->
  Obj.get "name" so = VStr n ->
  Obj.get "uniqueId" so = VStr u ->
  Obj.has "parent" so = false ->
  Obj.get n F = VObj mo ->
  Obj.get "name" mo = VStr n ->
  ident (VObj mo) = Some u ->
  Obj.get "location" mo = VStr p ->
  Obj.get "location" s = VStr q ->
  Obj.has "name" s = false ->
  p <> q -> p <> "" -> q <> "" ->
  exists N,
    changeFieldSettings (VObj B) (VObj so) (VObj s)
    = Ok (EditBlock (VObj (Obj.set "fields" (VObj N) B)))
    /\ (forall k, Obj.has k N = true ->
                  exists f, In f (Obj.values F) /\ key_of f = k
                            /\ (in_loc (VStr p) f = true \/ in_loc (VStr q) f = true))
    /\ (forall f, In f (Obj.values F) ->
                  in_loc (VStr p) f = false -> in_loc (VStr q) f = false ->
                  Obj.has (key_of f) N = false).
Proof.
  intros HF Hwf Hsn Hsu Htop Hm Hmn Hmi Hml Hsl Hsname Hpq Hp Hq.
  assert (Hmin : In (VObj mo) (Obj.values F)).
  { rewrite <- Hm. apply ObjFacts.get_in. now apply has_of_get with (x := mo). }
  assert (Hmk : key_of (VObj mo) = u) by (unfold key_of; now rewrite Hmi).
  assert (Hmp : in_loc (VStr p) (VObj mo) = true).
  { unfold in_loc, prop. rewrite Hml. cbn [strict_eq].
    now rewrite String.eqb_refl. }
  assert (Hsrc : forall k, In k (Obj.keys (relocated F mo s n u p q)) ->
                   exists f, In f (Obj.values F) /\ key_of f = k
                             /\ (in_loc (VStr p) f = true \/ in_loc (VStr q) f = true)).
  { intros k Hk. rewrite relocated_keys in Hk.
    apply in_app_or in Hk as [Hk|[<-|[]]].
    - apply in_map_iff in Hk as [g [<- Hg]]. exists g.
      apply in_app_or in Hg as [Hg|Hg].
      + apply filter_In in Hg as [Hg _]. apply group_in in Hg. tauto.
      + apply group_in in Hg. tauto.
    - exists (VObj mo). tauto. }
  exists (relocated F mo s n u p q).
  split; [now apply (@move_run B F so mo s n u p q)|]. split.
  - intros k Hk. now apply Hsrc, ObjFacts.has_true_iff.
  - intros f Hf Hfp Hfq. apply ObjFacts.has_false_iff. intros Hin.
    destruct (Hsrc _ Hin) as [g [Hg [Hk Hloc]]].
    assert (g = f) by (apply (@nodup_map_inj (Obj.values F)); try assumption;
                       exact (wf_distinct Hwf)).
    subst g. destruct Hloc; congruence.
Qed.

Lemma changeFieldSettings_move_keeps_two_locations_witness :
  exists N,
    changeFieldSettings (VObj [("fields", VObj three_locations)]) (selector "a")
                        (VObj [("location", VStr "inspector")])
    = Ok (EditBlock (VObj (Obj.set "fields" (VObj N)
                             [("fields", VObj three_locations)])))
    /\ (forall k, Obj.has k N = true ->
                  exists f, In f (Obj.values three_locations) /\ key_of f = k
                            /\ (in_loc (VStr "editor") f = true
                                \/ in_loc (VStr "inspector") f = true))
    /\ (forall f, In f (Obj.values three_locations) ->
                  in_loc (VStr "editor") f = false ->
                  in_loc (VStr "inspector") f = false ->
                  Obj.has (key_of f) N = false).
Proof.
  apply (@changeFieldSettings_move_keeps_two_locations
           [("fields", VObj three_locations)] three_locations
           [("name", VStr "a"); ("uniqueId", VStr "a")]
           [("name", VStr "a"); ("location", VStr "editor"); ("order", VNum 0)]
           [("location", VStr "inspector")] "a" "a" "editor" "inspector").
  - reflexivity.
  - wf_concrete.
  - reflexivity.
  - reflexivity.
  - reflexivity.
  - reflexivity.
  - reflexivity.
  - reflexivity.
  - reflexivity.
  - reflexivity.
  - reflexivity.
  - discriminate.
  - discriminate.
  - discriminate.
Defined.
